(** * The Action Intent Pipeline of the coding workbench

    A shallow embedding of [shared/actions.ts] (the Action Schema),
    [server/storage.ts] (the in-memory Project Store) and
    [server/services/actionProcessor.ts] (Intent Parser, Action Executor and
    Confirmation Gate), with the one-shot run of
    [server/services/pythonExecutor.ts] that the executor calls, followed by
    the properties the design document states about them. *)

From Stdlib Require Import QArith.
From stdpp Require Import gmap strings list fin_maps pretty.

Local Open Scope string_scope.
Local Open Scope list_scope.

(** ** Strings *)

(** The double-quote character, used by the messages that quote a name. *)
Definition dquote : string := String (Ascii.ascii_of_nat 34) EmptyString.

(** JavaScript truthiness of a string: only the empty string is falsy. *)
Definition truthy_string (s : string) : bool :=
  match s with
  | EmptyString => false
  | String _ _ => true
  end.

(** [a || b] on strings. *)
Definition or_string (a b : string) : string :=
  if truthy_string a then a else b.

(** [Array.prototype.join]. *)
Fixpoint join (sep : string) (l : list string) : string :=
  match l with
  | [] => EmptyString
  | [x] => x
  | x :: r => x +:+ sep +:+ join sep r
  end.

(** A string holds the UTF-8 bytes of the JavaScript string it stands for:
    a byte [10xxxxxx] continues the code point begun before it. *)
Definition continues (a : Ascii.ascii) : bool :=
  match a with
  | Ascii.Ascii _ _ _ _ _ _ b6 b7 => b7 && negb b6
  end.

(** What [for ... of] yields on a string: its code points, in order. *)
Fixpoint codePoints (s : string) : list string :=
  match s with
  | EmptyString => []
  | String a rest =>
      match codePoints rest with
      | String b c :: more =>
          if continues b then String a (String b c) :: more
          else String a EmptyString :: String b c :: more
      | more => String a EmptyString :: more
      end
  end.

(** ** Decoded JSON values

    What [JSON.parse] returns. An object is kept as the list of its
    properties; a property is read at its first occurrence. *)

#[warnings="-register-all"]
Inductive JValue : Type :=
| JNull
| JBool (b : bool)
| JNum (q : Q)
| JStr (s : string)
| JArr (l : list JValue)
| JObj (o : list (string * JValue)).

(** A thrown JavaScript [Error], with its [message]. *)
Inductive Exn : Type := Error (message : string).

Definition errMessage (e : Exn) : string :=
  match e with Error m => m end.

Fixpoint lookupProp (k : string) (o : list (string * JValue)) : option JValue :=
  match o with
  | [] => None
  | (k', v) :: r => if String.eqb k k' then Some v else lookupProp k r
  end.

(** [o[k] = v] on an object: the property keeps its place when present. *)
Fixpoint setProp (k : string) (v : JValue) (o : list (string * JValue))
  : list (string * JValue) :=
  match o with
  | [] => [(k, v)]
  | (k', v') :: r =>
      if String.eqb k k' then (k, v) :: r else (k', v') :: setProp k v r
  end.

(** [v[k]] where no exception is possible (the value is known not to be
    [null]): [None] stands for [undefined]. None of the keys read by the
    pipeline is a property of an array, a string, a number or a boolean. *)
Definition getProp (v : JValue) (k : string) : option JValue :=
  match v with
  | JObj o => lookupProp k o
  | _ => None
  end.

(** [v.k] as the code evaluates it, on a value that may be anything
    decoded: reading a property of [null] throws a [TypeError]. *)
Definition readProp (v : JValue) (k : string) : Exn + option JValue :=
  match v with
  | JNull =>
      inl (Error ("Cannot read properties of null (reading '" +:+ k +:+ "')"))
  | _ => inr (getProp v k)
  end.

(** What a property read gives, and what a property of a record of the
    store may hold at run time whatever its declared type: [undefined], or a
    decoded value. A string is such a value. *)
Definition Stored : Type := option JValue.

Definition str (s : string) : Stored := Some (JStr s).

Coercion str : string >-> Stored.

(** [for (const x of v)]: an array yields its elements and a string its
    code points; nothing else that [JSON.parse] returns, nor [undefined],
    is iterable. [what] is the text of the expression, which the message of
    the [TypeError] quotes. *)
Definition iterate (what : string) (v : Stored) : Exn + list JValue :=
  match v with
  | Some (JArr l) => inr l
  | Some (JStr s) => inr (JStr <$> codePoints s)
  | _ => inl (Error (what +:+ " is not iterable"))
  end.

(** The header [for (const fileData of skeleton.files)] of the loops over a
    generated skeleton: the property is read, which throws on [null], and
    iterated. [what] is the name of the variable that holds the skeleton. *)
Definition skeletonFiles (what : string) (skeleton : JValue)
  : Exn + list JValue :=
  match readProp skeleton "files" with
  | inl e => inl e
  | inr files => iterate (what +:+ ".files") files
  end.

(** Truthiness of a value that may be [undefined]. *)
Definition truthy (v : option JValue) : bool :=
  match v with
  | None => false
  | Some JNull => false
  | Some (JBool b) => b
  | Some (JNum q) => negb (Qeq_bool q 0)
  | Some (JStr s) => truthy_string s
  | Some (JArr _) => true
  | Some (JObj _) => true
  end.

(** ** The Action Schema ([shared/actions.ts]) *)

Inductive ProjectType := web | apk | python.
Inductive Template := blank | basic_website | react_app | android_app.
Inductive FileType := html | css | js | py | xml | java | kt | smali.
Inductive PageType := landing | contact | about | blog | product | service.
Inductive Style := modern | classic | minimal | colorful.
Inductive ApkAction := change_icon | modify_strings | add_feature | change_theme.

Definition ProjectType_to_string (t : ProjectType) : string :=
  match t with web => "web" | apk => "apk" | python => "python" end.

Definition FileType_to_string (t : FileType) : string :=
  match t with
  | html => "html" | css => "css" | js => "js" | py => "py"
  | xml => "xml" | java => "java" | kt => "kt" | smali => "smali"
  end.

Definition PageType_to_string (t : PageType) : string :=
  match t with
  | landing => "landing" | contact => "contact" | about => "about"
  | blog => "blog" | product => "product" | service => "service"
  end.

Definition Style_to_string (t : Style) : string :=
  match t with
  | modern => "modern" | classic => "classic"
  | minimal => "minimal" | colorful => "colorful"
  end.

Definition ApkAction_to_string (t : ApkAction) : string :=
  match t with
  | change_icon => "change_icon" | modify_strings => "modify_strings"
  | add_feature => "add_feature" | change_theme => "change_theme"
  end.

(** [ChatActionType]: the inferred type of the discriminated union. *)
Inductive ChatActionType : Type :=
| CreateProjectAction (name : string) (projectType : ProjectType)
    (description : option string) (template : option Template)
| AddFileAction (projectId name content path : string) (fileType : FileType)
| UpdateFileAction (fileId : string) (content path name : option string)
| DeleteFileAction (fileId : string)
| CreateWebPageAction (projectId pageName : string) (pageType : PageType)
    (style : option Style) (features : option (list string))
| ModifyApkAction (projectId : string) (action : ApkAction)
    (parameters : list (string * JValue))
| RunPythonAction (code : string) (description : option string)
| GenerateCodeSnippetAction (language description : string)
    (context : option string).

(** *** The zod combinators the schema is written with

    Each validator takes the value of the property ([None]: the property is
    absent, that is [undefined]) and returns the parsed value, or [None] when
    zod raises a validation error. *)

(** [z.string()] *)
Definition z_string (v : option JValue) : option string :=
  match v with
  | Some (JStr s) => Some s
  | _ => None
  end.

(** [z.string().min(1, ...)] *)
Definition z_string_min1 (v : option JValue) : option string :=
  match v with
  | Some (JStr s) => if truthy_string s then Some s else None
  | _ => None
  end.

(** [z.enum([...])], given the decoding of its literals. *)
Definition z_enum {A} (of_string : string -> option A) (v : option JValue)
  : option A :=
  match v with
  | Some (JStr s) => of_string s
  | _ => None
  end.

(** [.optional()]: [undefined] is accepted and stays [undefined]; anything
    else, [null] included, goes to the inner validator. *)
Definition z_optional {A} (inner : option JValue -> option A)
  (v : option JValue) : option (option A) :=
  match v with
  | None => Some None
  | Some _ => match inner v with Some a => Some (Some a) | None => None end
  end.

Fixpoint all_strings (l : list JValue) : option (list string) :=
  match l with
  | [] => Some []
  | JStr s :: r =>
      match all_strings r with Some r' => Some (s :: r') | None => None end
  | _ :: _ => None
  end.

(** [z.array(z.string())] *)
Definition z_array_string (v : option JValue) : option (list string) :=
  match v with
  | Some (JArr l) => all_strings l
  | _ => None
  end.

(** [z.record(z.any())]: any object that is neither [null] nor an array.
    The parsed record has the properties of the object, but for a property
    named [__proto__], which zod leaves out of what it returns. *)
Definition z_record_any (v : option JValue) : option (list (string * JValue)) :=
  match v with
  | Some (JObj o) => Some (filter (fun kv => kv.1 <> "__proto__") o)
  | _ => None
  end.

Definition ProjectType_of_string (s : string) : option ProjectType :=
  if String.eqb s "web" then Some web
  else if String.eqb s "apk" then Some apk
  else if String.eqb s "python" then Some python
  else None.

Definition Template_of_string (s : string) : option Template :=
  if String.eqb s "blank" then Some blank
  else if String.eqb s "basic_website" then Some basic_website
  else if String.eqb s "react_app" then Some react_app
  else if String.eqb s "android_app" then Some android_app
  else None.

Definition FileType_of_string (s : string) : option FileType :=
  if String.eqb s "html" then Some html
  else if String.eqb s "css" then Some css
  else if String.eqb s "js" then Some js
  else if String.eqb s "py" then Some py
  else if String.eqb s "xml" then Some xml
  else if String.eqb s "java" then Some java
  else if String.eqb s "kt" then Some kt
  else if String.eqb s "smali" then Some smali
  else None.

Definition PageType_of_string (s : string) : option PageType :=
  if String.eqb s "landing" then Some landing
  else if String.eqb s "contact" then Some contact
  else if String.eqb s "about" then Some about
  else if String.eqb s "blog" then Some blog
  else if String.eqb s "product" then Some product
  else if String.eqb s "service" then Some service
  else None.

Definition Style_of_string (s : string) : option Style :=
  if String.eqb s "modern" then Some modern
  else if String.eqb s "classic" then Some classic
  else if String.eqb s "minimal" then Some minimal
  else if String.eqb s "colorful" then Some colorful
  else None.

Definition ApkAction_of_string (s : string) : option ApkAction :=
  if String.eqb s "change_icon" then Some change_icon
  else if String.eqb s "modify_strings" then Some modify_strings
  else if String.eqb s "add_feature" then Some add_feature
  else if String.eqb s "change_theme" then Some change_theme
  else None.

(** *** The eight object schemas

    [z.object] strips the keys it does not know, so only the declared
    properties are read. The [type] literal has been checked by the union
    when one of these runs. *)

Section ObjectSchemas.
Variable o : list (string * JValue).

Let field (k : string) : option JValue := lookupProp k o.

Definition CreateProjectAction_parse : option ChatActionType :=
  name ← z_string_min1 (field "name");
  projectType ← z_enum ProjectType_of_string (field "projectType");
  description ← z_optional z_string (field "description");
  template ← z_optional (z_enum Template_of_string) (field "template");
  Some (CreateProjectAction name projectType description template).

Definition AddFileAction_parse : option ChatActionType :=
  projectId ← z_string (field "projectId");
  name ← z_string_min1 (field "name");
  content ← z_string (field "content");
  path ← z_string (field "path");
  fileType ← z_enum FileType_of_string (field "fileType");
  Some (AddFileAction projectId name content path fileType).

Definition UpdateFileAction_parse : option ChatActionType :=
  fileId ← z_string (field "fileId");
  content ← z_optional z_string (field "content");
  path ← z_optional z_string (field "path");
  name ← z_optional z_string (field "name");
  Some (UpdateFileAction fileId content path name).

Definition DeleteFileAction_parse : option ChatActionType :=
  fileId ← z_string (field "fileId");
  Some (DeleteFileAction fileId).

Definition CreateWebPageAction_parse : option ChatActionType :=
  projectId ← z_string (field "projectId");
  pageName ← z_string_min1 (field "pageName");
  pageType ← z_enum PageType_of_string (field "pageType");
  style ← z_optional (z_enum Style_of_string) (field "style");
  features ← z_optional z_array_string (field "features");
  Some (CreateWebPageAction projectId pageName pageType style features).

Definition ModifyApkAction_parse : option ChatActionType :=
  projectId ← z_string (field "projectId");
  action ← z_enum ApkAction_of_string (field "action");
  parameters ← z_record_any (field "parameters");
  Some (ModifyApkAction projectId action parameters).

Definition RunPythonAction_parse : option ChatActionType :=
  code ← z_string_min1 (field "code");
  description ← z_optional z_string (field "description");
  Some (RunPythonAction code description).

Definition GenerateCodeSnippetAction_parse : option ChatActionType :=
  language ← z_string (field "language");
  description ← z_string_min1 (field "description");
  context ← z_optional z_string (field "context");
  Some (GenerateCodeSnippetAction language description context).
End ObjectSchemas.

(** [ChatAction.parse]: the discriminated union on [type]. The input must be
    an object; its [type] selects the schema, and an unknown or missing
    discriminator is a validation error. [None] stands for the thrown
    [ZodError]. *)
Definition ChatAction_parse (v : JValue) : option ChatActionType :=
  match v with
  | JObj o =>
      match lookupProp "type" o with
      | Some (JStr t) =>
          if String.eqb t "create_project" then CreateProjectAction_parse o
          else if String.eqb t "add_file" then AddFileAction_parse o
          else if String.eqb t "update_file" then UpdateFileAction_parse o
          else if String.eqb t "delete_file" then DeleteFileAction_parse o
          else if String.eqb t "create_web_page" then CreateWebPageAction_parse o
          else if String.eqb t "modify_apk" then ModifyApkAction_parse o
          else if String.eqb t "run_python" then RunPythonAction_parse o
          else if String.eqb t "generate_code_snippet"
               then GenerateCodeSnippetAction_parse o
          else None
      | _ => None
      end
  | _ => None
  end.

(** ** Records of the store and of the executor *)

(** [Project] and [File] of [shared/schema.ts]; a timestamp is the number the
    clock returned. The path, the name, the content and the type of a file
    are declared as strings, and are whatever was put there: a generated
    skeleton is stored as decoded, without validation. *)
Record Project := mkProject {
  project_id : string;
  project_name : string;
  project_type : string;
  project_description : option string;
  project_files : list (string * string);
  project_createdAt : Z;
  project_updatedAt : Z
}.

Record File := mkFile {
  file_id : string;
  file_projectId : string;
  file_path : Stored;
  file_name : Stored;
  file_content : Stored;
  file_type : Stored;
  file_isModified : bool;
  file_createdAt : Z;
  file_updatedAt : Z
}.

(** [InsertProject], [InsertFile]: a record without the fields the store
    assigns. *)
Record InsertProject := mkInsertProject {
  ins_project_name : string;
  ins_project_type : string;
  ins_project_description : option string;
  ins_project_files : list (string * string)
}.

Record InsertFile := mkInsertFile {
  ins_projectId : string;
  ins_name : Stored;
  ins_path : Stored;
  ins_content : Stored;
  ins_type : Stored;
  ins_isModified : bool
}.

(** [Partial<File>]: every property may be absent. *)
Record PartialFile := mkPartialFile {
  upd_id : option string;
  upd_projectId : option string;
  upd_path : option Stored;
  upd_name : option Stored;
  upd_content : option Stored;
  upd_type : option Stored;
  upd_isModified : option bool;
  upd_createdAt : option Z;
  upd_updatedAt : option Z
}.

(** [ExecutionResult] of [pythonExecutor.ts]. *)
Record ExecutionResult := mkExecutionResult {
  exec_success : bool;
  exec_output : string;
  exec_error : option string
}.

(** The [data] payloads the handlers build. *)
Inductive Data : Type :=
| DataProject (project : Project) (files : list File)
| DataFile (file : File)
| DataFiles (files : list File)
| DataExecution (result : ExecutionResult)
| DataCode (code language : string).

(** [ActionResponseType]: [None] is a property the returned object does not
    have. *)
Record ActionResponseType := mkActionResponse {
  success : bool;
  message : string;
  data : option Data;
  requiresConfirmation : option bool;
  confirmationMessage : option string;
  actionId : option string
}.

(** [{ success, message }] *)
Definition plainResponse (ok : bool) (msg : string) : ActionResponseType :=
  mkActionResponse ok msg None None None None.

(** [{ success, message, data }] *)
Definition dataResponse (ok : bool) (msg : string) (d : Data)
  : ActionResponseType :=
  mkActionResponse ok msg (Some d) None None None.

(** The optional [context] argument of [parseUserRequest]. *)
Record ParseContext := mkParseContext {
  ctx_projectId : option string;
  ctx_currentFile : option string;
  ctx_fileContent : option string
}.

(** What [parseUserRequest] resolves to. [clarificationMessage] is whatever
    the decoded answer carried when it is passed through. *)
Record ParseResult := mkParseResult {
  actions : list ChatActionType;
  needsMoreInfo : bool;
  clarificationMessage : option JValue
}.

(** An entry of the pending-confirmation map. *)
Record Pending := mkPending {
  pending_action : ChatActionType;
  pending_userId : option string
}.

(** ** The one-shot run of [PythonExecutor] ([pythonExecutor.ts])

    [PythonExecutor] is an [EventEmitter], and it emits ['error'] with the
    text a child writes on its standard error. An emitter that emits
    ['error'] while nothing listens to that event throws; the exception
    leaves the listener of the child, uncaught. It carries what was
    emitted. *)
Inductive Uncaught : Type := UnhandledError (context : string).

(** What the child process of [executeCode] does, in order: chunks on its
    standard output and error, its end with an exit code ([None] when a
    signal ended it), or a failure to run. *)
Inductive ChildEvent : Type :=
| Stdout (chunk : string)
| Stderr (chunk : string)
| Close (code : option Z)
| Failed (message : string).

(** The listeners of [executeCode], from the values [output] and [error]
    have reached, [listening] telling whether the executor has a listener
    of ['error']: the promise is resolved by the first [close] or [error]
    of the child, and is [None] while neither has come. *)
Fixpoint executeCode_listen (listening : bool) (output error : string)
  (events : list ChildEvent) : Uncaught + option ExecutionResult :=
  match events with
  | [] => inr None
  | Stdout chunk :: rest =>
      executeCode_listen listening (output +:+ chunk) error rest
  | Stderr chunk :: rest =>
      if listening
      then executeCode_listen listening output (error +:+ chunk) rest
      else inl (UnhandledError chunk)
  | Close code :: _ =>
      inr (Some (mkExecutionResult (bool_decide (code = Some 0%Z)) output
                   (if bool_decide (code = Some 0%Z) then None else Some error)))
  | Failed message :: _ =>
      inr (Some (mkExecutionResult false EmptyString (Some message)))
  end.

Definition executeCode_result (listening : bool) (events : list ChildEvent)
  : Uncaught + option ExecutionResult :=
  executeCode_listen listening EmptyString EmptyString events.

(** ** The outside world

    Calls that leave the pipeline and act on a collaborator: the storage
    mirror ([fileSystemService]) and the sandbox ([pythonExecutor]), with
    the arguments they are given. The path and the content of a file come
    from a record or from a skeleton, and are whatever these hold. *)
Inductive Effect : Type :=
| FsCreateProject (projectId : string)
| FsCreateFile (projectId : string) (path content : Stored)
| FsUpdateFile (projectId : string) (path : Stored) (content : string)
| PyExecuteCode (code : string).

(** The state the pipeline runs on: the two maps of [MemStorage] it uses, the
    pending-confirmation map of [ActionProcessor], the collaborator calls
    issued so far (most recent first), and a logical clock counting the
    interactions with the outside world. *)
Record World := mkWorld {
  projects : gmap string Project;
  files : gmap string File;
  pendingConfirmations : gmap string Pending;
  effects : list Effect;
  tick : nat
}.

(** How the outside answers. Every answer may depend on the logical time of
    the call, so any sequence of answers is some [Env].
    - [randomUUID_at], [Date_at]: [crypto.randomUUID()], [new Date()];
    - [JSON_parse]: [JSON.parse], [None] when it throws;
    - [String_of]: the conversion to a string, by the runtime, of a number,
      an array or an object; it throws on an object that cannot be
      converted;
    - [chatWithAI_at], [generateProjectStructure_at], [generateCode_at]: the
      generation oracle of [gemini.ts], which returns or throws. The prompt
      of [parseUserRequest] is a function of the message and the context, so
      the oracle is given these two. A skeleton is what [JSON.parse] made of
      the text of the oracle, whatever that is;
    - [spawn_at]: what the child process spawned by [executeCode] does, or
      the exception of [spawn];
    - [listening_at]: whether the executor has a listener of ['error'] when
      that child first writes on its standard error. Such listeners are
      added by the socket handlers of [routes.ts] and never removed;
    - [mirror_at]: whether a call to the storage mirror throws. *)
Record Env := mkEnv {
  randomUUID_at : nat -> string;
  Date_at : nat -> Z;
  JSON_parse : string -> option JValue;
  String_of : JValue -> Exn + string;
  chatWithAI_at : nat -> string -> option ParseContext -> Exn + string;
  generateProjectStructure_at : nat -> string -> string -> Exn + JValue;
  generateCode_at : nat -> string -> string -> option string -> Exn + string;
  spawn_at : nat -> string -> Exn + list ChildEvent;
  listening_at : nat -> bool;
  mirror_at : nat -> Effect -> option Exn
}.

(** ** Computations: state that survives a thrown exception

    A computation returns, or ends in one of three ways: an exception is
    thrown, which a handler around it catches; an exception leaves a
    listener uncaught, and the process ends with it; or the promise awaited
    is never settled. *)
Inductive Stop : Type :=
| Thrown (e : Exn)
| Crashed (u : Uncaught)
| Unsettled.

Definition M (A : Type) : Type := World -> (Stop + A) * World.

Definition ret {A} (a : A) : M A := fun w => (inr a, w).

Definition throw {A} (e : Exn) : M A := fun w => (inl (Thrown e), w).

Definition bind {A B} (m : M A) (f : A -> M B) : M B :=
  fun w =>
    match m w with
    | (inl e, w') => (inl e, w')
    | (inr a, w') => f a w'
    end.

(** [try { m } catch (error) { h error }]: only what is thrown is caught. *)
Definition try_catch {A} (m : M A) (h : Exn -> M A) : M A :=
  fun w =>
    match m w with
    | (inl (Thrown e), w') => h e w'
    | (r, w') => (r, w')
    end.

(** A value, or the exception thrown instead. *)
Definition thrown {A} (r : Exn + A) : Stop + A :=
  match r with
  | inl e => inl (Thrown e)
  | inr a => inr a
  end.

Definition lift {A} (r : Exn + A) : M A := fun w => (thrown r, w).

Definition get_world : M World := fun w => (inr w, w).

Definition modify_world (f : World -> World) : M unit := fun w => (inr tt, f w).

Declare Scope action_scope.
Delimit Scope action_scope with action.
Notation "'let*' x ':=' m 'in' k" := (bind m (fun x => k))
  (at level 10, x name, m at level 100, k at level 200) : action_scope.
Notation "m ';;;' k" := (bind m (fun _ => k))
  (at level 100, k at level 200, right associativity) : action_scope.

Definition set_projects (f : gmap string Project -> gmap string Project)
  (w : World) : World :=
  mkWorld (f (projects w)) (files w) (pendingConfirmations w) (effects w) (tick w).

Definition set_files (f : gmap string File -> gmap string File)
  (w : World) : World :=
  mkWorld (projects w) (f (files w)) (pendingConfirmations w) (effects w) (tick w).

Definition set_pending (f : gmap string Pending -> gmap string Pending)
  (w : World) : World :=
  mkWorld (projects w) (files w) (f (pendingConfirmations w)) (effects w) (tick w).

(** One more interaction with the outside. *)
Definition next (w : World) : World :=
  mkWorld (projects w) (files w) (pendingConfirmations w) (effects w) (S (tick w)).

(** A collaborator call is issued. *)
Definition record (e : Effect) (w : World) : World :=
  mkWorld (projects w) (files w) (pendingConfirmations w) (e :: effects w) (tick w).

Local Open Scope action_scope.

Definition nl : string := String (Ascii.ascii_of_nat 10) EmptyString.

Section Pipeline.
Variable E : Env.

(** *** Primitive interactions *)

(** [randomUUID()] *)
Definition randomUUID : M string :=
  fun w => (inr (randomUUID_at E (tick w)), next w).

(** [new Date()] *)
Definition newDate : M Z :=
  fun w => (inr (Date_at E (tick w)), next w).

(** A call to the storage mirror: it is issued, and returns or throws. *)
Definition mirror (e : Effect) : M unit :=
  fun w =>
    (match mirror_at E (tick w) e with
     | Some err => inl (Thrown err)
     | None => inr tt
     end, record e (next w)).

(** The conversion of a value to a string, as a template literal does it. *)
Definition toString (v : Stored) : Exn + string :=
  match v with
  | None => inr "undefined"
  | Some JNull => inr "null"
  | Some (JBool b) => inr (if b then "true" else "false")
  | Some (JStr s) => inr s
  | Some x => String_of E x
  end.

(** *** [fileSystemService] (the storage mirror) *)

Definition fileSystemService_createProject (projectId : string) : M unit :=
  mirror (FsCreateProject projectId).

Definition fileSystemService_createFile (projectId : string)
  (filePath content : Stored) : M unit :=
  mirror (FsCreateFile projectId filePath content).

Definition fileSystemService_updateFile (projectId : string)
  (filePath : Stored) (content : string) : M unit :=
  mirror (FsUpdateFile projectId filePath content).

(** *** [pythonExecutor] (the sandbox) *)

(** [pythonExecutor.executeCode]: the child is spawned, and its listeners
    settle the promise. An exception of [spawn] rejects it; an ['error']
    emitted while nothing listens leaves the listener of the child uncaught;
    a child that neither ends nor fails leaves the promise pending. *)
Definition pythonExecutor_executeCode (code : string) : M ExecutionResult :=
  fun w =>
    (match spawn_at E (tick w) code with
     | inl e => inl (Thrown e)
     | inr events =>
         match executeCode_result (listening_at E (tick w)) events with
         | inl u => inl (Crashed u)
         | inr None => inl Unsettled
         | inr (Some result) => inr result
         end
     end, record (PyExecuteCode code) (next w)).

(** *** [gemini.ts] (the generation oracle) *)

Definition chatWithAI (message : string) (context : option ParseContext)
  : M string :=
  fun w => (thrown (chatWithAI_at E (tick w) message context), next w).

(** [generateProjectStructure] returns what [JSON.parse] made of the answer:
    nothing checks that it has the declared type. *)
Definition generateProjectStructure (projectType description : string)
  : M JValue :=
  fun w =>
    (thrown (generateProjectStructure_at E (tick w) projectType description),
     next w).

Definition generateCode (prompt language : string) (context : option string)
  : M string :=
  fun w => (thrown (generateCode_at E (tick w) prompt language context), next w).

(** *** [MemStorage] ([server/storage.ts]) *)

Definition storage_createProject (insertProject : InsertProject) : M Project :=
  let* id := randomUUID in
  let* createdAt := newDate in
  let* updatedAt := newDate in
  let project :=
    mkProject id (ins_project_name insertProject)
      (ins_project_type insertProject)
      (ins_project_description insertProject)
      (ins_project_files insertProject) createdAt updatedAt in
  modify_world (set_projects (insert id project));;;
  ret project.

Definition storage_getFile (id : string) : M (option File) :=
  fun w => (inr (files w !! id), w).

Definition storage_createFile (insertFile : InsertFile) : M File :=
  let* id := randomUUID in
  let* createdAt := newDate in
  let* updatedAt := newDate in
  let file :=
    mkFile id (ins_projectId insertFile) (ins_path insertFile)
      (ins_name insertFile) (ins_content insertFile) (ins_type insertFile)
      (ins_isModified insertFile) createdAt updatedAt in
  modify_world (set_files (insert id file));;;
  ret file.

(** [{ ...file, ...fileUpdate, updatedAt }] *)
Definition spreadFile (file : File) (fileUpdate : PartialFile) (updatedAt : Z)
  : File :=
  mkFile (default (file_id file) (upd_id fileUpdate))
    (default (file_projectId file) (upd_projectId fileUpdate))
    (default (file_path file) (upd_path fileUpdate))
    (default (file_name file) (upd_name fileUpdate))
    (default (file_content file) (upd_content fileUpdate))
    (default (file_type file) (upd_type fileUpdate))
    (default (file_isModified file) (upd_isModified fileUpdate))
    (default (file_createdAt file) (upd_createdAt fileUpdate))
    updatedAt.

Definition storage_updateFile (id : string) (fileUpdate : PartialFile)
  : M (option File) :=
  let* w := get_world in
  match files w !! id with
  | None => ret None
  | Some file =>
      let* now := newDate in
      let updatedFile := spreadFile file fileUpdate now in
      modify_world (set_files (insert id updatedFile));;;
      ret (Some updatedFile)
  end.

(** [Map.prototype.delete] returns whether the key was present. *)
Definition storage_deleteFile (id : string) : M bool :=
  let* w := get_world in
  modify_world (set_files (delete id));;;
  ret (bool_decide (is_Some (files w !! id))).

(** *** The handlers of [ActionProcessor] *)

(** [a || b] where [a] may be [undefined]. *)
Definition or_undefined (a : option string) (b : string) : string :=
  match a with
  | Some s => or_string s b
  | None => b
  end.

(** The insert [createProject] makes for a generated file. The four
    properties are read from the entry of the skeleton, the name first:
    the read throws when the entry is [null]. *)
Definition projectFile (project : Project) (fileData : JValue)
  : Exn + InsertFile :=
  match readProp fileData "name" with
  | inl e => inl e
  | inr name =>
      inr (mkInsertFile (project_id project) name (getProp fileData "path")
             (getProp fileData "content") (getProp fileData "type") false)
  end.

(** The loop of [createProject] over the generated files: a record for the
    file, then its mirror. *)
Fixpoint createProject_files (project : Project) (fileDatas : list JValue)
  (createdFiles : list File) : M (list File) :=
  match fileDatas with
  | [] => ret createdFiles
  | fileData :: rest =>
      let* insertFile := lift (projectFile project fileData) in
      let* file := storage_createFile insertFile in
      fileSystemService_createFile (project_id project)
        (getProp fileData "path") (getProp fileData "content");;;
      createProject_files project rest (createdFiles ++ [file])
  end.

Definition createProject (name : string) (projectType : ProjectType)
  (description : option string) : M ActionResponseType :=
  try_catch
    (let* projectStructure :=
       generateProjectStructure (ProjectType_to_string projectType)
         (or_undefined description name) in
     let* project := storage_createProject
       (mkInsertProject name (ProjectType_to_string projectType)
          (Some (or_undefined description
                   ("Proyecto " +:+ ProjectType_to_string projectType
                      +:+ " creado con IA")))
          []) in
     fileSystemService_createProject (project_id project);;;
     let* fileDatas := lift (skeletonFiles "projectStructure" projectStructure) in
     let* createdFiles := createProject_files project fileDatas [] in
     ret (dataResponse true
            ("Proyecto " +:+ dquote +:+ name +:+ dquote
               +:+ " creado exitosamente con "
               +:+ pretty (length createdFiles) +:+ " archivos.")
            (DataProject project createdFiles)))
    (fun error =>
       ret (plainResponse false
              ("Error creando el proyecto: " +:+ errMessage error))).

Definition addFile (projectId name content path : string) (fileType : FileType)
  : M ActionResponseType :=
  try_catch
    (let* file := storage_createFile
       (mkInsertFile projectId name path content
          (FileType_to_string fileType) false) in
     fileSystemService_createFile projectId path content;;;
     ret (dataResponse true
            ("Archivo " +:+ dquote +:+ name +:+ dquote
               +:+ " agregado exitosamente.")
            (DataFile file)))
    (fun error =>
       ret (plainResponse false
              ("Error agregando el archivo: " +:+ errMessage error))).

(** The [updates] object [updateFile] builds: a property per field the
    action has, and [isModified: true]. *)
Definition updateFile_updates (content path name : option string)
  : PartialFile :=
  mkPartialFile None None (str <$> path) (str <$> name) (str <$> content) None
    (Some true) None None.

Definition updateFile (fileId : string) (content path name : option string)
  : M ActionResponseType :=
  try_catch
    (let updates := updateFile_updates content path name in
     let* file := storage_updateFile fileId updates in
     match file with
     | None => ret (plainResponse false "Archivo no encontrado.")
     | Some file =>
         match content with
         | Some c =>
             fileSystemService_updateFile (file_projectId file)
               (file_path file) c
         | None => ret tt
         end;;;
         let* name := lift (toString (file_name file)) in
         ret (dataResponse true
                ("Archivo " +:+ dquote +:+ name +:+ dquote
                   +:+ " actualizado exitosamente.")
                (DataFile file))
     end)
    (fun error =>
       ret (plainResponse false
              ("Error actualizando el archivo: " +:+ errMessage error))).

(** The mirror call of [deleteFile] is commented out in the source: only
    the record is deleted. *)
Definition deleteFile (fileId : string) : M ActionResponseType :=
  try_catch
    (let* file := storage_getFile fileId in
     match file with
     | None => ret (plainResponse false "Archivo no encontrado.")
     | Some file =>
         let* deleted := storage_deleteFile fileId in
         if negb deleted
         then ret (plainResponse false "No se pudo eliminar el archivo.")
         else
           let* name := lift (toString (file_name file)) in
           ret (plainResponse true
                  ("Archivo " +:+ dquote +:+ name +:+ dquote
                     +:+ " eliminado exitosamente."))
     end)
    (fun error =>
       ret (plainResponse false
              ("Error eliminando el archivo: " +:+ errMessage error))).

Definition createWebPage_prompt (pageName : string) (pageType : PageType)
  (style : option Style) (features : option (list string)) : string :=
  "Create a " +:+ PageType_to_string pageType +:+ " page named " +:+ dquote
    +:+ pageName +:+ dquote +:+ " for a web project." +:+ nl
    +:+ "      Style: "
    +:+ or_undefined (Style_to_string <$> style) "modern" +:+ nl
    +:+ "      Features: "
    +:+ or_undefined (join ", " <$> features) "standard features" +:+ nl
    +:+ "      " +:+ nl
    +:+ "      Generate complete HTML, CSS, and JavaScript files for this page."
    +:+ nl
    +:+ "      Make it responsive and modern.".

(** The insert [createWebPage] makes for a generated file. The name of the
    entry is read, which throws when the entry is [null], and converted to
    a string for the name and for the path of the record; the content and
    the type are stored as read. *)
Definition pageFile (projectId pageName : string) (fileData : JValue)
  : Exn + InsertFile :=
  match readProp fileData "name" with
  | inl e => inl e
  | inr name =>
      match toString name with
      | inl e => inl e
      | inr name =>
          inr (mkInsertFile projectId (pageName +:+ "-" +:+ name)
                 ("/pages/" +:+ pageName +:+ "/" +:+ name)
                 (getProp fileData "content") (getProp fileData "type") false)
      end
  end.

(** The loop of [createWebPage]: records only, no mirror. *)
Fixpoint createWebPage_files (projectId pageName : string)
  (fileDatas : list JValue) (createdFiles : list File) : M (list File) :=
  match fileDatas with
  | [] => ret createdFiles
  | fileData :: rest =>
      let* insertFile := lift (pageFile projectId pageName fileData) in
      let* file := storage_createFile insertFile in
      createWebPage_files projectId pageName rest (createdFiles ++ [file])
  end.

Definition createWebPage (projectId pageName : string) (pageType : PageType)
  (style : option Style) (features : option (list string))
  : M ActionResponseType :=
  try_catch
    (let prompt := createWebPage_prompt pageName pageType style features in
     let* pageStructure := generateProjectStructure "web" prompt in
     let* fileDatas := lift (skeletonFiles "pageStructure" pageStructure) in
     let* createdFiles := createWebPage_files projectId pageName fileDatas [] in
     ret (dataResponse true
            ("Página " +:+ dquote +:+ pageName +:+ dquote
               +:+ " creada exitosamente con "
               +:+ pretty (length createdFiles) +:+ " archivos.")
            (DataFiles createdFiles)))
    (fun error =>
       ret (plainResponse false
              ("Error creando la página: " +:+ errMessage error))).

(** [modifyApk]: a token is drawn, the action is stored under it (without
    a user), and a confirmation is asked for. *)
Definition modifyApk (projectId : string) (action : ApkAction)
  (parameters : list (string * JValue)) : M ActionResponseType :=
  try_catch
    (let* actionId := randomUUID in
     modify_world
       (set_pending
          (insert actionId
             (mkPending (ModifyApkAction projectId action parameters) None)));;;
     ret (mkActionResponse false
            "La modificación de APK es una operación compleja."
            None (Some true)
            (Some ("¿Estás seguro de que quieres "
                     +:+ ApkAction_to_string action
                     +:+ " en tu APK? Esta operación puede afectar la funcionalidad de la aplicación."))
            (Some actionId)))
    (fun error =>
       ret (plainResponse false
              ("Error modificando APK: " +:+ errMessage error))).

Definition runPython (code : string) : M ActionResponseType :=
  try_catch
    (let* result := pythonExecutor_executeCode code in
     ret (dataResponse (exec_success result)
            (if exec_success result
             then "Código Python ejecutado exitosamente."
             else "Error ejecutando código Python.")
            (DataExecution result)))
    (fun error =>
       ret (plainResponse false
              ("Error ejecutando Python: " +:+ errMessage error))).

Definition generateCodeSnippet (language description : string)
  (context : option string) : M ActionResponseType :=
  try_catch
    (let* code := generateCode description language context in
     ret (dataResponse true
            ("Código " +:+ language +:+ " generado exitosamente.")
            (DataCode code language)))
    (fun error =>
       ret (plainResponse false
              ("Error generando código: " +:+ errMessage error))).

(** [executeAction]: the switch on the discriminant. The type is closed,
    so the [default] branch has no case here. *)
Definition executeAction (action : ChatActionType) (userId : option string)
  : M ActionResponseType :=
  try_catch
    (match action with
     | CreateProjectAction name projectType description _ =>
         createProject name projectType description
     | AddFileAction projectId name content path fileType =>
         addFile projectId name content path fileType
     | UpdateFileAction fileId content path name =>
         updateFile fileId content path name
     | DeleteFileAction fileId => deleteFile fileId
     | CreateWebPageAction projectId pageName pageType style features =>
         createWebPage projectId pageName pageType style features
     | ModifyApkAction projectId act parameters =>
         modifyApk projectId act parameters
     | RunPythonAction code _ => runPython code
     | GenerateCodeSnippetAction language description context =>
         generateCodeSnippet language description context
     end)
    (fun error =>
       ret (plainResponse false
              ("Error ejecutando la acción: " +:+ errMessage error))).

(** [confirmAction]: look the token up, delete it, then cancel or run the
    stored action. *)
Definition confirmAction (actionId : string) (confirmed : bool)
  : M ActionResponseType :=
  let* w := get_world in
  match pendingConfirmations w !! actionId with
  | None => ret (plainResponse false "Acción no encontrada o ya procesada.")
  | Some pending =>
      modify_world (set_pending (delete actionId));;;
      if negb confirmed
      then ret (plainResponse false "Acción cancelada por el usuario.")
      else executeAction (pending_action pending) (pending_userId pending)
  end.

(** *** The Intent Parser *)

(** [context?.projectId] *)
Definition context_projectId (context : option ParseContext) : option string :=
  match context with
  | Some c => ctx_projectId c
  | None => None
  end.

(** [action.projectId === "current"] on the value read. *)
Definition is_current (v : option JValue) : bool :=
  match v with
  | Some (JStr s) => String.eqb s "current"
  | _ => false
  end.

(** The first statement of the loop body: the placeholder is replaced by
    the project of the context, when the context has a truthy one. Reading
    [action.projectId] throws when the candidate is [null]. *)
Definition substituteCurrent (context : option ParseContext) (action : JValue)
  : Exn + JValue :=
  match readProp action "projectId" with
  | inl e => inl e
  | inr pid =>
      match context_projectId context with
      | Some p =>
          if is_current pid && truthy_string p
          then match action with
               | JObj o => inr (JObj (setProp "projectId" (JStr p) o))
               | _ => inr action
               end
          else inr action
      | None => inr action
      end
  end.

(** The loop over the candidates: substitution, then validation inside
    its own [try]; a candidate that fails validation is logged and
    skipped. *)
Fixpoint validateActions (context : option ParseContext)
  (candidates : list JValue) (validatedActions : list ChatActionType)
  : Exn + list ChatActionType :=
  match candidates with
  | [] => inr validatedActions
  | action :: rest =>
      match substituteCurrent context action with
      | inl e => inl e
      | inr action' =>
          match ChatAction_parse action' with
          | Some validatedAction =>
              validateActions context rest
                (validatedActions ++ [validatedAction])
          | None => validateActions context rest validatedActions
          end
      end
  end.

(** [Array.isArray(parsed) ? parsed : [parsed]] *)
Definition asArray (parsed : JValue) : list JValue :=
  match parsed with
  | JArr l => l
  | _ => [parsed]
  end.

(** The body of the inner [try]: decode, pass a clarification request
    through, else validate the candidates. The message of the
    [SyntaxError] is never read. *)
Definition interpretResult (context : option ParseContext) (result : string)
  : Exn + ParseResult :=
  match JSON_parse E result with
  | None => inl (Error "SyntaxError")
  | Some parsed =>
      match readProp parsed "needsMoreInfo" with
      | inl e => inl e
      | inr flag =>
          if truthy flag
          then inr (mkParseResult [] true (getProp parsed "clarificationMessage"))
          else
            match validateActions context (asArray parsed) [] with
            | inl e => inl e
            | inr validatedActions =>
                inr (mkParseResult validatedActions false None)
            end
      end
  end.

Definition parseUserRequest (message : string) (context : option ParseContext)
  : M ParseResult :=
  try_catch
    (let* result := chatWithAI message context in
     try_catch
       (lift (interpretResult context result))
       (fun parseError =>
          ret (mkParseResult [] true
                 (Some (JStr "No pude entender tu solicitud. ¿Podrías ser más específico sobre lo que quieres hacer?")))))
    (fun error =>
       ret (mkParseResult [] true
              (Some (JStr "Hubo un error procesando tu solicitud. ¿Podrías intentar de nuevo?")))).

(** *** Requests to the processor, and runs *)

(** A call of one of the three public entry points. *)
Inductive Request : Type :=
| ParseUserRequest (message : string) (context : option ParseContext)
| ExecuteAction (action : ChatActionType) (userId : option string)
| ConfirmAction (actionId : string) (confirmed : bool).

Inductive Response : Type :=
| Parsed (r : Stop + ParseResult)
| Outcome (r : Stop + ActionResponseType).

(** The process ended while the request was served. *)
Definition crashed (r : Response) : bool :=
  match r with
  | Parsed (inl (Crashed _)) | Outcome (inl (Crashed _)) => true
  | _ => false
  end.

Definition serve (r : Request) (w : World) : Response * World :=
  match r with
  | ParseUserRequest message context =>
      let (x, w') := parseUserRequest message context w in (Parsed x, w')
  | ExecuteAction action userId =>
      let (x, w') := executeAction action userId w in (Outcome x, w')
  | ConfirmAction actionId confirmed =>
      let (x, w') := confirmAction actionId confirmed w in (Outcome x, w')
  end.

(** The world after a sequence of requests, served one after the other.
    A process that has ended serves nothing more: the world stays the one
    the process ended in. *)
Fixpoint run (rs : list Request) (w : World) : World :=
  match rs with
  | [] => w
  | r :: rest =>
      if crashed (fst (serve r w)) then snd (serve r w)
      else run rest (snd (serve r w))
  end.

End Pipeline.

(** * The vocabulary of the properties *)

(** ** Frames, returns, and the pending map left alone

    [keeps R m]: from every world, [m] ends in a world related to it by [R],
    however it ends. [returns m]: [m] always returns. [catchable m]: when
    [m] does not return, an exception was thrown, which a handler catches. *)

Definition keeps {A} (R : World -> World -> Prop) (m : M A) : Prop :=
  forall w, R w (snd (m w)).

Definition returns {A} (m : M A) : Prop :=
  forall w, exists a, fst (m w) = inr a.

Definition catchable {A} (m : M A) : Prop :=
  forall w, match fst (m w) with
            | inl (Crashed _) | inl Unsettled => False
            | _ => True
            end.

(** The pending map is the same and time has not gone back. *)
Definition same_pending (w w' : World) : Prop :=
  pendingConfirmations w' = pendingConfirmations w /\ tick w <= tick w'.

Definition is_modify_apk (a : ChatActionType) : Prop :=
  match a with
  | ModifyApkAction _ _ _ => True
  | _ => False
  end.

Definition is_modify_apk_dec (a : ChatActionType) : Decision (is_modify_apk a) :=
  match a with
  | ModifyApkAction _ _ _ => left I
  | _ => right (fun H : False => H)
  end.

#[global] Existing Instance is_modify_apk_dec.

(** ** The gate, the worlds the processor can be in, and the records the
    store creates *)

Section Vocabulary.
Variable E : Env.

(** The token was drawn from [randomUUID] at an earlier time. *)
Definition issued (w : World) (k : string) : Prop :=
  exists i, i < tick w /\ k = randomUUID_at E i.

(** The invariant of the gate: every pending token was drawn from
    [randomUUID], and every pending action is a [modify_apk]. *)
Definition gate_inv (w : World) : Prop :=
  forall k p, pendingConfirmations w !! k = Some p ->
    issued w k /\ is_modify_apk (pending_action p).

(** A world the processor can be in: it was created with an empty pending
    map, on some store; since then it served requests, and the rest of the
    server did whatever leaves the pending map alone and does not turn the
    clock back. *)
Inductive reachable : World -> Prop :=
| reachable_new w :
    pendingConfirmations w = ∅ -> reachable w
| reachable_serve r w :
    reachable w -> reachable (snd (serve E r w))
| reachable_elsewhere w w' :
    reachable w -> same_pending w w' -> reachable w'.

(** [storage.createFile]: a token, two readings of the clock, the record. *)
Definition createdFile (ins : InsertFile) (t : nat) : File :=
  mkFile (randomUUID_at E t) (ins_projectId ins) (ins_path ins) (ins_name ins)
    (ins_content ins) (ins_type ins) (ins_isModified ins)
    (Date_at E (S t)) (Date_at E (S (S t))).

(** The world after [storage.createFile] has stored the record of an
    insert. *)
Definition stored (ins : InsertFile) (w : World) : World :=
  set_files (insert (randomUUID_at E (tick w)) (createdFile ins (tick w)))
    (next (next (next w))).

(** The record [createProject] stores, drawn at time [t]. *)
Definition createdProject (name : string) (projectType : ProjectType)
  (description : option string) (t : nat) : Project :=
  mkProject (randomUUID_at E t) name (ProjectType_to_string projectType)
    (Some (or_undefined description
             ("Proyecto " +:+ ProjectType_to_string projectType
                +:+ " creado con IA")))
    [] (Date_at E (S t)) (Date_at E (S (S t))).

(** *** The loop of [createProject], turn by turn *)

(** What [createProject] stores and mirrors for an entry of the skeleton
    that is not [null]: the four properties as they are read. *)
Definition entryFile (project : Project) (fileData : JValue) : InsertFile :=
  mkInsertFile (project_id project) (getProp fileData "name")
    (getProp fileData "path") (getProp fileData "content")
    (getProp fileData "type") false.

Definition entryCall (project : Project) (fileData : JValue) : Effect :=
  FsCreateFile (project_id project) (getProp fileData "path")
    (getProp fileData "content").

(** The world after one turn whose mirror call was issued: the record of
    the entry is stored and the call is on the log. *)
Definition afterFile (project : Project) (w : World) (fileData : JValue)
  : World :=
  record (entryCall project fileData)
    (next (stored (entryFile project fileData) w)).

Definition afterFiles (project : Project) (fileDatas : list JValue)
  (w : World) : World :=
  foldl (afterFile project) w fileDatas.

(** The turns for these entries went through: none of the entries is
    [null], and none of the mirror calls threw. *)
Fixpoint filesMirrored (project : Project) (fileDatas : list JValue)
  (w : World) : Prop :=
  match fileDatas with
  | [] => True
  | fileData :: rest =>
      fileData <> JNull
      /\ mirror_at E (3 + tick w) (entryCall project fileData) = None
      /\ filesMirrored project rest (afterFile project w fileData)
  end.

(** The records of these turns, in order. *)
Fixpoint recordsFrom (project : Project) (fileDatas : list JValue)
  (w : World) : list File :=
  match fileDatas with
  | [] => []
  | fileData :: rest =>
      createdFile (entryFile project fileData) (tick w)
        :: recordsFrom project rest (afterFile project w fileData)
  end.

(** *** The loop of [createWebPage], turn by turn *)

(** The world after one turn: the record of the insert is stored. A turn
    whose insert cannot be made stores nothing. *)
Definition afterPage (projectId pageName : string) (w : World)
  (fileData : JValue) : World :=
  match pageFile E projectId pageName fileData with
  | inr ins => stored ins w
  | inl _ => w
  end.

(** The insert of the turn can be made: the entry is not [null] and its
    name can be converted to a string. *)
Definition pageMade (projectId pageName : string) (fileData : JValue)
  : Prop :=
  exists ins, pageFile E projectId pageName fileData = inr ins.

Definition afterPages (projectId pageName : string)
  (fileDatas : list JValue) (w : World) : World :=
  foldl (afterPage projectId pageName) w fileDatas.

(** The records of these turns, in order. *)
Fixpoint pagesFrom (projectId pageName : string) (fileDatas : list JValue)
  (w : World) : list File :=
  match fileDatas with
  | [] => []
  | fileData :: rest =>
      match pageFile E projectId pageName fileData with
      | inr ins =>
          createdFile ins (tick w)
            :: pagesFrom projectId pageName rest (stored ins w)
      | inl _ => []
      end
  end.

End Vocabulary.

Definition createProject_failed (e : Exn) : ActionResponseType :=
  plainResponse false ("Error creando el proyecto: " +:+ errMessage e).

(** ** Outcomes and results the handlers return *)

Definition notFound : ActionResponseType :=
  plainResponse false "Acción no encontrada o ya procesada.".

Definition cancelled : ActionResponseType :=
  plainResponse false "Acción cancelada por el usuario.".

(** The two results the handlers of [parseUserRequest] return. *)
Definition couldNotUnderstand : ParseResult :=
  mkParseResult [] true
    (Some (JStr "No pude entender tu solicitud. ¿Podrías ser más específico sobre lo que quieres hacer?")).

Definition requestFailed : ParseResult :=
  mkParseResult [] true
    (Some (JStr "Hubo un error procesando tu solicitud. ¿Podrías intentar de nuevo?")).

(** The fallback shape: no action, more information needed, and a non-empty
    clarification message. *)
Definition is_fallback (r : ParseResult) : Prop :=
  actions r = [] /\ needsMoreInfo r = true
  /\ exists m, clarificationMessage r = Some (JStr m) /\ m <> EmptyString.

(** The oracle gave nothing to decode: the call threw, or its text is not
    JSON. *)
Definition oracle_unusable (E : Env) (message : string)
  (context : option ParseContext) (w : World) : Prop :=
  match chatWithAI_at E (tick w) message context with
  | inl _ => True
  | inr text => JSON_parse E text = None
  end.

(** The invariant of a [ParseResult]. *)
Definition well_formed (r : ParseResult) : Prop :=
  needsMoreInfo r = true -> actions r = [].


(** What one candidate contributes to the validated list, when reading it
    does not throw. *)
Definition validateCandidate (context : option ParseContext) (c : JValue)
  : option ChatActionType :=
  match substituteCurrent context c with
  | inl _ => None
  | inr c' => ChatAction_parse c'
  end.

(** ** A concrete outside world, for running the pipeline on examples *)

Definition demo_uuid (n : nat) : string := "uuid-" +:+ pretty n.

(** The store and the gate of a processor that has served nothing. *)
Definition emptyWorld : World := mkWorld ∅ ∅ ∅ [] 0.

(** Two entries of a skeleton, and a skeleton that has them. *)
Definition indexHtml : JValue :=
  JObj [("path", JStr "/index.html"); ("name", JStr "index.html");
        ("content", JStr "<h1>hola</h1>"); ("type", JStr "html")].

Definition stylesCss : JValue :=
  JObj [("path", JStr "/styles.css"); ("name", JStr "styles.css");
        ("content", JStr "h1 { color: #333; }"); ("type", JStr "css")].

Definition twoFiles : JValue :=
  JObj [("files", JArr [indexHtml; stylesCss]); ("description", JStr "sitio")].

(** A string between double quotes, as in a JSON text. *)
Definition quoted (s : string) : string := dquote +:+ s +:+ dquote.

(** Three answers of the oracle and their decodings: a valid [run_python]
    followed by [null]; a valid [run_python] followed by a [delete_file]
    without its [fileId]; the contact page of the parser's own prompt. *)
Definition runPythonText : string :=
  "{" +:+ quoted "type" +:+ ":" +:+ quoted "run_python" +:+ ","
    +:+ quoted "code" +:+ ":" +:+ quoted "print(1)" +:+ "}".

Definition runPythonCandidate : JValue :=
  JObj [("type", JStr "run_python"); ("code", JStr "print(1)")].

Definition nullBatchText : string := "[" +:+ runPythonText +:+ ",null]".

Definition nullBatch : JValue := JArr [runPythonCandidate; JNull].

Definition mixedBatchText : string :=
  "[" +:+ runPythonText +:+ ",{" +:+ quoted "type" +:+ ":"
    +:+ quoted "delete_file" +:+ "}]".

Definition mixedBatch : JValue :=
  JArr [runPythonCandidate; JObj [("type", JStr "delete_file")]].

Definition contactText : string :=
  "[{" +:+ quoted "type" +:+ ":" +:+ quoted "create_web_page" +:+ ","
    +:+ quoted "projectId" +:+ ":" +:+ quoted "current" +:+ ","
    +:+ quoted "pageName" +:+ ":" +:+ quoted "contacto" +:+ ","
    +:+ quoted "pageType" +:+ ":" +:+ quoted "contact" +:+ "}]".

Definition contactCandidate : JValue :=
  JObj [("type", JStr "create_web_page"); ("projectId", JStr "current");
        ("pageName", JStr "contacto"); ("pageType", JStr "contact")].

Definition demo_JSON_parse (text : string) : option JValue :=
  if String.eqb text nullBatchText then Some nullBatch
  else if String.eqb text mixedBatchText then Some mixedBatch
  else if String.eqb text contactText then Some (JArr [contactCandidate])
  else None.

Definition demo_chatWithAI (message : string) : string :=
  if String.eqb message "Ejecuta print(1) y nada más" then nullBatchText
  else if String.eqb message "Ejecuta print(1) y borra el archivo"
       then mixedBatchText
  else if String.eqb message "Agrega una página de contacto" then contactText
  else "Claro, dime.".

(** Tokens are numbered, the clock counts, an object that is converted to a
    string is a plain one, the oracle answers three requests with the texts
    above and any other with prose, its skeletons have two files, the
    mirror always succeeds, and the child of the sandbox prints [1] and
    ends with code 0 while something listens to ['error']. *)
Definition demoEnv : Env :=
  mkEnv demo_uuid Z.of_nat demo_JSON_parse
    (fun _ => inr "[object Object]")
    (fun _ message _ => inr (demo_chatWithAI message))
    (fun _ _ _ => inr twoFiles)
    (fun _ _ _ _ => inr "print(1)")
    (fun _ _ => inr [Stdout "1"; Close (Some 0%Z)])
    (fun _ => true)
    (fun _ _ => None).

(** An outside world that differs from another by one of its answers. *)
Definition with_JSON_parse (f : string -> option JValue) (E : Env) : Env :=
  mkEnv (randomUUID_at E) (Date_at E) f (String_of E) (chatWithAI_at E)
    (generateProjectStructure_at E) (generateCode_at E) (spawn_at E)
    (listening_at E) (mirror_at E).

Definition with_skeleton (f : nat -> string -> string -> Exn + JValue)
  (E : Env) : Env :=
  mkEnv (randomUUID_at E) (Date_at E) (JSON_parse E) (String_of E)
    (chatWithAI_at E) f (generateCode_at E) (spawn_at E) (listening_at E)
    (mirror_at E).

Definition with_mirror (f : nat -> Effect -> option Exn) (E : Env) : Env :=
  mkEnv (randomUUID_at E) (Date_at E) (JSON_parse E) (String_of E)
    (chatWithAI_at E) (generateProjectStructure_at E) (generateCode_at E)
    (spawn_at E) (listening_at E) f.

Definition with_sandbox (f : nat -> string -> Exn + list ChildEvent)
  (listening : nat -> bool) (E : Env) : Env :=
  mkEnv (randomUUID_at E) (Date_at E) (JSON_parse E) (String_of E)
    (chatWithAI_at E) (generateProjectStructure_at E) (generateCode_at E)
    f listening (mirror_at E).

(** A context whose project is the empty string. *)
Definition emptyProjectContext : option ParseContext :=
  Some (mkParseContext (Some EmptyString) None None).

Definition demoApk : ChatActionType :=
  ModifyApkAction "proj-1" change_theme [("theme", JStr "dark")].

(** The world after one [modify_apk] request: one pending confirmation,
    under the token ["uuid-0"]. *)
Definition onePending : World :=
  run demoEnv [ExecuteAction demoApk None] emptyWorld.

(** More outside worlds: one whose oracle has no skeleton to give; one
    whose mirror throws at time 12, that is on the second file of a project
    created in an empty world; one whose oracle answers with an empty
    object; one whose skeleton has a [null] after its first file. *)
Definition silentOracleEnv : Env :=
  with_skeleton
    (fun _ _ _ =>
       inl (Error "Failed to generate project structure: Error: Failed to generate project structure"))
    demoEnv.

Definition fullDiskEnv : Env :=
  with_mirror
    (fun t _ =>
       if Nat.eqb t 12
       then Some (Error "ENOSPC: no space left on device, write")
       else None)
    demoEnv.

Definition emptyObjectEnv : Env :=
  with_skeleton (fun _ _ _ => inr (JObj [])) demoEnv.

Definition nullEntryEnv : Env :=
  with_skeleton
    (fun _ _ _ => inr (JObj [("files", JArr [indexHtml; JNull; stylesCss])]))
    demoEnv.

(** Two more: the child of the sandbox writes a traceback on its standard
    error and ends with code 1, while nothing listens to ['error'], and
    while something does. *)
Definition tracebackEvents : list ChildEvent :=
  [Stdout "inicio"; Stderr "ZeroDivisionError"; Close (Some 1%Z)].

Definition unheardEnv : Env :=
  with_sandbox (fun _ _ => inr tracebackEvents) (fun _ => false) demoEnv.

Definition heardEnv : Env :=
  with_sandbox (fun _ _ => inr tracebackEvents) (fun _ => true) demoEnv.

Definition demoProject : ChatActionType :=
  CreateProjectAction "mi-sitio" web None (Some basic_website).

(** The world after one [add_file] request: one file record, ["uuid-0"]. *)
Definition oneFile : World :=
  run demoEnv
    [ExecuteAction
       (AddFileAction "sample-web-project" "main.py" "print(1)" "/main.py" py)
       None]
    emptyWorld.

Definition mainPy : File :=
  mkFile "uuid-0" "sample-web-project" "/main.py" "main.py" "print(1)" "py"
    false 1 2.

(** * More of the code

    The objects validated actions are, the deletion of a project in
    [MemStorage], the interactive session of [PythonExecutor], and the
    vocabulary of their properties. *)

(** ** The Action Schema: the objects validated actions are *)

Definition Template_to_string (t : Template) : string :=
  match t with
  | blank => "blank" | basic_website => "basic_website"
  | react_app => "react_app" | android_app => "android_app"
  end.

(** The discriminant of a validated action. *)
Definition actionType (a : ChatActionType) : string :=
  match a with
  | CreateProjectAction _ _ _ _ => "create_project"
  | AddFileAction _ _ _ _ _ => "add_file"
  | UpdateFileAction _ _ _ _ => "update_file"
  | DeleteFileAction _ => "delete_file"
  | CreateWebPageAction _ _ _ _ _ => "create_web_page"
  | ModifyApkAction _ _ _ => "modify_apk"
  | RunPythonAction _ _ => "run_python"
  | GenerateCodeSnippetAction _ _ _ => "generate_code_snippet"
  end.

(** A property that is there only when its value is defined. *)
Definition optProp (k : string) (v : option JValue) : list (string * JValue) :=
  match v with
  | Some x => [(k, x)]
  | None => []
  end.

(** The object a validated action is: the discriminant and the properties
    of its variant, an optional property being absent when undefined. *)
Definition toJSON (a : ChatActionType) : JValue :=
  match a with
  | CreateProjectAction name projectType description template =>
      JObj ([("type", JStr "create_project"); ("name", JStr name);
             ("projectType", JStr (ProjectType_to_string projectType))]
              ++ optProp "description" (JStr <$> description)
              ++ optProp "template"
                   ((fun t => JStr (Template_to_string t)) <$> template))
  | AddFileAction projectId name content path fileType =>
      JObj [("type", JStr "add_file"); ("projectId", JStr projectId);
            ("name", JStr name); ("content", JStr content);
            ("path", JStr path);
            ("fileType", JStr (FileType_to_string fileType))]
  | UpdateFileAction fileId content path name =>
      JObj ([("type", JStr "update_file"); ("fileId", JStr fileId)]
              ++ optProp "content" (JStr <$> content)
              ++ optProp "path" (JStr <$> path)
              ++ optProp "name" (JStr <$> name))
  | DeleteFileAction fileId =>
      JObj [("type", JStr "delete_file"); ("fileId", JStr fileId)]
  | CreateWebPageAction projectId pageName pageType style features =>
      JObj ([("type", JStr "create_web_page"); ("projectId", JStr projectId);
             ("pageName", JStr pageName);
             ("pageType", JStr (PageType_to_string pageType))]
              ++ optProp "style"
                   ((fun s => JStr (Style_to_string s)) <$> style)
              ++ optProp "features"
                   ((fun l => JArr (JStr <$> l)) <$> features))
  | ModifyApkAction projectId action parameters =>
      JObj [("type", JStr "modify_apk"); ("projectId", JStr projectId);
            ("action", JStr (ApkAction_to_string action));
            ("parameters", JObj parameters)]
  | RunPythonAction code description =>
      JObj ([("type", JStr "run_python"); ("code", JStr code)]
              ++ optProp "description" (JStr <$> description))
  | GenerateCodeSnippetAction language description context =>
      JObj ([("type", JStr "generate_code_snippet");
             ("language", JStr language); ("description", JStr description)]
              ++ optProp "context" (JStr <$> context))
  end.

(** The [min(1)] constraints of the schema, on a validated action. *)
Definition requiredNonEmpty (a : ChatActionType) : Prop :=
  match a with
  | CreateProjectAction name _ _ _ => name <> EmptyString
  | AddFileAction _ name _ _ _ => name <> EmptyString
  | CreateWebPageAction _ pageName _ _ _ => pageName <> EmptyString
  | RunPythonAction code _ => code <> EmptyString
  | GenerateCodeSnippetAction _ description _ => description <> EmptyString
  | UpdateFileAction _ _ _ _ | DeleteFileAction _ | ModifyApkAction _ _ _ => True
  end.

(** The shape validation gives to an action: the required names are
    non-empty, and the parameters of a [modify_apk] have no property named
    [__proto__]. *)
Definition validatedShape (a : ChatActionType) : Prop :=
  match a with
  | CreateProjectAction name _ _ _ => name <> EmptyString
  | AddFileAction _ name _ _ _ => name <> EmptyString
  | CreateWebPageAction _ pageName _ _ _ => pageName <> EmptyString
  | RunPythonAction code _ => code <> EmptyString
  | GenerateCodeSnippetAction _ description _ => description <> EmptyString
  | ModifyApkAction _ _ parameters =>
      Forall (fun kv : string * JValue => kv.1 <> "__proto__") parameters
  | UpdateFileAction _ _ _ _ | DeleteFileAction _ => True
  end.

(** The keys the object schema of a discriminant declares, [type] apart. *)
Definition variantKeys (t : string) : list string :=
  if String.eqb t "create_project"
  then ["name"; "projectType"; "description"; "template"]
  else if String.eqb t "add_file"
  then ["projectId"; "name"; "content"; "path"; "fileType"]
  else if String.eqb t "update_file" then ["fileId"; "content"; "path"; "name"]
  else if String.eqb t "delete_file" then ["fileId"]
  else if String.eqb t "create_web_page"
  then ["projectId"; "pageName"; "pageType"; "style"; "features"]
  else if String.eqb t "modify_apk" then ["projectId"; "action"; "parameters"]
  else if String.eqb t "run_python" then ["code"; "description"]
  else if String.eqb t "generate_code_snippet"
  then ["language"; "description"; "context"]
  else [].

(** The optional keys of the variant of a discriminant. *)
Definition optionalKeys (t : string) : list string :=
  if String.eqb t "create_project" then ["description"; "template"]
  else if String.eqb t "update_file" then ["content"; "path"; "name"]
  else if String.eqb t "create_web_page" then ["style"; "features"]
  else if String.eqb t "run_python" then ["description"]
  else if String.eqb t "generate_code_snippet" then ["context"]
  else [].

(** The eight literals of [ActionType]. *)
Definition actionTypes : list string :=
  [ "create_project"; "add_file"; "update_file"; "delete_file";
    "create_web_page"; "modify_apk"; "run_python"; "generate_code_snippet" ].

(** ** [MemStorage]: projects *)

(** [deleteProject]: the project is deleted, then every file whose
    [projectId] is the given one, and the result is whether the project was
    there. *)
Definition storage_deleteProject (id : string) : M bool :=
  let* w := get_world in
  modify_world (set_projects (delete id));;;
  modify_world
    (set_files (filter (fun kf : string * File => file_projectId kf.2 <> id)));;;
  ret (bool_decide (is_Some (projects w !! id))).

(** ** [PythonExecutor]: the one-shot run, further *)

(** The chunks of standard output, and of standard error, before the child
    ends. *)
Fixpoint stdoutBeforeEnd (events : list ChildEvent) : string :=
  match events with
  | Stdout chunk :: rest => chunk +:+ stdoutBeforeEnd rest
  | Stderr _ :: rest => stdoutBeforeEnd rest
  | _ => EmptyString
  end.

Fixpoint stderrBeforeEnd (events : list ChildEvent) : list string :=
  match events with
  | Stdout _ :: rest => stderrBeforeEnd rest
  | Stderr chunk :: rest => chunk :: stderrBeforeEnd rest
  | _ => []
  end.

(** A chunk of output, as opposed to the end of the child. *)
Definition isChunk (ev : ChildEvent) : Prop :=
  match ev with
  | Stdout _ | Stderr _ => True
  | Close _ | Failed _ => False
  end.

(** ** [PythonExecutor]: the interactive session

    The executor holds the child process of the session, here its number
    in the order of spawning, the flag [isRunning], and the number of
    listeners of its ['error'] event. What it does to the children and what
    it emits are logged, most recent first. *)
Inductive SessionAction : Type :=
| Spawned (child : nat)
| Killed (child : nat)
| Written (child : nat) (data : string)
| EmittedOutput (data : string)
| EmittedError (data : string).

Record PythonExecutor := mkPythonExecutor {
  process : option nat;
  isRunning : bool;
  children : nat;
  errorListeners : nat;
  sessionLog : list SessionAction
}.

(** [new PythonExecutor()] *)
Definition newExecutor : PythonExecutor := mkPythonExecutor None false 0 0 [].

Definition logged (a : SessionAction) (x : PythonExecutor) : PythonExecutor :=
  mkPythonExecutor (process x) (isRunning x) (children x) (errorListeners x)
    (a :: sessionLog x).

(** [this.isRunning = false; this.process = null] *)
Definition reset (x : PythonExecutor) : PythonExecutor :=
  mkPythonExecutor None false (children x) (errorListeners x) (sessionLog x).

Definition stopInteractiveSession (x : PythonExecutor) : PythonExecutor :=
  match process x with
  | Some child =>
      if isRunning x then reset (logged (Killed child) x) else x
  | None => x
  end.

Definition startInteractiveSession (x : PythonExecutor) : PythonExecutor :=
  let x1 := if isRunning x then stopInteractiveSession x else x in
  mkPythonExecutor (Some (children x1)) true (S (children x1))
    (errorListeners x1) (Spawned (children x1) :: sessionLog x1).

Definition sendCommand (command : string) (x : PythonExecutor)
  : PythonExecutor :=
  match process x with
  | Some child =>
      if isRunning x then logged (Written child (command +:+ nl)) x else x
  | None => x
  end.

Definition isSessionRunning (x : PythonExecutor) : bool := isRunning x.

(** [this.emit('error', data)] *)
Definition emitError (data : string) (x : PythonExecutor)
  : Uncaught + PythonExecutor :=
  match errorListeners x with
  | O => inl (UnhandledError data)
  | S _ => inr (logged (EmittedError data) x)
  end.

(** What reaches the executor: a call of one of its methods, a listener of
    ['error'] being added, or an event of a child of a session, handled by
    the listeners that [startInteractiveSession] has put on that child. *)
Inductive SessionEvent : Type :=
| StartSession
| SendCommand (command : string)
| StopSession
| OnError
| ChildStdout (child : nat) (data : string)
| ChildStderr (child : nat) (data : string)
| ChildClose (child : nat)
| ChildError (child : nat) (message : string).

(** The listeners are those of a spawned child; they do not look at which
    child the executor holds. [inl]: the exception of an unhandled ['error']
    leaves the listener. *)
Definition session_step (ev : SessionEvent) (x : PythonExecutor)
  : Uncaught + PythonExecutor :=
  match ev with
  | StartSession => inr (startInteractiveSession x)
  | SendCommand command => inr (sendCommand command x)
  | StopSession => inr (stopInteractiveSession x)
  | OnError =>
      inr (mkPythonExecutor (process x) (isRunning x) (children x)
             (S (errorListeners x)) (sessionLog x))
  | ChildStdout child data =>
      if Nat.ltb child (children x)
      then inr (logged (EmittedOutput data) x)
      else inr x
  | ChildStderr child data =>
      if Nat.ltb child (children x) then emitError data x else inr x
  | ChildClose child =>
      if Nat.ltb child (children x) then inr (reset x) else inr x
  | ChildError child message =>
      if Nat.ltb child (children x)
      then match emitError message x with
           | inl u => inl u
           | inr x1 => inr (reset x1)
           end
      else inr x
  end.

(** The events handled one after the other, up to the first uncaught
    exception. *)
Fixpoint session_run (evs : list SessionEvent) (x : PythonExecutor)
  : Uncaught + PythonExecutor :=
  match evs with
  | [] => inr x
  | ev :: rest =>
      match session_step ev x with
      | inl u => inl u
      | inr x1 => session_run rest x1
      end
  end.

(** The executor holds a child exactly when it says it is running, and the
    child it holds is the last one spawned; the log names spawned children
    only. *)
Definition session_ok (x : PythonExecutor) : Prop :=
  (isRunning x = true <-> is_Some (process x))
  /\ (forall child, process x = Some child -> S child = children x)
  /\ (forall a, a ∈ sessionLog x ->
        match a with
        | Spawned c | Killed c | Written c _ => c < children x
        | _ => True
        end).

(** ** More vocabulary *)

(** [yields P m]: whatever [m] returns satisfies [P]. *)
Definition yields {A} (P : A -> Prop) (m : M A) : Prop :=
  forall w a, fst (m w) = inr a -> P a.

(** [preserves I m]: [m] ends in a world where [I] holds when it started in
    one, however it ends. *)
Definition preserves {A} (I : World -> Prop) (m : M A) : Prop :=
  forall w, I w -> I (snd (m w)).

(** Every record of the store is kept under its own [id]. *)
Definition store_keys_ok (w : World) : Prop :=
  (forall k p, projects w !! k = Some p -> project_id p = k)
  /\ (forall k f, files w !! k = Some f -> file_id f = k).

(** An outcome that asks for nothing: no confirmation flag, no token. *)
Definition asks_nothing (r : ActionResponseType) : Prop :=
  requiresConfirmation r = None /\ confirmationMessage r = None
  /\ actionId r = None.

(** The record made from an insert, whatever its token and its dates. *)
Definition record_of (ins : InsertFile) (f : File) : Prop :=
  file_projectId f = ins_projectId ins /\ file_path f = ins_path ins
  /\ file_name f = ins_name ins /\ file_content f = ins_content ins
  /\ file_type f = ins_type ins /\ file_isModified f = ins_isModified ins.


(** * Properties *)

Example ChatAction_parse_run_python :
  ChatAction_parse (JObj [("type", JStr "run_python"); ("code", JStr "print(1)")])
  = Some (RunPythonAction "print(1)" None).
Proof. reflexivity. Qed.

(** ** Frames: what a computation leaves alone *)

Section Frames.
Variable R : World -> World -> Prop.
Hypothesis R_refl : forall w, R w w.
Hypothesis R_trans : forall w1 w2 w3, R w1 w2 -> R w2 w3 -> R w1 w3.

Lemma keeps_ret {A} (a : A) : keeps R (ret a).
Proof. intros w. apply R_refl. Qed.

Lemma keeps_throw {A} (e : Exn) : keeps R (@throw A e).
Proof. intros w. apply R_refl. Qed.

Lemma keeps_lift {A} (r : Exn + A) : keeps R (lift r).
Proof. intros w. apply R_refl. Qed.

Lemma keeps_get_world : keeps R get_world.
Proof. intros w. apply R_refl. Qed.

Lemma keeps_bind {A B} (m : M A) (f : A -> M B) :
  keeps R m -> (forall a, keeps R (f a)) -> keeps R (bind m f).
Proof.
  intros Hm Hf w. unfold bind. specialize (Hm w).
  destruct (m w) as [[e|a] w1]; simpl in *; [assumption|].
  eapply R_trans; [exact Hm | apply Hf].
Qed.

Lemma keeps_try_catch {A} (m : M A) (h : Exn -> M A) :
  keeps R m -> (forall e, keeps R (h e)) -> keeps R (try_catch m h).
Proof.
  intros Hm Hh w. unfold try_catch. specialize (Hm w).
  destruct (m w) as [[[e|u|]|a] w1]; simpl in *; try assumption.
  eapply R_trans; [exact Hm | apply Hh].
Qed.

(** The worlds a primitive can lead to. *)
Hypothesis R_next : forall w, R w (next w).
Hypothesis R_record : forall e w, R w (record e w).
Hypothesis R_projects : forall f w, R w (set_projects f w).
Hypothesis R_files : forall f w, R w (set_files f w).

Variable E : Env.

Lemma keeps_randomUUID : keeps R (randomUUID E).
Proof. intros w. apply R_next. Qed.

Lemma keeps_newDate : keeps R (newDate E).
Proof. intros w. apply R_next. Qed.

Lemma keeps_mirror e : keeps R (mirror E e).
Proof. intros w. simpl. eapply R_trans; [apply R_next | apply R_record]. Qed.

Lemma keeps_executeCode code : keeps R (pythonExecutor_executeCode E code).
Proof. intros w. simpl. eapply R_trans; [apply R_next | apply R_record]. Qed.

Lemma keeps_chatWithAI msg ctx : keeps R (chatWithAI E msg ctx).
Proof. intros w. apply R_next. Qed.

Lemma keeps_generateProjectStructure t d :
  keeps R (generateProjectStructure E t d).
Proof. intros w. apply R_next. Qed.

Lemma keeps_generateCode p l c : keeps R (generateCode E p l c).
Proof. intros w. apply R_next. Qed.

Lemma keeps_modify_projects f : keeps R (modify_world (set_projects f)).
Proof. intros w. apply R_projects. Qed.

Lemma keeps_modify_files f : keeps R (modify_world (set_files f)).
Proof. intros w. apply R_files. Qed.

Create HintDb keeps discriminated.
Hint Resolve keeps_ret keeps_throw keeps_lift keeps_get_world
  keeps_randomUUID keeps_newDate keeps_mirror keeps_executeCode
  keeps_chatWithAI keeps_generateProjectStructure keeps_generateCode
  keeps_modify_projects keeps_modify_files : keeps.

(** Splits a computation along its binds and handlers, down to the
    primitives. *)
Ltac frame :=
  repeat first
    [ apply keeps_bind; [|intros ?]
    | apply keeps_try_catch; [|intros ?]
    | solve [auto with keeps]
    | match goal with
      | |- keeps _ (match ?x with _ => _ end) => destruct x
      | |- keeps _ (if ?x then _ else _) => destruct x
      end ].

Lemma keeps_storage_createProject ins : keeps R (storage_createProject E ins).
Proof. unfold storage_createProject. frame. Qed.

Lemma keeps_storage_createFile ins : keeps R (storage_createFile E ins).
Proof. unfold storage_createFile. frame. Qed.

Lemma keeps_storage_getFile id : keeps R (storage_getFile id).
Proof. intros w. apply R_refl. Qed.

Lemma keeps_storage_updateFile id upd : keeps R (storage_updateFile E id upd).
Proof.
  intros w. unfold storage_updateFile, bind, get_world. simpl.
  destruct (files w !! id); simpl; [|apply R_refl].
  eapply R_trans; [apply R_next | apply R_files].
Qed.

Lemma keeps_storage_deleteFile id : keeps R (storage_deleteFile id).
Proof. intros w. simpl. apply R_files. Qed.

Hint Resolve keeps_storage_createProject keeps_storage_createFile
  keeps_storage_getFile keeps_storage_updateFile keeps_storage_deleteFile
  : keeps.

Lemma keeps_createProject_files project fds :
  forall acc, keeps R (createProject_files E project fds acc).
Proof.
  induction fds as [|fd rest IH]; intros acc; simpl; [auto with keeps|].
  unfold fileSystemService_createFile. frame.
Qed.

Lemma keeps_createWebPage_files pid page fds :
  forall acc, keeps R (createWebPage_files E pid page fds acc).
Proof.
  induction fds as [|fd rest IH]; intros acc; simpl; [auto with keeps|].
  frame.
Qed.

Hint Resolve keeps_createProject_files keeps_createWebPage_files : keeps.

(** Every handler but [modifyApk] stays within [R]. *)
Lemma keeps_executeAction action userId :
  (forall pid act params, action <> ModifyApkAction pid act params) ->
  keeps R (executeAction E action userId).
Proof.
  intros Hne. unfold executeAction.
  apply keeps_try_catch; [|intros ?; auto with keeps].
  destruct action; try (exfalso; eapply Hne; reflexivity);
    unfold createProject, addFile, updateFile, deleteFile, createWebPage,
      runPython, generateCodeSnippet, fileSystemService_createProject,
      fileSystemService_createFile, fileSystemService_updateFile;
    frame.
Qed.

Lemma keeps_parseUserRequest msg ctx : keeps R (parseUserRequest E msg ctx).
Proof. unfold parseUserRequest. frame. Qed.
End Frames.

(** ** Computations that always return *)

Lemma returns_ret {A} (a : A) : returns (ret a).
Proof. intros w. exists a. reflexivity. Qed.

Lemma catchable_ret {A} (a : A) : catchable (ret a).
Proof. intros w. exact I. Qed.

Lemma catchable_lift {A} (r : Exn + A) : catchable (lift r).
Proof. intros w. destruct r; exact I. Qed.

Lemma catchable_get_world : catchable get_world.
Proof. intros w. exact I. Qed.

Lemma catchable_modify_world f : catchable (modify_world f).
Proof. intros w. exact I. Qed.

Lemma catchable_bind {A B} (m : M A) (f : A -> M B) :
  catchable m -> (forall a, catchable (f a)) -> catchable (bind m f).
Proof.
  intros Hm Hf w. unfold bind. specialize (Hm w).
  destruct (m w) as [[[e|u|]|a] w1]; simpl in *; try contradiction;
    [exact I | apply Hf].
Qed.

Lemma catchable_try_catch {A} (m : M A) (h : Exn -> M A) :
  catchable m -> (forall e, catchable (h e)) -> catchable (try_catch m h).
Proof.
  intros Hm Hh w. unfold try_catch. specialize (Hm w).
  destruct (m w) as [[[e|u|]|a] w1]; simpl in *; try contradiction;
    [apply Hh | exact I].
Qed.

(** A handler that returns, around a computation whose exceptions can be
    caught, makes a computation that returns. *)
Lemma returns_try_catch {A} (m : M A) (h : Exn -> M A) :
  catchable m -> (forall e, returns (h e)) -> returns (try_catch m h).
Proof.
  intros Hm Hh w. unfold try_catch. specialize (Hm w).
  destruct (m w) as [[[e|u|]|a] w1]; simpl in *; try contradiction;
    [apply Hh | exists a; reflexivity].
Qed.

Section Catchable.
Variable E : Env.

Lemma catchable_randomUUID : catchable (randomUUID E).
Proof. intros w. exact I. Qed.

Lemma catchable_newDate : catchable (newDate E).
Proof. intros w. exact I. Qed.

Lemma catchable_mirror e : catchable (mirror E e).
Proof. intros w. simpl. destruct (mirror_at E (tick w) e); exact I. Qed.

Lemma catchable_chatWithAI msg ctx : catchable (chatWithAI E msg ctx).
Proof. intros w. simpl. destruct (chatWithAI_at E (tick w) msg ctx); exact I. Qed.

Lemma catchable_generateProjectStructure t d :
  catchable (generateProjectStructure E t d).
Proof.
  intros w. simpl. destruct (generateProjectStructure_at E (tick w) t d); exact I.
Qed.

Lemma catchable_generateCode p l c : catchable (generateCode E p l c).
Proof. intros w. simpl. destruct (generateCode_at E (tick w) p l c); exact I. Qed.

Lemma catchable_storage_getFile id : catchable (storage_getFile id).
Proof. intros w. exact I. Qed.

Create HintDb catchable discriminated.
Hint Resolve catchable_ret catchable_lift catchable_get_world
  catchable_modify_world catchable_randomUUID catchable_newDate
  catchable_mirror catchable_chatWithAI catchable_generateProjectStructure
  catchable_generateCode catchable_storage_getFile : catchable.

(** Splits a computation along its binds and handlers, down to the
    primitives. *)
Ltac caught :=
  repeat first
    [ apply catchable_bind; [|intros ?]
    | apply catchable_try_catch; [|intros ?]
    | solve [auto with catchable]
    | match goal with
      | |- catchable (match ?x with _ => _ end) => destruct x
      | |- catchable (if ?x then _ else _) => destruct x
      end ].

Lemma catchable_createProject_files project fds :
  forall acc, catchable (createProject_files E project fds acc).
Proof.
  induction fds as [|fd rest IH]; intros acc; simpl; [auto with catchable|].
  unfold storage_createFile, fileSystemService_createFile. caught.
Qed.

Lemma catchable_createWebPage_files pid page fds :
  forall acc, catchable (createWebPage_files E pid page fds acc).
Proof.
  induction fds as [|fd rest IH]; intros acc; simpl; [auto with catchable|].
  unfold storage_createFile. caught.
Qed.

Hint Resolve catchable_createProject_files catchable_createWebPage_files
  : catchable.

(** Only the sandbox can end the process or leave a promise pending: every
    action but [run_python] returns or throws. *)
Lemma catchable_executeAction action userId :
  (forall code description, action <> RunPythonAction code description) ->
  catchable (executeAction E action userId).
Proof.
  intros Hne. unfold executeAction.
  destruct action; try (exfalso; eapply Hne; reflexivity);
    unfold createProject, addFile, updateFile, deleteFile, createWebPage,
      modifyApk, generateCodeSnippet, storage_createProject,
      storage_createFile, storage_updateFile, storage_deleteFile,
      fileSystemService_createProject, fileSystemService_createFile,
      fileSystemService_updateFile;
    caught.
Qed.

Lemma catchable_parseUserRequest msg ctx :
  catchable (parseUserRequest E msg ctx).
Proof. unfold parseUserRequest. caught. Qed.
End Catchable.

(** ** The pending map is only touched by the gate *)

Lemma same_pending_refl w : same_pending w w.
Proof. split; [reflexivity | lia]. Qed.

Lemma same_pending_trans w1 w2 w3 :
  same_pending w1 w2 -> same_pending w2 w3 -> same_pending w1 w3.
Proof. intros [H1 L1] [H2 L2]. split; [congruence | lia]. Qed.

Lemma same_pending_next w : same_pending w (next w).
Proof. split; simpl; [reflexivity | lia]. Qed.

Lemma same_pending_record e w : same_pending w (record e w).
Proof. split; simpl; [reflexivity | lia]. Qed.

Lemma same_pending_projects f w : same_pending w (set_projects f w).
Proof. split; simpl; [reflexivity | lia]. Qed.

Lemma same_pending_files f w : same_pending w (set_files f w).
Proof. split; simpl; [reflexivity | lia]. Qed.

Section Gate.
Variable E : Env.

Lemma executeAction_same_pending action userId w :
  ~ is_modify_apk action ->
  same_pending w (snd (executeAction E action userId w)).
Proof.
  intros Hne.
  apply (keeps_executeAction same_pending same_pending_refl same_pending_trans
           same_pending_next same_pending_record same_pending_projects
           same_pending_files E).
  intros pid act params ->. apply Hne. exact I.
Qed.

Lemma parseUserRequest_same_pending msg ctx w :
  same_pending w (snd (parseUserRequest E msg ctx w)).
Proof.
  apply (keeps_parseUserRequest same_pending same_pending_refl
           same_pending_trans same_pending_next E).
Qed.

(** What [executeAction] computes on a [modify_apk] action. *)
Lemma executeAction_modify_apk projectId action parameters userId w :
  executeAction E (ModifyApkAction projectId action parameters) userId w
  = (inr (mkActionResponse false
            "La modificación de APK es una operación compleja."
            None (Some true)
            (Some ("¿Estás seguro de que quieres "
                     +:+ ApkAction_to_string action
                     +:+ " en tu APK? Esta operación puede afectar la funcionalidad de la aplicación."))
            (Some (randomUUID_at E (tick w)))),
     set_pending
       (insert (randomUUID_at E (tick w))
          (mkPending (ModifyApkAction projectId action parameters) None))
       (next w)).
Proof. reflexivity. Qed.

(** [executeAction] lets no exception out: but for [run_python], whose
    sandbox may end the process or leave its promise pending, it returns. *)
Lemma executeAction_returns action userId :
  (forall code description, action <> RunPythonAction code description) ->
  returns (executeAction E action userId).
Proof.
  intros Hne. pose proof (catchable_executeAction E action userId Hne) as Hc.
  unfold executeAction in *.
  intros w. specialize (Hc w). unfold try_catch in *.
  match goal with
  | |- context [match ?m w with _ => _ end] =>
      destruct (m w) as [[[e|u|]|a] w1]
  end; simpl in *; try contradiction; eexists; reflexivity.
Qed.

Lemma executeAction_never_throws action userId w e :
  fst (executeAction E action userId w) <> inl (Thrown e).
Proof.
  unfold executeAction, try_catch.
  match goal with
  | |- context [match ?m w with _ => _ end] =>
      destruct (m w) as [[[e0|u|]|a] w1]
  end; simpl; discriminate.
Qed.

Lemma parseUserRequest_returns msg ctx : returns (parseUserRequest E msg ctx).
Proof.
  apply returns_try_catch; [|intros e; apply returns_ret].
  apply catchable_bind; [apply catchable_chatWithAI|]. intros result.
  apply catchable_try_catch; [apply catchable_lift|].
  intros e. apply catchable_ret.
Qed.

Lemma gate_inv_same_pending w w' :
  same_pending w w' -> gate_inv E w -> gate_inv E w'.
Proof.
  intros [Hp Ht] Hinv k p Hk. rewrite Hp in Hk.
  destruct (Hinv k p Hk) as [[i [Hi ->]] Hm].
  split; [exists i; split; [lia | reflexivity] | assumption].
Qed.

Lemma gate_inv_delete k w :
  gate_inv E w -> gate_inv E (set_pending (delete k) w).
Proof.
  intros Hinv k' p. simpl. rewrite lookup_delete.
  case_decide; [discriminate|]. apply Hinv.
Qed.

Lemma gate_inv_executeAction action userId w :
  gate_inv E w -> gate_inv E (snd (executeAction E action userId w)).
Proof.
  intros Hinv.
  destruct (decide (is_modify_apk action)) as [Hm|Hm].
  - destruct action; try contradiction.
    rewrite executeAction_modify_apk. simpl.
    intros k p. simpl. rewrite lookup_insert. case_decide as Hk.
    + intros [= <-]. subst k. split; [|exact I].
      exists (tick w). simpl. split; [lia | reflexivity].
    + intros Hp. destruct (Hinv k p Hp) as [[i [Hi ->]] Hma].
      split; [exists i; simpl; split; [lia | reflexivity] | assumption].
  - eapply gate_inv_same_pending; [|exact Hinv].
    apply executeAction_same_pending; assumption.
Qed.

Lemma gate_inv_confirmAction actionId confirmed w :
  gate_inv E w -> gate_inv E (snd (confirmAction E actionId confirmed w)).
Proof.
  intros Hinv. unfold confirmAction, bind, get_world. simpl.
  destruct (pendingConfirmations w !! actionId) as [p|]; simpl; [|assumption].
  destruct confirmed; simpl.
  - apply gate_inv_executeAction, gate_inv_delete, Hinv.
  - apply gate_inv_delete, Hinv.
Qed.

Lemma gate_inv_serve r w : gate_inv E w -> gate_inv E (snd (serve E r w)).
Proof.
  intros Hinv. destruct r as [msg ctx|action userId|actionId confirmed]; simpl.
  - pose proof (parseUserRequest_same_pending msg ctx w) as Hs.
    destruct (parseUserRequest E msg ctx w) as [x w']. simpl in *.
    eapply gate_inv_same_pending; eassumption.
  - pose proof (gate_inv_executeAction action userId w Hinv) as Hs.
    destruct (executeAction E action userId w) as [x w']. exact Hs.
  - pose proof (gate_inv_confirmAction actionId confirmed w Hinv) as Hs.
    destruct (confirmAction E actionId confirmed w) as [x w']. exact Hs.
Qed.

Lemma gate_inv_run rs : forall w, gate_inv E w -> gate_inv E (run E rs w).
Proof.
  induction rs as [|r rest IH]; intros w Hinv; simpl; [assumption|].
  destruct (crashed _); [|apply IH]; apply gate_inv_serve, Hinv.
Qed.

Lemma reachable_gate_inv w : reachable E w -> gate_inv E w.
Proof.
  induction 1 as [w Hempty | r w _ IH | w w' _ IH Hs].
  - intros k p. rewrite Hempty, lookup_empty. discriminate.
  - apply gate_inv_serve, IH.
  - eapply gate_inv_same_pending; eassumption.
Qed.

Lemma reachable_run rs : forall w, reachable E w -> reachable E (run E rs w).
Proof.
  induction rs as [|r rest IH]; intros w Hw; simpl; [assumption|].
  destruct (crashed _); [|apply IH]; apply reachable_serve, Hw.
Qed.

(** With collision-free tokens, the next token is none of the pending ones. *)
Lemma next_token_not_pending w :
  Inj (=) (=) (randomUUID_at E) -> gate_inv E w ->
  pendingConfirmations w !! randomUUID_at E (tick w) = None.
Proof.
  intros Hinj Hinv.
  destruct (pendingConfirmations w !! randomUUID_at E (tick w)) as [p|] eqn:Hp;
    [|reflexivity].
  destruct (Hinv _ _ Hp) as [[i [Hi Heq]] _].
  apply Hinj in Heq. lia.
Qed.

Lemma issued_not_next w k :
  Inj (=) (=) (randomUUID_at E) -> issued E w k -> k <> randomUUID_at E (tick w).
Proof.
  intros Hinj [i [Hi ->]] Heq. apply Hinj in Heq. lia.
Qed.

End Gate.

(** ** The concrete worlds *)

Lemma demo_uuid_inj : Inj (=) (=) demo_uuid.
Proof.
  intros i j H. unfold demo_uuid in H.
  apply (inj (String.app "uuid-")) in H. apply (inj pretty) in H. exact H.
Qed.

Lemma emptyWorld_reachable E : reachable E emptyWorld.
Proof. apply reachable_new. reflexivity. Qed.

Lemma onePending_reachable : reachable demoEnv onePending.
Proof. apply reachable_run, emptyWorld_reachable. Qed.

Lemma onePending_lookup :
  pendingConfirmations onePending !! "uuid-0" = Some (mkPending demoApk None).
Proof. vm_compute. reflexivity. Qed.

Lemma oneFile_lookup : files oneFile !! "uuid-0" = Some mainPy.
Proof. vm_compute. reflexivity. Qed.

(** ** The Confirmation Gate and [modify_apk] *)

Section GateProperties.
Variable E : Env.

Lemma confirmAction_unknown actionId confirmed w :
  pendingConfirmations w !! actionId = None ->
  confirmAction E actionId confirmed w = (inr notFound, w).
Proof.
  intros H. unfold confirmAction, bind, get_world. simpl. rewrite H. reflexivity.
Qed.

Lemma confirmAction_pending actionId confirmed p w :
  pendingConfirmations w !! actionId = Some p ->
  confirmAction E actionId confirmed w
  = if confirmed
    then executeAction E (pending_action p) (pending_userId p)
           (set_pending (delete actionId) w)
    else (inr cancelled, set_pending (delete actionId) w).
Proof.
  intros H. unfold confirmAction, bind, get_world. simpl. rewrite H.
  destruct confirmed; reflexivity.
Qed.

(** After a confirmed action ran, its token is not pending. *)
Lemma confirmed_token_gone actionId p w :
  Inj (=) (=) (randomUUID_at E) -> gate_inv E w ->
  pendingConfirmations w !! actionId = Some p ->
  pendingConfirmations (snd (confirmAction E actionId true w)) !! actionId = None.
Proof.
  intros Hinj Hinv Hp. rewrite (confirmAction_pending _ _ _ _ Hp).
  destruct (Hinv _ _ Hp) as [Hiss Hm].
  destruct (pending_action p) as [| | | | |pid act params| |]; try contradiction.
  rewrite executeAction_modify_apk. simpl.
  rewrite lookup_insert_ne; [apply lookup_delete_eq|].
  intros Heq. eapply issued_not_next; eauto.
Qed.

(** Confirmations, whatever their number, act on the pending map only. *)
Lemma confirmAction_store actionId confirmed w :
  gate_inv E w ->
  let w' := snd (confirmAction E actionId confirmed w) in
  projects w' = projects w /\ files w' = files w /\ effects w' = effects w.
Proof.
  intros Hinv.
  destruct (pendingConfirmations w !! actionId) as [p|] eqn:Hp.
  - rewrite (confirmAction_pending _ _ _ _ Hp).
    destruct confirmed; simpl; [|auto].
    destruct (Hinv _ _ Hp) as [_ Hm].
    destruct (pending_action p); try contradiction.
    rewrite executeAction_modify_apk. simpl. auto.
  - rewrite (confirmAction_unknown _ _ _ Hp). simpl. auto.
Qed.

Lemma confirmations_store calls :
  forall w, gate_inv E w ->
    let w' := run E (map (fun c => ConfirmAction (fst c) (snd c)) calls) w in
    projects w' = projects w /\ files w' = files w /\ effects w' = effects w.
Proof.
  induction calls as [|[tok b] rest IH]; intros w Hinv; simpl; [auto|].
  pose proof (confirmAction_store tok b w Hinv) as Hs.
  pose proof (gate_inv_confirmAction E tok b w Hinv) as Hi.
  destruct (confirmAction E tok b w) as [x w1]. simpl in *.
  destruct (IH w1 Hi) as (H1 & H2 & H3). destruct Hs as (G1 & G2 & G3).
  destruct x as [[e|u|]|a]; repeat split; congruence.
Qed.

End GateProperties.

(** ** The claims about the gate *)

(** C1. Executing a validated [modify_apk] action, whatever its sub-action
    and parameters, changes neither the Project Store nor the collaborator
    calls issued: it returns [success: false], [requiresConfirmation: true],
    a confirmation message and an [actionId], and stores the action in the
    pending map under that token. The token is the next draw of
    [randomUUID]; when draws never collide it is not pending and was never
    drawn before. *)
Theorem modify_apk_always_defers (E : Env) (w : World)
    (projectId : string) (action : ApkAction)
    (parameters : list (string * JValue)) (userId : option string) :
  Inj (=) (=) (randomUUID_at E) ->
  reachable E w ->
  let act := ModifyApkAction projectId action parameters in
  let token := randomUUID_at E (tick w) in
  let out := executeAction E act userId w in
  (exists resp,
      fst out = inr resp /\ success resp = false
      /\ requiresConfirmation resp = Some true
      /\ confirmationMessage resp
         = Some ("¿Estás seguro de que quieres " +:+ ApkAction_to_string action
                   +:+ " en tu APK? Esta operación puede afectar la funcionalidad de la aplicación.")
      /\ actionId resp = Some token)
  /\ projects (snd out) = projects w
  /\ files (snd out) = files w
  /\ effects (snd out) = effects w
  /\ pendingConfirmations (snd out)
     = <[token := mkPending act None]> (pendingConfirmations w)
  /\ pendingConfirmations w !! token = None
  /\ (forall i, i < tick w -> randomUUID_at E i <> token).
Proof.
  intros Hinj Hreach act token out. subst out act.
  rewrite executeAction_modify_apk. simpl.
  split; [eexists; repeat split; reflexivity|].
  repeat split.
  - apply next_token_not_pending; [assumption|].
    apply reachable_gate_inv, Hreach.
  - intros i Hi Heq. apply Hinj in Heq. lia.
Qed.

Lemma modify_apk_always_defers_witness :
  pendingConfirmations (snd (executeAction demoEnv demoApk None onePending))
    = <["uuid-1" := mkPending demoApk None]> (pendingConfirmations onePending)
  /\ pendingConfirmations onePending !! "uuid-1" = None.
Proof.
  pose proof (modify_apk_always_defers demoEnv onePending "proj-1" change_theme
                [("theme", JStr "dark")] None demo_uuid_inj onePending_reachable)
    as (_ & _ & _ & _ & Hstored & Hfresh & _).
  split; [exact Hstored | exact Hfresh].
Defined.

(** C2. Confirming a pending token deletes the entry and then runs the
    executor on the stored action, in the world without the entry, and
    returns what the executor returns. A second confirmation of the same
    token, like the confirmation of any token that is not pending, returns
    the not-found outcome and changes nothing. *)
Theorem confirm_executes_once (E : Env) (w : World) (token : string)
    (p : Pending) :
  Inj (=) (=) (randomUUID_at E) ->
  reachable E w ->
  pendingConfirmations w !! token = Some p ->
  let first := confirmAction E token true w in
  first = executeAction E (pending_action p) (pending_userId p)
            (set_pending (delete token) w)
  /\ (forall confirmed,
        confirmAction E token confirmed (snd first) = (inr notFound, snd first))
  /\ (forall w0 other confirmed,
        pendingConfirmations w0 !! other = None ->
        confirmAction E other confirmed w0 = (inr notFound, w0)).
Proof.
  intros Hinj Hreach Hp first. subst first. repeat split.
  - apply (confirmAction_pending E token true p w Hp).
  - intros confirmed. apply confirmAction_unknown.
    eapply confirmed_token_gone; eauto. apply reachable_gate_inv, Hreach.
  - intros w0 other confirmed. apply confirmAction_unknown.
Qed.

Lemma confirm_executes_once_witness :
  let first := confirmAction demoEnv "uuid-0" true onePending in
  first = executeAction demoEnv demoApk None
            (set_pending (delete "uuid-0") onePending)
  /\ confirmAction demoEnv "uuid-0" true (snd first) = (inr notFound, snd first).
Proof.
  destruct (confirm_executes_once demoEnv onePending "uuid-0"
              (mkPending demoApk None) demo_uuid_inj onePending_reachable
              onePending_lookup) as (H1 & H2 & _).
  split; [exact H1 | exact (H2 true)].
Defined.

(** C3. Denying a pending token deletes the entry and returns the cancelled
    outcome; the stored action is not run: the Project Store, the collaborator
    calls and the clock are as they were. The token is then unknown: a later
    confirmation of it returns the not-found outcome. *)
Theorem deny_discards (E : Env) (w : World) (token : string) (p : Pending) :
  pendingConfirmations w !! token = Some p ->
  let w' := set_pending (delete token) w in
  confirmAction E token false w = (inr cancelled, w')
  /\ success cancelled = false
  /\ message cancelled = "Acción cancelada por el usuario."
  /\ projects w' = projects w /\ files w' = files w
  /\ effects w' = effects w /\ tick w' = tick w
  /\ pendingConfirmations w' = delete token (pendingConfirmations w)
  /\ confirmAction E token true w' = (inr notFound, w').
Proof.
  intros Hp w'. subst w'.
  split; [apply (confirmAction_pending E token false p w Hp)|].
  repeat split; try reflexivity.
  apply confirmAction_unknown. simpl. apply lookup_delete_eq.
Qed.

Lemma deny_discards_witness :
  let w' := set_pending (delete "uuid-0") onePending in
  confirmAction demoEnv "uuid-0" false onePending = (inr cancelled, w')
  /\ confirmAction demoEnv "uuid-0" true w' = (inr notFound, w').
Proof.
  destruct (deny_discards demoEnv onePending "uuid-0" (mkPending demoApk None)
              onePending_lookup) as (H1 & _ & _ & _ & _ & _ & _ & _ & H2).
  split; [exact H1 | exact H2].
Defined.

(** C10. Confirming a pending [modify_apk] does not modify anything but the
    pending map: the executor runs again, returns [success: false] and
    [requiresConfirmation: true] with a token different from the confirmed
    one, and the entry reappears under that token. So it is for the entry
    that any [modify_apk] request registers: the token the request returns
    is pending, and confirming it only moves the entry to a new token.
    Hence after any finite sequence of confirmations the Project Store and
    the collaborator calls are what they were. *)
Theorem confirm_modify_apk_never_modifies (E : Env) (w : World) :
  Inj (=) (=) (randomUUID_at E) ->
  reachable E w ->
  (forall token projectId action parameters userId,
      let act := ModifyApkAction projectId action parameters in
      pendingConfirmations w !! token = Some (mkPending act userId) ->
      let out := confirmAction E token true w in
      let token' := randomUUID_at E (tick w) in
      (exists resp,
          fst out = inr resp /\ success resp = false
          /\ requiresConfirmation resp = Some true
          /\ actionId resp = Some token')
      /\ token' <> token
      /\ pendingConfirmations w !! token' = None
      /\ pendingConfirmations (snd out)
         = <[token' := mkPending act None]> (delete token (pendingConfirmations w))
      /\ projects (snd out) = projects w
      /\ files (snd out) = files w
      /\ effects (snd out) = effects w)
  /\ (forall projectId action parameters userId,
        let act := ModifyApkAction projectId action parameters in
        let token := randomUUID_at E (tick w) in
        let w1 := snd (executeAction E act userId w) in
        let out := confirmAction E token true w1 in
        let token' := randomUUID_at E (tick w1) in
        pendingConfirmations w1 !! token = Some (mkPending act None)
        /\ (exists resp,
              fst out = inr resp /\ success resp = false
              /\ requiresConfirmation resp = Some true
              /\ actionId resp = Some token')
        /\ token' <> token
        /\ pendingConfirmations (snd out) !! token = None
        /\ pendingConfirmations (snd out)
           = <[token' := mkPending act None]> (pendingConfirmations w)
        /\ projects (snd out) = projects w
        /\ files (snd out) = files w
        /\ effects (snd out) = effects w)
  /\ (forall calls : list (string * bool),
        let w' := run E (map (fun c => ConfirmAction (fst c) (snd c)) calls) w in
        projects w' = projects w /\ files w' = files w
        /\ effects w' = effects w).
Proof.
  intros Hinj Hreach.
  pose proof (reachable_gate_inv E w Hreach) as Hinv.
  split; [|split].
  - intros token projectId action parameters userId act Hp out token'.
    subst out token' act.
    rewrite (confirmAction_pending E _ _ _ _ Hp). simpl pending_action.
    rewrite executeAction_modify_apk. simpl.
    split; [eexists; repeat split; reflexivity|].
    destruct (Hinv _ _ Hp) as [Hiss _].
    repeat split.
    + intros Heq. eapply issued_not_next; eauto.
    + apply next_token_not_pending; assumption.
  - intros projectId action parameters userId act token w1 out token'.
    subst out token' w1 token act.
    rewrite executeAction_modify_apk. cbn [snd].
    assert (pendingConfirmations
              (set_pending
                 (insert (randomUUID_at E (tick w))
                    (mkPending (ModifyApkAction projectId action parameters)
                       None)) (next w))
              !! randomUUID_at E (tick w)
            = Some (mkPending (ModifyApkAction projectId action parameters)
                      None)) as Hp
      by (simpl; apply lookup_insert_eq).
    split; [exact Hp|].
    rewrite (confirmAction_pending E _ _ _ _ Hp). simpl pending_action.
    rewrite executeAction_modify_apk. simpl.
    split; [eexists; repeat split; reflexivity|].
    assert (randomUUID_at E (S (tick w)) <> randomUUID_at E (tick w)) as Hne
      by (intros Heq; apply Hinj in Heq; lia).
    split; [exact Hne|].
    split; [rewrite lookup_insert_ne by exact Hne; apply lookup_delete_eq|].
    split; [|repeat split].
    rewrite delete_insert_id; [reflexivity|].
    apply next_token_not_pending; assumption.
  - intros calls. apply confirmations_store, Hinv.
Qed.

Lemma confirm_modify_apk_never_modifies_witness :
  (let out := confirmAction demoEnv "uuid-0" true onePending in
   (exists resp,
       fst out = inr resp /\ success resp = false
       /\ requiresConfirmation resp = Some true
       /\ actionId resp = Some "uuid-1")
   /\ pendingConfirmations (snd out)
      = <["uuid-1" := mkPending demoApk None]>
          (delete "uuid-0" (pendingConfirmations onePending))
   /\ effects (snd out) = effects onePending)
  /\ (let w1 := snd (executeAction demoEnv demoApk None emptyWorld) in
      let out := confirmAction demoEnv "uuid-0" true w1 in
      pendingConfirmations w1 !! "uuid-0" = Some (mkPending demoApk None)
      /\ pendingConfirmations (snd out)
         = <["uuid-1" := mkPending demoApk None]>
             (pendingConfirmations emptyWorld))
  /\ (let w' := run demoEnv
                  [ConfirmAction "uuid-0" true; ConfirmAction "uuid-1" true;
                   ConfirmAction "uuid-2" false] onePending in
      projects w' = projects onePending /\ files w' = files onePending
      /\ effects w' = effects onePending).
Proof.
  destruct (confirm_modify_apk_never_modifies demoEnv onePending demo_uuid_inj
              onePending_reachable) as (Hpending & _ & Hcalls).
  destruct (confirm_modify_apk_never_modifies demoEnv emptyWorld demo_uuid_inj
              (emptyWorld_reachable demoEnv)) as (_ & Hregistered & _).
  destruct (Hpending "uuid-0" "proj-1" change_theme [("theme", JStr "dark")]
              None onePending_lookup)
    as (Hresp & _ & _ & Hmoved & _ & _ & Heff).
  destruct (Hregistered "proj-1" change_theme [("theme", JStr "dark")] None)
    as (Hthere & _ & _ & _ & Hagain & _).
  split; [split; [exact Hresp | split; [exact Hmoved | exact Heff]]|].
  split; [split; [exact Hthere | exact Hagain]|].
  exact (Hcalls [("uuid-0", true); ("uuid-1", true); ("uuid-2", false)]).
Defined.

(** ** The Intent Parser *)

Section ParserProperties.
Variable E : Env.

(** [parseUserRequest], handler by handler. *)
Lemma parseUserRequest_eq msg ctx w :
  parseUserRequest E msg ctx w
  = (inr match chatWithAI_at E (tick w) msg ctx with
         | inl _ => requestFailed
         | inr text =>
             match interpretResult E ctx text with
             | inl _ => couldNotUnderstand
             | inr r => r
             end
         end, next w).
Proof.
  unfold parseUserRequest, try_catch, bind, chatWithAI, lift. simpl.
  destruct (chatWithAI_at E (tick w) msg ctx) as [e|text]; simpl;
    [reflexivity|].
  destruct (interpretResult E ctx text) as [e|r]; reflexivity.
Qed.

Lemma couldNotUnderstand_fallback : is_fallback couldNotUnderstand.
Proof. repeat split. eexists. split; [reflexivity | discriminate]. Qed.

Lemma requestFailed_fallback : is_fallback requestFailed.
Proof. repeat split. eexists. split; [reflexivity | discriminate]. Qed.

Lemma interpretResult_well_formed ctx text r :
  interpretResult E ctx text = inr r -> well_formed r.
Proof.
  unfold interpretResult.
  destruct (JSON_parse E text) as [parsed|]; [|discriminate].
  destruct (readProp parsed "needsMoreInfo") as [e|flag]; [discriminate|].
  destruct (truthy flag).
  - intros [= <-]. intros _. reflexivity.
  - destruct (validateActions ctx (asArray parsed) []); [discriminate|].
    intros [= <-]. intros H. discriminate.
Qed.

Lemma parseUserRequest_well_formed msg ctx w r :
  fst (parseUserRequest E msg ctx w) = inr r -> well_formed r.
Proof.
  rewrite parseUserRequest_eq. simpl. intros [= <-].
  destruct (chatWithAI_at E (tick w) msg ctx) as [e|text].
  - intros _. reflexivity.
  - destruct (interpretResult E ctx text) as [e|r] eqn:Hr.
    + intros _. reflexivity.
    + eapply interpretResult_well_formed, Hr.
Qed.

(** A [null] among the candidates makes the loop throw, whatever the other
    candidates are. *)
Lemma validateActions_null ctx pre post :
  forall acc, exists e, validateActions ctx (pre ++ JNull :: post) acc = inl e.
Proof.
  induction pre as [|c pre IH]; intros acc; simpl.
  - eexists. reflexivity.
  - destruct (substituteCurrent ctx c) as [e|c']; [eexists; reflexivity|].
    destruct (ChatAction_parse c'); apply IH.
Qed.

(** Without [null], each candidate is kept or dropped on its own. *)
Lemma validateActions_per_candidate ctx cands :
  Forall (fun c => c <> JNull) cands ->
  forall acc,
    validateActions ctx cands acc
    = inr (acc ++ omap (validateCandidate ctx) cands).
Proof.
  induction 1 as [|c cands Hc _ IH]; intros acc; simpl.
  - rewrite app_nil_r. reflexivity.
  - unfold validateCandidate.
    destruct (substituteCurrent ctx c) as [e|c'] eqn:Hs.
    + exfalso. unfold substituteCurrent, readProp in Hs.
      destruct c; try contradiction;
        simpl in Hs; destruct (context_projectId ctx);
        repeat match type of Hs with
               | context [if ?b then _ else _] => destruct b
               end; discriminate.
    + destruct (ChatAction_parse c'); rewrite IH; [|reflexivity].
      rewrite <- app_assoc. reflexivity.
Qed.

Lemma lookupProp_setProp_eq k v o : lookupProp k (setProp k v o) = Some v.
Proof.
  induction o as [|[k' v'] o IH]; simpl.
  - rewrite String.eqb_refl. reflexivity.
  - destruct (String.eqb k k') eqn:Hk; simpl.
    + rewrite String.eqb_refl. reflexivity.
    + rewrite Hk. exact IH.
Qed.

Lemma lookupProp_setProp_ne k k' v o :
  k' <> k -> lookupProp k' (setProp k v o) = lookupProp k' o.
Proof.
  intros Hne. induction o as [|[k0 v0] o IH]; simpl.
  - destruct (String.eqb_spec k' k); [contradiction | reflexivity].
  - destruct (String.eqb_spec k k0) as [->|Hk0]; simpl.
    + destruct (String.eqb_spec k' k0); [contradiction | reflexivity].
    + destruct (String.eqb k' k0); [reflexivity | exact IH].
Qed.

End ParserProperties.


(** Candidates without [null], decoded from an answer that asks for no
    clarification: the result is the list of the candidates that validate. *)
Lemma parseUserRequest_per_candidate E msg ctx w text parsed :
  chatWithAI_at E (tick w) msg ctx = inr text ->
  JSON_parse E text = Some parsed ->
  truthy (getProp parsed "needsMoreInfo") = false ->
  Forall (fun c => c <> JNull) (asArray parsed) ->
  fst (parseUserRequest E msg ctx w)
  = inr (mkParseResult (omap (validateCandidate ctx) (asArray parsed)) false None).
Proof.
  intros Hchat Hjson Hflag Hnn. rewrite parseUserRequest_eq. simpl.
  rewrite Hchat. unfold interpretResult. rewrite Hjson.
  assert (readProp parsed "needsMoreInfo" = inr (getProp parsed "needsMoreInfo"))
    as ->.
  { destruct parsed; try reflexivity.
    apply Forall_inv in Hnn. contradiction. }
  rewrite Hflag, (validateActions_per_candidate ctx _ Hnn). reflexivity.
Qed.

(** Batch isolation on the example of the design: the well-formed candidate
    survives its sibling that lacks a required field. *)
Example batch_isolation_example :
  fst (parseUserRequest demoEnv "Ejecuta print(1) y borra el archivo" None
         emptyWorld)
  = inr (mkParseResult [RunPythonAction "print(1)" None] false None).
Proof. vm_compute. reflexivity. Qed.

(** ** The claims about the parser *)

(** C4. [parseUserRequest] always returns a [ParseResult], in which
    [needsMoreInfo] implies that there is no action; when the oracle call
    throws or its answer is not decodable JSON, the result has no action,
    [needsMoreInfo: true] and a non-empty clarification message. *)
Theorem parseUserRequest_total (E : Env) (message : string)
    (context : option ParseContext) (w : World) :
  exists r,
    fst (parseUserRequest E message context w) = inr r
    /\ well_formed r
    /\ (oracle_unusable E message context w -> is_fallback r).
Proof.
  destruct (parseUserRequest_returns E message context w) as [r Hr].
  exists r. split; [exact Hr|].
  split; [eapply parseUserRequest_well_formed, Hr|].
  unfold oracle_unusable. rewrite parseUserRequest_eq in Hr. simpl in Hr.
  injection Hr as <-.
  destruct (chatWithAI_at E (tick w) message context) as [e|text].
  - intros _. apply requestFailed_fallback.
  - intros Hnone. unfold interpretResult. rewrite Hnone.
    apply couldNotUnderstand_fallback.
Qed.

Lemma parseUserRequest_total_witness :
  exists r,
    fst (parseUserRequest demoEnv "hola" None emptyWorld) = inr r
    /\ is_fallback r.
Proof.
  destruct (parseUserRequest_total demoEnv "hola" None emptyWorld)
    as (r & Hr & _ & Hf).
  exists r. split; [exact Hr | apply Hf; vm_compute; reflexivity].
Defined.

(** C7. Whatever the message, the context and the oracle, [parseUserRequest]
    returns a result in which [needsMoreInfo = true] implies that the list
    of actions is empty. *)
Theorem needsMoreInfo_no_actions (E : Env) (message : string)
    (context : option ParseContext) (w : World) :
  exists r,
    fst (parseUserRequest E message context w) = inr r
    /\ (needsMoreInfo r = true -> actions r = []).
Proof.
  destruct (parseUserRequest_returns E message context w) as [r Hr].
  exists r. split; [exact Hr|].
  exact (parseUserRequest_well_formed E _ _ _ _ Hr).
Qed.

Lemma needsMoreInfo_no_actions_witness :
  exists r,
    fst (parseUserRequest demoEnv "hola" None emptyWorld) = inr r
    /\ needsMoreInfo r = true /\ actions r = [].
Proof.
  destruct (needsMoreInfo_no_actions demoEnv "hola" None emptyWorld)
    as (r & Hr & Himp).
  exists r. split; [exact Hr|].
  assert (needsMoreInfo r = true) as Hn
    by (vm_compute in Hr; injection Hr as <-; reflexivity).
  split; [exact Hn | exact (Himp Hn)].
Defined.

(** The converse does not hold: candidates that all fail validation give an
    empty list without [needsMoreInfo]. *)
Example empty_actions_without_needsMoreInfo :
  interpretResult
    (with_JSON_parse
       (fun _ => Some (JArr [JObj [("type", JStr "delete_file")]])) demoEnv)
    None "x"
  = inr (mkParseResult [] false None).
Proof. reflexivity. Qed.

(** C5, where the code departs from it. The oracle answers with a valid
    [run_python] candidate followed by [null]: each is decoded as written,
    the first validates on its own, and yet the result has no action at
    all. Reading [projectId] of the [null] candidate throws outside the
    [try] of the validation, and the handler of the decoding takes over. *)
Theorem null_candidate_discards_siblings :
  JSON_parse demoEnv nullBatchText = Some (JArr [runPythonCandidate; JNull])
  /\ ChatAction_parse runPythonCandidate = Some (RunPythonAction "print(1)" None)
  /\ ChatAction_parse JNull = None
  /\ fst (parseUserRequest demoEnv "Ejecuta print(1) y nada más" None emptyWorld)
     = inr couldNotUnderstand
  /\ actions couldNotUnderstand = [].
Proof. repeat split; vm_compute; reflexivity. Qed.

(** The same for every answer: one [null] among the candidates, and no
    sibling survives. *)
Lemma null_candidate_discards_all E msg ctx w text pre post :
  chatWithAI_at E (tick w) msg ctx = inr text ->
  JSON_parse E text = Some (JArr (pre ++ JNull :: post)) ->
  fst (parseUserRequest E msg ctx w) = inr couldNotUnderstand.
Proof.
  intros Hchat Hjson. rewrite parseUserRequest_eq. simpl. rewrite Hchat.
  unfold interpretResult. rewrite Hjson. simpl.
  destruct (validateActions_null ctx pre post []) as [e ->]. reflexivity.
Qed.

(** The test [context?.projectId] of the substitution is a test of
    truthiness: a context whose project is the empty string has no real
    project, and the placeholder stays. *)
Example empty_context_projectId_is_no_project :
  context_projectId emptyProjectContext = Some EmptyString
  /\ getProp contactCandidate "projectId" = Some (JStr "current")
  /\ fst (parseUserRequest demoEnv "Agrega una página de contacto"
            emptyProjectContext emptyWorld)
     = inr (mkParseResult
              [CreateWebPageAction "current" "contacto" contact None None]
              false None).
Proof. repeat split; vm_compute; reflexivity. Qed.



(** The example of the design, through the whole parser. *)
Example placeholder_proj42 :
  fst (parseUserRequest demoEnv "Agrega una página de contacto"
         (Some (mkParseContext (Some "proj-42") None None)) emptyWorld)
  = inr (mkParseResult
           [CreateWebPageAction "proj-42" "contacto" contact None None]
           false None).
Proof. vm_compute. reflexivity. Qed.

(** ** The Action Executor on the Project Store *)

Section StoreProperties.
Variable E : Env.

(** [update_file] on a record that exists: the record is replaced, then the
    content, when the action has one, is mirrored under the path of the
    updated record; the outcome names the file, and is a failure when the
    name of the record cannot be converted to a string. *)
Lemma executeAction_update_file fileId content path name userId w f :
  files w !! fileId = Some f ->
  let f' := spreadFile f (updateFile_updates content path name)
              (Date_at E (tick w)) in
  let w1 := set_files (insert fileId f') (next w) in
  let failed e :=
    plainResponse false ("Error actualizando el archivo: " +:+ errMessage e) in
  let done :=
    match toString E (file_name f') with
    | inr text =>
        dataResponse true
          ("Archivo " +:+ dquote +:+ text +:+ dquote
             +:+ " actualizado exitosamente.") (DataFile f')
    | inl e => failed e
    end in
  executeAction E (UpdateFileAction fileId content path name) userId w
  = match content with
    | None => (inr done, w1)
    | Some c =>
        let call := FsUpdateFile (file_projectId f') (file_path f') c in
        (inr match mirror_at E (S (tick w)) call with
             | None => done
             | Some e => failed e
             end, record call (next w1))
    end.
Proof.
  intros Hf. unfold executeAction, updateFile, storage_updateFile, try_catch,
    bind, get_world. cbv beta. rewrite Hf. simpl.
  destruct content as [c|]; simpl.
  - destruct (mirror_at E (S (tick w)) _); simpl; [reflexivity|].
    destruct (toString E _); reflexivity.
  - destruct (toString E _); reflexivity.
Qed.

Lemma executeAction_update_file_missing fileId content path name userId w :
  files w !! fileId = None ->
  executeAction E (UpdateFileAction fileId content path name) userId w
  = (inr (plainResponse false "Archivo no encontrado."), w).
Proof.
  intros Hf. unfold executeAction, updateFile, storage_updateFile, try_catch,
    bind, get_world. cbv beta. rewrite Hf. reflexivity.
Qed.

Lemma storage_createFile_eq ins w :
  storage_createFile E ins w
  = (inr (createdFile E ins (tick w)), stored E ins w).
Proof. reflexivity. Qed.

Lemma null_or_not (v : JValue) : v = JNull \/ v <> JNull.
Proof. destruct v; [left; reflexivity | right; discriminate ..]. Qed.

Lemma projectFile_not_null project fileData :
  fileData <> JNull ->
  projectFile project fileData = inr (entryFile project fileData).
Proof. intros Hn. destruct fileData; try reflexivity. contradiction. Qed.

(** One turn of the loop of [createProject] on an entry that is not
    [null]: the record is stored, then the mirror is called; when the
    mirror throws the loop stops there, with the record in the store. *)
Lemma createProject_files_step project fileData rest acc w :
  fileData <> JNull ->
  createProject_files E project (fileData :: rest) acc w
  = match mirror_at E (3 + tick w) (entryCall project fileData) with
    | Some e => (inl (Thrown e), afterFile E project w fileData)
    | None =>
        createProject_files E project rest
          (acc ++ [createdFile E (entryFile project fileData) (tick w)])
          (afterFile E project w fileData)
    end.
Proof.
  intros Hn. cbn [createProject_files]. unfold bind at 1, lift.
  rewrite (projectFile_not_null _ _ Hn). cbn [thrown fst snd].
  unfold bind at 1. rewrite storage_createFile_eq.
  unfold bind, fileSystemService_createFile, mirror, afterFile, entryCall.
  cbn [tick next stored set_files].
  destruct (mirror_at E _ _); reflexivity.
Qed.

(** On a [null] entry the loop stops before it stores anything. *)
Lemma createProject_files_null project rest acc w :
  createProject_files E project (JNull :: rest) acc w
  = (inl (Thrown (Error "Cannot read properties of null (reading 'name')")), w).
Proof. reflexivity. Qed.

(** The turns that went through: their records are returned in order, and
    the loop goes on from the world they leave. *)
Lemma createProject_files_through project pre :
  forall rest acc w,
    filesMirrored E project pre w ->
    createProject_files E project (pre ++ rest) acc w
    = createProject_files E project rest
        (acc ++ recordsFrom E project pre w) (afterFiles E project pre w).
Proof.
  induction pre as [|fileData pre IH]; intros rest acc w.
  - intros _. simpl. rewrite app_nil_r. reflexivity.
  - intros (Hn & Hm & Hpre). rewrite <- app_comm_cons.
    rewrite (createProject_files_step _ _ _ _ _ Hn), Hm.
    rewrite (IH _ _ _ Hpre). cbn [recordsFrom afterFiles foldl].
    rewrite <- app_assoc. reflexivity.
Qed.

Lemma afterFile_store project fileData w :
  let w' := afterFile E project w fileData in
  projects w' = projects w
  /\ pendingConfirmations w' = pendingConfirmations w
  /\ files w'
     = <[randomUUID_at E (tick w)
         := createdFile E (entryFile project fileData) (tick w)]> (files w)
  /\ effects w' = entryCall project fileData :: effects w
  /\ tick w' = 4 + tick w.
Proof. repeat split. Qed.

(** The turns add file records and mirror calls, and nothing else; no key
    leaves the files. *)
Lemma afterFiles_store project fileDatas :
  forall w,
    let w' := afterFiles E project fileDatas w in
    projects w' = projects w
    /\ pendingConfirmations w' = pendingConfirmations w
    /\ dom (files w) ⊆ dom (files w')
    /\ Forall (fun f => file_id f ∈ dom (files w'))
         (recordsFrom E project fileDatas w).
Proof.
  induction fileDatas as [|fileData rest IH]; intros w.
  - simpl. split; [reflexivity|]. split; [reflexivity|].
    split; [reflexivity | by apply Forall_nil].
  - cbn [afterFiles foldl recordsFrom].
    destruct (IH (afterFile E project w fileData)) as (Hp & Hq & Hd & Hin).
    fold (afterFiles E project rest (afterFile E project w fileData)) in *.
    assert (dom (files (afterFile E project w fileData))
            = {[randomUUID_at E (tick w)]} ∪ dom (files w)) as Hw1
      by (simpl; apply dom_insert_L).
    split; [rewrite Hp; reflexivity|]. split; [rewrite Hq; reflexivity|].
    split; [etrans; [|exact Hd]; rewrite Hw1; apply union_subseteq_r|].
    constructor; [|exact Hin].
    apply Hd. rewrite Hw1. apply elem_of_union_l, elem_of_singleton.
    reflexivity.
Qed.

(** The loop adds file records and nothing else to the store. *)
Lemma createProject_files_grows project fds :
  forall acc w,
    let w' := snd (createProject_files E project fds acc w) in
    projects w' = projects w /\ dom (files w) ⊆ dom (files w').
Proof.
  induction fds as [|fd rest IH]; intros acc w.
  - simpl. split; reflexivity.
  - cbv zeta. destruct (null_or_not fd) as [->|Hn].
    + rewrite createProject_files_null. simpl. split; reflexivity.
    + rewrite (createProject_files_step _ _ _ _ _ Hn).
      destruct (mirror_at E _ _) as [e|].
      * simpl. split; [reflexivity|]. rewrite dom_insert_L.
        apply union_subseteq_r.
      * match goal with
        | |- context [createProject_files E project rest ?a ?v] =>
            pose proof (IH a v) as [Hp Hd]
        end.
        split; [rewrite Hp; reflexivity|].
        etrans; [|exact Hd]. simpl. rewrite dom_insert_L.
        apply union_subseteq_r.
Qed.

(** [create_project] when the oracle throws: only the clock has moved. *)
Lemma executeAction_create_project_no_skeleton
    name projectType description template userId w e :
  generateProjectStructure_at E (tick w) (ProjectType_to_string projectType)
    (or_undefined description name) = inl e ->
  executeAction E (CreateProjectAction name projectType description template)
    userId w
  = (inr (createProject_failed e), next w).
Proof.
  intros Hgen. unfold executeAction, createProject, generateProjectStructure,
    try_catch, bind. cbv beta. rewrite Hgen. reflexivity.
Qed.

(** [create_project] when the oracle answers: the project record is stored,
    then its mirror is called, then the files of the skeleton are taken
    and the loop runs; the handler of a failure only builds the outcome. *)
Lemma executeAction_create_project_skeleton
    name projectType description template userId w ps :
  generateProjectStructure_at E (tick w) (ProjectType_to_string projectType)
    (or_undefined description name) = inr ps ->
  let project := createdProject E name projectType description (S (tick w)) in
  let call := FsCreateProject (project_id project) in
  let w1 := record call
              (next (set_projects (insert (project_id project) project)
                       (next (next (next (next w)))))) in
  executeAction E (CreateProjectAction name projectType description template)
    userId w
  = match mirror_at E (4 + tick w) call with
    | Some e => (inr (createProject_failed e), w1)
    | None =>
        match skeletonFiles "projectStructure" ps with
        | inl e => (inr (createProject_failed e), w1)
        | inr fileDatas =>
            match createProject_files E project fileDatas [] w1 with
            | (inl (Thrown e), w2) => (inr (createProject_failed e), w2)
            | (inl a, w2) => (inl a, w2)
            | (inr createdFiles, w2) =>
                (inr (dataResponse true
                        ("Proyecto " +:+ dquote +:+ name +:+ dquote
                           +:+ " creado exitosamente con "
                           +:+ pretty (length createdFiles) +:+ " archivos.")
                        (DataProject project createdFiles)), w2)
            end
        end
    end.
Proof.
  intros Hgen. unfold executeAction, createProject, generateProjectStructure,
    fileSystemService_createProject, mirror, try_catch, bind, lift.
  cbv beta. rewrite Hgen. simpl.
  destruct (mirror_at E _ _) as [e|]; [reflexivity|].
  destruct (skeletonFiles "projectStructure" ps) as [e|fileDatas];
    [reflexivity|]. simpl.
  unfold createdProject.
  match goal with
  | |- context [createProject_files E ?p ?l ?a ?v] =>
      destruct (createProject_files E p l a v) as [[[e|u|]|created] w2]
  end; reflexivity.
Qed.

End StoreProperties.

(** ** The claims about the store *)

(** C8. [update_file] on a record that does not exist returns the
    file-not-found outcome and leaves the world as it was. On a record that
    exists, the stored record is the old one with the content, path and name
    of the action where the action has them, the modified flag set, and the
    update time read from the clock; the projects and the pending map are
    unchanged, and the only collaborator call is the mirror of the content,
    when the action has one. With neither path nor name in the action, the
    path and the name of the record are the old ones. *)
Theorem update_file_partial (E : Env) (w : World) (fileId : string)
    (content path name userId : option string) :
  let out := executeAction E (UpdateFileAction fileId content path name)
               userId w in
  (files w !! fileId = None ->
   out = (inr (plainResponse false "Archivo no encontrado."), w))
  /\ (forall f, files w !! fileId = Some f ->
        let f' := mkFile (file_id f) (file_projectId f)
                    (default (file_path f) (str <$> path))
                    (default (file_name f) (str <$> name))
                    (default (file_content f) (str <$> content))
                    (file_type f) true
                    (file_createdAt f) (Date_at E (tick w)) in
        files (snd out) = <[fileId := f']> (files w)
        /\ projects (snd out) = projects w
        /\ pendingConfirmations (snd out) = pendingConfirmations w
        /\ effects (snd out)
           = match content with
             | Some c =>
                 FsUpdateFile (file_projectId f)
                   (default (file_path f) (str <$> path)) c
                   :: effects w
             | None => effects w
             end
        /\ (path = None -> name = None ->
            file_path f' = file_path f /\ file_name f' = file_name f
            /\ file_isModified f' = true)).
Proof.
  intros out. subst out. split.
  - apply executeAction_update_file_missing.
  - intros f Hf f'.
    rewrite (executeAction_update_file E fileId content path name userId w f Hf).
    cbv zeta. subst f'.
    destruct content as [c|]; simpl;
      (repeat split; try reflexivity); subst; reflexivity.
Qed.

Lemma update_file_partial_witness :
  files (snd (executeAction demoEnv
                (UpdateFileAction "uuid-0" (Some "print(2)") None None) None
                oneFile))
  = <["uuid-0" := mkFile "uuid-0" "sample-web-project" "/main.py" "main.py"
                    "print(2)" "py" true 1 4]> (files oneFile)
  /\ executeAction demoEnv (UpdateFileAction "uuid-9" (Some "x") None None)
       None oneFile
     = (inr (plainResponse false "Archivo no encontrado."), oneFile).
Proof.
  destruct (update_file_partial demoEnv oneFile "uuid-0" (Some "print(2)")
              None None None) as [_ Hsome].
  destruct (update_file_partial demoEnv oneFile "uuid-9" (Some "x")
              None None None) as [Hnone _].
  destruct (Hsome mainPy oneFile_lookup) as (Hfiles & _).
  split; [exact Hfiles | apply Hnone; vm_compute; reflexivity].
Defined.

(** C9. [create_project] when the generation of the skeleton throws: the
    outcome is a failure with the message of the exception, and no project
    record, file record or mirror call has been made. When the generation
    returns, whatever it returns, the action returns an outcome that is a
    success or a reported failure, and in both cases the project record is
    in the store and no file record has been removed. Every failure after
    the project record is reported and leaves what was made before it: the
    mirror of the project throws, and the project record stays; what was
    generated has no files to run over, and the project record and its
    mirror call stay; an entry is [null], or the mirror of a file throws,
    after any number of files that went through, and the records and the
    mirror calls of these files stay, with the record of the file whose
    mirror threw. *)
Theorem create_project_partial_failure (E : Env) (w : World) (name : string)
    (projectType : ProjectType) (description : option string)
    (template : option Template) (userId : option string) :
  let out := executeAction E
               (CreateProjectAction name projectType description template)
               userId w in
  let skeleton := generateProjectStructure_at E (tick w)
                    (ProjectType_to_string projectType)
                    (or_undefined description name) in
  (forall e, skeleton = inl e ->
     fst out = inr (createProject_failed e)
     /\ success (createProject_failed e) = false
     /\ projects (snd out) = projects w /\ files (snd out) = files w
     /\ effects (snd out) = effects w)
  /\ (forall ps, skeleton = inr ps ->
        let project := createdProject E name projectType description
                         (S (tick w)) in
        let pid := project_id project in
        let w1 := record (FsCreateProject pid)
                    (next (set_projects (insert pid project)
                             (next (next (next (next w)))))) in
        (exists resp,
            fst out = inr resp
            /\ (success resp = true \/ exists e, resp = createProject_failed e))
        /\ projects (snd out) = <[pid := project]> (projects w)
        /\ dom (files w) ⊆ dom (files (snd out))
        /\ (forall e,
              mirror_at E (4 + tick w) (FsCreateProject pid) = Some e ->
              out = (inr (createProject_failed e), w1))
        /\ (mirror_at E (4 + tick w) (FsCreateProject pid) = None ->
            (forall e,
                skeletonFiles "projectStructure" ps = inl e ->
                out = (inr (createProject_failed e), w1))
            /\ (forall pre fileData post,
                  skeletonFiles "projectStructure" ps
                  = inr (pre ++ fileData :: post) ->
                  filesMirrored E project pre w1 ->
                  let w2 := afterFiles E project pre w1 in
                  Forall (fun f => file_id f ∈ dom (files w2))
                    (recordsFrom E project pre w1)
                  /\ (fileData = JNull ->
                      out
                      = (inr (createProject_failed
                                (Error "Cannot read properties of null (reading 'name')")),
                         w2))
                  /\ (forall e,
                        fileData <> JNull ->
                        mirror_at E (3 + tick w2) (entryCall project fileData)
                        = Some e ->
                        out = (inr (createProject_failed e),
                               afterFile E project w2 fileData)
                        /\ files (afterFile E project w2 fileData)
                             !! randomUUID_at E (tick w2)
                           = Some (createdFile E (entryFile project fileData)
                                     (tick w2)))))).
Proof.
  intros out skeleton. subst out skeleton. split.
  - intros e He.
    rewrite (executeAction_create_project_no_skeleton E _ _ _ _ _ _ _ He).
    repeat split.
  - intros ps Hps project pid w1.
    rewrite (executeAction_create_project_skeleton E _ _ _ _ _ _ _ Hps).
    cbv zeta. fold project. fold pid. fold w1.
    destruct (mirror_at E (4 + tick w) (FsCreateProject pid)) as [e0|] eqn:Hm.
    { split; [eexists; split; [reflexivity | right; eexists; reflexivity]|].
      split; [reflexivity|]. split; [reflexivity|].
      split; [intros e [= <-]; reflexivity | discriminate]. }
    destruct (skeletonFiles "projectStructure" ps) as [e1|fileDatas] eqn:Hsk.
    { split; [eexists; split; [reflexivity | right; eexists; reflexivity]|].
      split; [reflexivity|]. split; [reflexivity|].
      split; [discriminate|]. intros _.
      split; [intros e [= <-]; reflexivity | discriminate]. }
    pose proof (createProject_files_grows E project fileDatas [] w1) as Hgrow.
    pose proof (catchable_createProject_files E project fileDatas [] w1) as Hc.
    cbv zeta in Hgrow.
    assert (forall pre fileData post,
               fileDatas = pre ++ fileData :: post ->
               filesMirrored E project pre w1 ->
               createProject_files E project fileDatas [] w1
               = createProject_files E project (fileData :: post)
                   (recordsFrom E project pre w1)
                   (afterFiles E project pre w1)) as Hthrough.
    { intros pre fileData post -> Hpre.
      rewrite (createProject_files_through E project pre _ [] w1 Hpre).
      reflexivity. }
    destruct (createProject_files E project fileDatas [] w1)
      as [[[e2|u|]|created] w2] eqn:Hloop; simpl in Hgrow, Hc;
      try contradiction; destruct Hgrow as [Hp Hd].
    + split; [eexists; split; [reflexivity | right; eexists; reflexivity]|].
      split; [exact Hp|]. split; [exact Hd|].
      split; [discriminate|]. intros _. split; [discriminate|].
      intros pre fileData post [= ->] Hpre. cbv zeta.
      specialize (Hthrough pre fileData post eq_refl Hpre).
      split; [apply afterFiles_store|]. split.
      * intros ->. rewrite createProject_files_null in Hthrough.
        injection Hthrough as -> ->. reflexivity.
      * intros e Hn He.
        rewrite (createProject_files_step E _ _ _ _ _ Hn), He in Hthrough.
        injection Hthrough as -> ->.
        split; [reflexivity | apply lookup_insert_eq].
    + split; [eexists; split; [reflexivity | left; reflexivity]|].
      split; [exact Hp|]. split; [exact Hd|].
      split; [discriminate|]. intros _. split; [discriminate|].
      intros pre fileData post [= ->] Hpre. cbv zeta.
      specialize (Hthrough pre fileData post eq_refl Hpre).
      split; [apply afterFiles_store|]. split.
      * intros ->. rewrite createProject_files_null in Hthrough.
        discriminate Hthrough.
      * intros e Hn He.
        rewrite (createProject_files_step E _ _ _ _ _ Hn), He in Hthrough.
        discriminate Hthrough.
Qed.

Lemma create_project_partial_failure_witness :
  (fst (executeAction silentOracleEnv demoProject None emptyWorld)
   = inr (createProject_failed
            (Error "Failed to generate project structure: Error: Failed to generate project structure"))
   /\ projects (snd (executeAction silentOracleEnv demoProject None emptyWorld))
      = projects emptyWorld)
  /\ (fst (executeAction emptyObjectEnv demoProject None emptyWorld)
      = inr (createProject_failed (Error "projectStructure.files is not iterable"))
      /\ projects (snd (executeAction emptyObjectEnv demoProject None emptyWorld))
         = <["uuid-1" := createdProject emptyObjectEnv "mi-sitio" web None 1]>
             (projects emptyWorld))
  /\ (fst (executeAction nullEntryEnv demoProject None emptyWorld)
      = inr (createProject_failed
               (Error "Cannot read properties of null (reading 'name')"))
      /\ file_name <$> files (snd (executeAction nullEntryEnv demoProject None
                                      emptyWorld)) !! "uuid-5"
         = Some (str "index.html"))
  /\ (fst (executeAction fullDiskEnv demoProject None emptyWorld)
      = inr (createProject_failed
               (Error "ENOSPC: no space left on device, write"))
      /\ file_name <$> files (snd (executeAction fullDiskEnv demoProject None
                                      emptyWorld)) !! "uuid-9"
         = Some (str "styles.css")).
Proof.
  destruct (create_project_partial_failure silentOracleEnv emptyWorld
              "mi-sitio" web None (Some basic_website) None) as [Hfail _].
  destruct (create_project_partial_failure emptyObjectEnv emptyWorld
              "mi-sitio" web None (Some basic_website) None) as [_ Hempty].
  destruct (create_project_partial_failure nullEntryEnv emptyWorld
              "mi-sitio" web None (Some basic_website) None) as [_ Hnull].
  destruct (create_project_partial_failure fullDiskEnv emptyWorld
              "mi-sitio" web None (Some basic_website) None) as [_ Hdisk].
  destruct (Hfail _ eq_refl) as (H1 & _ & H2 & _).
  destruct (Hempty _ eq_refl) as (_ & He2 & _ & _ & He).
  destruct (He eq_refl) as [He1 _]. specialize (He1 _ eq_refl).
  destruct (Hnull _ eq_refl) as (_ & _ & _ & _ & Hn).
  destruct (Hn eq_refl) as [_ Hn1].
  destruct (Hn1 [indexHtml] JNull [stylesCss] eq_refl) as (_ & Hn2 & _);
    [repeat split; discriminate|].
  specialize (Hn2 eq_refl).
  destruct (Hdisk _ eq_refl) as (_ & _ & _ & _ & Hd).
  destruct (Hd eq_refl) as [_ Hd1].
  destruct (Hd1 [indexHtml] stylesCss [] eq_refl) as (_ & _ & Hd2);
    [repeat split; discriminate|].
  destruct (Hd2 (Error "ENOSPC: no space left on device, write"))
    as [Hd3 _]; [discriminate | reflexivity|].
  split; [split; [exact H1 | exact H2]|].
  split; [split; [exact (f_equal fst He1) | exact He2]|].
  unfold demoProject.
  split; [rewrite Hn2 | rewrite Hd3]; split; vm_compute; reflexivity.
Defined.

(** The mirror throws on the second file of the skeleton: the failure is
    reported, and the project, both file records and the three mirror calls
    are there. *)
Example create_project_second_file_fails :
  let out := executeAction fullDiskEnv demoProject None emptyWorld in
  fst out
  = inr (plainResponse false
           "Error creando el proyecto: ENOSPC: no space left on device, write")
  /\ project_name <$> projects (snd out) !! "uuid-1" = Some "mi-sitio"
  /\ file_name <$> files (snd out) !! "uuid-5" = Some (str "index.html")
  /\ file_name <$> files (snd out) !! "uuid-9" = Some (str "styles.css")
  /\ effects (snd out)
     = [FsCreateFile "uuid-1" "/styles.css" "h1 { color: #333; }";
        FsCreateFile "uuid-1" "/index.html" "<h1>hola</h1>";
        FsCreateProject "uuid-1"].
Proof. repeat split; vm_compute; reflexivity. Qed.

(** The oracle answers with an empty object: the project record is stored
    and mirrored, and then the failure is reported. *)
Example create_project_without_files :
  let out := executeAction emptyObjectEnv demoProject None emptyWorld in
  fst out
  = inr (plainResponse false
           "Error creando el proyecto: projectStructure.files is not iterable")
  /\ project_name <$> projects (snd out) !! "uuid-1" = Some "mi-sitio"
  /\ files (snd out) = ∅
  /\ effects (snd out) = [FsCreateProject "uuid-1"].
Proof. repeat split; vm_compute; reflexivity. Qed.

(** With a mirror that never throws, the same request succeeds. *)
Example create_project_succeeds :
  exists resp,
    fst (executeAction demoEnv demoProject None emptyWorld) = inr resp
    /\ success resp = true
    /\ message resp
       = "Proyecto " +:+ dquote +:+ "mi-sitio" +:+ dquote
           +:+ " creado exitosamente con 2 archivos.".
Proof. eexists. repeat split; vm_compute; reflexivity. Qed.

(** * More properties *)

(** ** The Action Schema *)

Lemma truthy_string_true s : truthy_string s = true <-> s <> EmptyString.
Proof. destruct s; simpl; split; intros H; congruence. Qed.

Lemma z_string_min1_Some v s :
  z_string_min1 v = Some s -> v = Some (JStr s) /\ s <> EmptyString.
Proof.
  unfold z_string_min1. destruct v as [[| | |s'| |]|]; try discriminate.
  destruct (truthy_string s') eqn:Ht; [|discriminate].
  intros [= ->]. split; [reflexivity | apply truthy_string_true, Ht].
Qed.

(** Finds the schema the union has chosen, by cases on the discriminant. *)
Ltac by_discriminant H :=
  unfold ChatAction_parse in H;
  match type of H with
  | match ?v with _ => _ end = _ => destruct v as [| | | | |o]; try discriminate
  end;
  match type of H with
  | match lookupProp "type" ?o with _ => _ end = _ =>
      let Ht := fresh "Htype" in
      destruct (lookupProp "type" o) as [[| | |t| |]|] eqn:Ht; try discriminate
  end;
  repeat match type of H with
         | (if String.eqb ?t ?lit then _ else _) = _ =>
             destruct (String.eqb_spec t lit); [subst t|]
         end;
  try discriminate.

(** X1. A value is validated only if it is an object whose [type] is one of
    the eight literals, and then into the variant of that literal: the
    discriminant the action has is the one the object had. Anything else,
    a value that is not an object or a [type] that is missing, not a
    string or unknown, is rejected. *)
Theorem ChatAction_parse_discriminant (v : JValue) :
  (forall a, ChatAction_parse v = Some a ->
     getProp v "type" = Some (JStr (actionType a))
     /\ In (actionType a) actionTypes)
  /\ ((forall t, getProp v "type" = Some (JStr t) -> ~ In t actionTypes) ->
      ChatAction_parse v = None).
Proof.
  split.
  - intros a H. by_discriminant H;
      unfold CreateProjectAction_parse, AddFileAction_parse,
        UpdateFileAction_parse, DeleteFileAction_parse,
        CreateWebPageAction_parse, ModifyApkAction_parse,
        RunPythonAction_parse, GenerateCodeSnippetAction_parse in H;
      simplify_option_eq; (split; [assumption | simpl; tauto]).
  - intros Hno. destruct (ChatAction_parse v) as [a|] eqn:H; [|reflexivity].
    exfalso. by_discriminant H;
      (eapply Hno; [simpl; eassumption | simpl; tauto]).
Qed.

(** X2. A validated action has its required names non-empty: the name of a
    project, of a file and of a page, the code to run and the description
    of a snippet. *)
Theorem ChatAction_parse_required_non_empty (v : JValue) (a : ChatActionType) :
  ChatAction_parse v = Some a -> requiredNonEmpty a.
Proof.
  intros H. by_discriminant H;
    unfold CreateProjectAction_parse, AddFileAction_parse,
      UpdateFileAction_parse, DeleteFileAction_parse,
      CreateWebPageAction_parse, ModifyApkAction_parse,
      RunPythonAction_parse, GenerateCodeSnippetAction_parse in H;
    repeat match type of H with
           | context [z_string_min1 ?x] =>
               let Hm := fresh "Hmin" in
               destruct (z_string_min1 x) eqn:Hm;
               [apply z_string_min1_Some in Hm; destruct Hm as [_ Hm]
               |simplify_option_eq; discriminate]
           end;
    simplify_option_eq; simpl; try exact I; assumption.
Qed.

Lemma ChatAction_parse_required_non_empty_witness :
  requiredNonEmpty (RunPythonAction "print(1)" None).
Proof.
  apply (ChatAction_parse_required_non_empty runPythonCandidate).
  reflexivity.
Defined.

(** X3. Validation reads the keys of the variant the discriminant selects
    and nothing else: two objects with the same [type] and the same values
    under those keys are both rejected, or validated into the same action,
    whatever else they hold. *)
Theorem ChatAction_parse_strips_unknown_keys
    (t : string) (o1 o2 : list (string * JValue)) :
  lookupProp "type" o1 = Some (JStr t) ->
  lookupProp "type" o2 = Some (JStr t) ->
  (forall k, In k (variantKeys t) -> lookupProp k o1 = lookupProp k o2) ->
  ChatAction_parse (JObj o1) = ChatAction_parse (JObj o2).
Proof.
  intros H1 H2 Hsame. unfold ChatAction_parse. rewrite H1, H2.
  unfold variantKeys in Hsame.
  repeat match goal with
         | |- (if String.eqb t ?lit then _ else _) = _ =>
             destruct (String.eqb t lit)
         end;
    try reflexivity;
    unfold CreateProjectAction_parse, AddFileAction_parse,
      UpdateFileAction_parse, DeleteFileAction_parse,
      CreateWebPageAction_parse, ModifyApkAction_parse,
      RunPythonAction_parse, GenerateCodeSnippetAction_parse;
    repeat match goal with
           | |- context [lookupProp ?k o1] =>
               rewrite (Hsame k) by (simpl; tauto)
           end;
    reflexivity.
Qed.

Lemma ChatAction_parse_strips_unknown_keys_witness :
  ChatAction_parse
    (JObj [("type", JStr "run_python"); ("code", JStr "print(1)")])
  = ChatAction_parse
      (JObj [("comment", JStr "hecho"); ("type", JStr "run_python");
             ("projectId", JNull); ("code", JStr "print(1)");
             ("fileId", JBool true)]).
Proof.
  apply (ChatAction_parse_strips_unknown_keys "run_python");
    [reflexivity | reflexivity |].
  intros k Hk. simpl in Hk.
  repeat (destruct Hk as [<-|Hk]; [reflexivity|]). contradiction.
Defined.

Lemma all_strings_of_strings (l : list string) :
  all_strings (JStr <$> l) = Some l.
Proof.
  induction l as [|s l IH]; [reflexivity|].
  rewrite fmap_cons. cbn [all_strings]. rewrite IH. reflexivity.
Qed.

Lemma z_string_min1_non_empty s :
  s <> EmptyString -> z_string_min1 (Some (JStr s)) = Some s.
Proof.
  intros H. simpl. apply truthy_string_true in H. rewrite H. reflexivity.
Qed.

Lemma filter_proto_id (o : list (string * JValue)) :
  Forall (fun kv : string * JValue => kv.1 <> "__proto__") o ->
  filter (fun kv : string * JValue => kv.1 <> "__proto__") o = o.
Proof.
  induction 1 as [|kv o Hkv _ IH]; [reflexivity|].
  rewrite filter_cons_True by exact Hkv. rewrite IH. reflexivity.
Qed.

Lemma filter_proto_Forall (o : list (string * JValue)) :
  Forall (fun kv : string * JValue => kv.1 <> "__proto__")
    (filter (fun kv : string * JValue => kv.1 <> "__proto__") o).
Proof.
  apply Forall_forall. intros kv Hin.
  apply list_elem_of_filter in Hin as [Hkv _]. exact Hkv.
Qed.

(** Validation gives its shape to what it returns. *)
Lemma ChatAction_parse_validatedShape (v : JValue) (a : ChatActionType) :
  ChatAction_parse v = Some a -> validatedShape a.
Proof.
  intros H. by_discriminant H;
    unfold CreateProjectAction_parse, AddFileAction_parse,
      UpdateFileAction_parse, DeleteFileAction_parse,
      CreateWebPageAction_parse, ModifyApkAction_parse,
      RunPythonAction_parse, GenerateCodeSnippetAction_parse in H;
    repeat match type of H with
           | context [z_string_min1 ?x] =>
               let Hm := fresh "Hmin" in
               destruct (z_string_min1 x) eqn:Hm;
               [apply z_string_min1_Some in Hm; destruct Hm as [_ Hm]
               |simplify_option_eq; discriminate]
           | context [z_record_any ?x] =>
               let Hr := fresh "Hrec" in
               destruct (z_record_any x) eqn:Hr;
               [|simplify_option_eq; discriminate]
           end;
    simplify_option_eq; simpl; try exact I; try assumption.
  unfold z_record_any in *.
  repeat match goal with
         | H : match ?x with _ => _ end = Some _ |- _ =>
             destruct x; try discriminate H
         end.
  match goal with H : Some _ = Some _ |- _ => injection H as <- end.
  apply filter_proto_Forall.
Qed.

(** X4. Round trip. A typed action of the shape validation gives, its
    required names non-empty and no [__proto__] among the parameters of a
    [modify_apk], written as the object it is, is validated into itself;
    and what validation returns has that shape, so that it validates again
    into itself. *)
Theorem ChatAction_parse_toJSON (a : ChatActionType) :
  (validatedShape a -> ChatAction_parse (toJSON a) = Some a)
  /\ (forall v, ChatAction_parse v = Some a ->
        validatedShape a /\ ChatAction_parse (toJSON a) = Some a).
Proof.
  assert (validatedShape a -> ChatAction_parse (toJSON a) = Some a) as Hround.
  { intros Hne.
    destruct a as [name projectType description template
                  |projectId name content path fileType
                  |fileId content path name
                  |fileId
                  |projectId pageName pageType style features
                  |projectId action parameters
                  |code description
                  |language description context];
      simpl in Hne.
    - destruct name; [contradiction|].
      destruct description, template as [[]|], projectType; reflexivity.
    - destruct name; [contradiction|]. destruct fileType; reflexivity.
    - destruct content, path, name; reflexivity.
    - reflexivity.
    - destruct pageName; [contradiction|].
      destruct features as [l|];
        [pose proof (all_strings_of_strings l) as Hl|];
        destruct style as [[]|], pageType;
        unfold ChatAction_parse, CreateWebPageAction_parse; simpl in *;
        rewrite ?Hl; reflexivity.
    - unfold toJSON, ChatAction_parse, ModifyApkAction_parse.
      cbn [lookupProp String.eqb Ascii.eqb Bool.eqb].
      unfold z_record_any. rewrite (filter_proto_id _ Hne).
      destruct action; reflexivity.
    - destruct code; [contradiction|]. destruct description; reflexivity.
    - destruct description; [contradiction|]. destruct context; reflexivity. }
  split; [exact Hround|].
  intros v Hv. pose proof (ChatAction_parse_validatedShape v a Hv) as Hs.
  split; [exact Hs | exact (Hround Hs)].
Qed.

Lemma ChatAction_parse_toJSON_witness :
  ChatAction_parse
    (toJSON (ModifyApkAction "proj-1" change_theme [("theme", JStr "dark")]))
  = Some (ModifyApkAction "proj-1" change_theme [("theme", JStr "dark")])
  /\ validatedShape (RunPythonAction "print(1)" None).
Proof.
  split.
  - apply (proj1 (ChatAction_parse_toJSON _)). simpl.
    constructor; [discriminate | constructor].
  - apply (proj2 (ChatAction_parse_toJSON _) runPythonCandidate). reflexivity.
Defined.

(** What zod leaves out of a record: the parameters of a validated
    [modify_apk] are those of the candidate without [__proto__]. *)
Example ChatAction_parse_proto_dropped :
  ChatAction_parse
    (JObj [("type", JStr "modify_apk"); ("projectId", JStr "proj-1");
           ("action", JStr "change_theme");
           ("parameters",
            JObj [("__proto__", JObj [("admin", JBool true)]);
                  ("theme", JStr "dark")])])
  = Some (ModifyApkAction "proj-1" change_theme [("theme", JStr "dark")]).
Proof. reflexivity. Qed.

(** X5. An optional property that is present with the value [null] is a
    validation error: [optional()] accepts [undefined] only. *)
Theorem ChatAction_parse_null_optional
    (t k : string) (o : list (string * JValue)) :
  lookupProp "type" o = Some (JStr t) ->
  In k (optionalKeys t) ->
  lookupProp k o = Some JNull ->
  ChatAction_parse (JObj o) = None.
Proof.
  intros Ht Hk Hnull. unfold ChatAction_parse. rewrite Ht.
  unfold optionalKeys in Hk.
  repeat match goal with
         | |- (if String.eqb t ?lit then _ else _) = _ =>
             destruct (String.eqb_spec t lit); [subst t|]
         end;
    try reflexivity; simpl in Hk;
    repeat (destruct Hk as [<-|Hk]; [|]); try contradiction;
    unfold CreateProjectAction_parse, UpdateFileAction_parse,
      CreateWebPageAction_parse, RunPythonAction_parse,
      GenerateCodeSnippetAction_parse;
    rewrite Hnull; simpl;
    repeat match goal with
           | |- context [mbind _ ?x] => destruct x; simpl
           | |- context [z_optional ?f ?x] => destruct (z_optional f x); simpl
           end;
    reflexivity.
Qed.

Lemma ChatAction_parse_null_optional_witness :
  ChatAction_parse
    (JObj [("type", JStr "run_python"); ("code", JStr "print(1)");
           ("description", JNull)])
  = None.
Proof.
  apply (ChatAction_parse_null_optional "run_python" "description");
    [reflexivity | simpl; tauto | reflexivity].
Defined.

(** ** The Intent Parser, further *)

Lemma substituteCurrent_inr ctx c c' :
  substituteCurrent ctx c = inr c' ->
  validateCandidate ctx c = ChatAction_parse c'.
Proof. intros H. unfold validateCandidate. rewrite H. reflexivity. Qed.

(** When the loop ends without throwing, it has kept the candidates that
    validate, in their order. *)
Lemma validateActions_inr ctx cands :
  forall acc l,
    validateActions ctx cands acc = inr l ->
    l = acc ++ omap (validateCandidate ctx) cands.
Proof.
  induction cands as [|c cands IH]; intros acc l; simpl.
  - intros [= <-]. rewrite app_nil_r. reflexivity.
  - destruct (substituteCurrent ctx c) as [e|c'] eqn:Hs; [discriminate|].
    rewrite (substituteCurrent_inr _ _ _ Hs).
    destruct (ChatAction_parse c') as [a|]; intros H; apply IH in H;
      [rewrite H, <- app_assoc; reflexivity | exact H].
Qed.

(** X6. Parsing executes nothing: whatever the oracle answers, valid
    actions included, [parseUserRequest] leaves the projects, the files,
    the pending confirmations and the collaborator calls as they were; it
    only takes the time of the call to the oracle. *)
Theorem parseUserRequest_executes_nothing (E : Env) (message : string)
    (context : option ParseContext) (w : World) :
  let w' := snd (parseUserRequest E message context w) in
  projects w' = projects w /\ files w' = files w
  /\ pendingConfirmations w' = pendingConfirmations w
  /\ effects w' = effects w /\ tick w' = S (tick w).
Proof. rewrite parseUserRequest_eq. simpl. repeat split. Qed.

(** X7. The actions of a result are the candidates of the decoded answer
    that validate, in the order of the answer, a single object counting as
    one candidate; or there is none at all. The parser never returns an
    action that is not the validation of a candidate. *)
Theorem parseUserRequest_actions_from_candidates (E : Env) (message : string)
    (context : option ParseContext) (w : World) (text : string)
    (parsed : JValue) (r : ParseResult) :
  chatWithAI_at E (tick w) message context = inr text ->
  JSON_parse E text = Some parsed ->
  fst (parseUserRequest E message context w) = inr r ->
  (actions r = [] /\ needsMoreInfo r = true)
  \/ (actions r = omap (validateCandidate context) (asArray parsed)
      /\ needsMoreInfo r = false).
Proof.
  intros Hchat Hjson. rewrite parseUserRequest_eq. simpl. rewrite Hchat.
  unfold interpretResult. rewrite Hjson. intros [= <-].
  destruct (readProp parsed "needsMoreInfo") as [e|flag]; [left; split; reflexivity|].
  destruct (truthy flag); [left; split; reflexivity|].
  destruct (validateActions context (asArray parsed) []) as [e|l] eqn:Hl;
    [left; split; reflexivity|].
  right. apply validateActions_inr in Hl. subst l. split; reflexivity.
Qed.

Lemma parseUserRequest_actions_from_candidates_witness :
  actions (mkParseResult [RunPythonAction "print(1)" None] false None)
  = omap (validateCandidate None) (asArray mixedBatch).
Proof.
  destruct (parseUserRequest_actions_from_candidates demoEnv
              "Ejecuta print(1) y borra el archivo" None emptyWorld
              mixedBatchText mixedBatch
              (mkParseResult [RunPythonAction "print(1)" None] false None)
              eq_refl eq_refl batch_isolation_example) as [[H _]|[H _]];
    [discriminate H | exact H].
Defined.

(** X8. A decoded answer whose [needsMoreInfo] is truthy, [true] or
    anything else JavaScript takes for true, gives no action even when the
    answer is itself a valid action or a list: the result carries the
    [clarificationMessage] of the answer as it is, absent when the answer
    has none. *)
Theorem parseUserRequest_clarification_first (E : Env) (message : string)
    (context : option ParseContext) (w : World) (text : string)
    (parsed : JValue) :
  chatWithAI_at E (tick w) message context = inr text ->
  JSON_parse E text = Some parsed ->
  truthy (getProp parsed "needsMoreInfo") = true ->
  fst (parseUserRequest E message context w)
  = inr (mkParseResult [] true (getProp parsed "clarificationMessage")).
Proof.
  intros Hchat Hjson Hflag. rewrite parseUserRequest_eq. simpl. rewrite Hchat.
  unfold interpretResult. rewrite Hjson.
  destruct parsed; try discriminate Hflag.
  unfold readProp. rewrite Hflag. reflexivity.
Qed.

Lemma parseUserRequest_clarification_first_witness :
  fst (parseUserRequest
         (with_JSON_parse
            (fun _ => Some (JObj [("type", JStr "run_python");
                                  ("code", JStr "print(1)");
                                  ("needsMoreInfo", JStr "yes")]))
            demoEnv)
         "Ejecuta print(1)" None emptyWorld)
  = inr (mkParseResult [] true None).
Proof.
  apply (parseUserRequest_clarification_first _ _ _ _ "Claro, dime."
           (JObj [("type", JStr "run_python"); ("code", JStr "print(1)");
                  ("needsMoreInfo", JStr "yes")]));
    reflexivity.
Defined.

(** X9. Replacing the [projectId] of a candidate by another string, as the
    late binding of ["current"] does, never changes whether the candidate
    validates. *)
Theorem substitution_keeps_validity (o : list (string * JValue))
    (s p : string) :
  lookupProp "projectId" o = Some (JStr s) ->
  is_Some (ChatAction_parse (JObj (setProp "projectId" (JStr p) o)))
  <-> is_Some (ChatAction_parse (JObj o)).
Proof.
  intros Hs. unfold ChatAction_parse.
  rewrite lookupProp_setProp_ne by discriminate.
  destruct (lookupProp "type" o) as [[| | |t| |]|]; try reflexivity.
  unfold CreateProjectAction_parse, AddFileAction_parse, UpdateFileAction_parse,
    DeleteFileAction_parse, CreateWebPageAction_parse, ModifyApkAction_parse,
    RunPythonAction_parse, GenerateCodeSnippetAction_parse.
  rewrite !lookupProp_setProp_eq.
  repeat (rewrite lookupProp_setProp_ne by discriminate).
  rewrite Hs.
  repeat match goal with
         | |- context [if String.eqb t ?lit then _ else _] =>
             destruct (String.eqb t lit)
         end;
    try reflexivity; simpl;
    repeat match goal with
           | |- context [mbind _ ?x] => destruct x; simpl
           end;
    split; intros [act Hact]; try discriminate Hact; eexists; reflexivity.
Qed.

Lemma substitution_keeps_validity_witness :
  is_Some (ChatAction_parse
             (JObj (setProp "projectId" (JStr "proj-42")
                      [("type", JStr "create_web_page");
                       ("projectId", JStr "current");
                       ("pageName", JStr "contacto");
                       ("pageType", JStr "contact")]))).
Proof.
  apply (substitution_keeps_validity _ "current" "proj-42"); [reflexivity|].
  eexists. reflexivity.
Defined.

(** ** The Action Executor, further *)

Lemma yields_ret {A} (P : A -> Prop) (a : A) : P a -> yields P (ret a).
Proof. intros H w a' [= <-]. exact H. Qed.

Lemma yields_bind {A B} (P : B -> Prop) (m : M A) (f : A -> M B) :
  (forall a, yields P (f a)) -> yields P (bind m f).
Proof.
  intros Hf w b. unfold bind. destruct (m w) as [[[e|u|]|a] w1]; simpl;
    try discriminate. apply Hf.
Qed.

Lemma yields_try_catch {A} (P : A -> Prop) (m : M A) (h : Exn -> M A) :
  yields P m -> (forall e, yields P (h e)) -> yields P (try_catch m h).
Proof.
  intros Hm Hh w a. unfold try_catch. specialize (Hm w).
  destruct (m w) as [[[e|u|]|a'] w1]; simpl in *; try discriminate;
    [apply Hh | apply Hm].
Qed.

Lemma asks_nothing_plain ok msg : asks_nothing (plainResponse ok msg).
Proof. repeat split. Qed.

Lemma asks_nothing_data ok msg d : asks_nothing (dataResponse ok msg d).
Proof. repeat split. Qed.

(** Splits a handler down to the outcomes it returns. *)
Ltac outcomes :=
  repeat first
    [ apply yields_try_catch; [|intros ?]
    | apply yields_bind; intros ?
    | apply yields_ret; first [apply asks_nothing_plain | apply asks_nothing_data]
    | match goal with
      | |- yields _ (match ?x with _ => _ end) => destruct x
      | |- yields _ (if ?x then _ else _) => destruct x
      end ].

(** X10. [executeAction] lets no exception out, and for every action but
    [run_python] it returns an outcome, whatever the outside does; a
    [run_python] returns one unless its sandbox ends the process or never
    settles. An outcome has a token exactly when it asks for a
    confirmation, and that happens for [modify_apk] and for no other
    action: there the outcome is a failure with [requiresConfirmation:
    true] and an [actionId]; everywhere else the outcome has neither flag,
    nor confirmation message, nor token. *)
Theorem executeAction_outcome_shape (E : Env) (action : ChatActionType)
    (userId : option string) (w : World) :
  let out := fst (executeAction E action userId w) in
  (forall e, out <> inl (Thrown e))
  /\ ((forall code description, action <> RunPythonAction code description) ->
      exists resp, out = inr resp)
  /\ (forall resp, out = inr resp ->
        (is_modify_apk action ->
         success resp = false /\ requiresConfirmation resp = Some true
         /\ is_Some (confirmationMessage resp) /\ is_Some (actionId resp))
        /\ (~ is_modify_apk action -> asks_nothing resp)).
Proof.
  intros out. subst out.
  split; [intros e; apply executeAction_never_throws|].
  split; [intros Hne; apply (executeAction_returns E action userId Hne w)|].
  intros resp Hr. split.
  - intros Hm. destruct action; try contradiction.
    rewrite executeAction_modify_apk in Hr. injection Hr as <-.
    repeat split; eexists; reflexivity.
  - intros Hm. revert w resp Hr.
    change (yields asks_nothing (executeAction E action userId)).
    unfold executeAction.
    apply yields_try_catch;
      [|intros e; apply yields_ret, asks_nothing_plain].
    destruct action; try (exfalso; apply Hm; exact I);
      unfold createProject, addFile, updateFile, deleteFile, createWebPage,
        runPython, generateCodeSnippet;
      outcomes.
Qed.

(** X11. No action other than [modify_apk] touches the pending
    confirmations: whatever else is executed, with whatever result, the
    pending map is the same afterwards. *)
Theorem only_modify_apk_registers (E : Env) (action : ChatActionType)
    (userId : option string) (w : World) :
  ~ is_modify_apk action ->
  pendingConfirmations (snd (executeAction E action userId w))
  = pendingConfirmations w.
Proof. intros H. apply (executeAction_same_pending E action userId w H). Qed.

Lemma only_modify_apk_registers_witness :
  pendingConfirmations (snd (executeAction demoEnv demoProject None onePending))
  = pendingConfirmations onePending.
Proof.
  apply only_modify_apk_registers. intros H. exact H.
Defined.

(** X12. [run_python] forwards the code to the sandbox as it is, once, and
    touches nothing else: projects, files and pending confirmations are
    unchanged. When the child is spawned and its run settles, the outcome
    has the [success] of the result with the result as [data]; when
    [spawn] throws, the outcome is a failure with the message of the
    exception. There is no outcome when the child writes on its standard
    error while nothing listens to ['error'], for the process ends, nor
    when the child neither ends nor fails. *)
Theorem run_python_forwards_once (E : Env) (code : string)
    (description userId : option string) (w : World) :
  let out := executeAction E (RunPythonAction code description) userId w in
  effects (snd out) = PyExecuteCode code :: effects w
  /\ projects (snd out) = projects w /\ files (snd out) = files w
  /\ pendingConfirmations (snd out) = pendingConfirmations w
  /\ fst out
     = match spawn_at E (tick w) code with
       | inl e =>
           inr (plainResponse false
                  ("Error ejecutando Python: " +:+ errMessage e))
       | inr events =>
           match executeCode_result (listening_at E (tick w)) events with
           | inr (Some result) =>
               inr (dataResponse (exec_success result)
                      (if exec_success result
                       then "Código Python ejecutado exitosamente."
                       else "Error ejecutando código Python.")
                      (DataExecution result))
           | inr None => inl Unsettled
           | inl u => inl (Crashed u)
           end
       end.
Proof.
  unfold executeAction, runPython, pythonExecutor_executeCode, try_catch, bind.
  cbv zeta beta. destruct (spawn_at E (tick w) code) as [e|events];
    [simpl; repeat split|].
  destruct (executeCode_result (listening_at E (tick w)) events)
    as [u|[result|]]; simpl; repeat split.
Qed.

(** A division by zero in the sandbox. While something listens to
    ['error'] the outcome is a failure that carries the traceback; while
    nothing does, there is no outcome. *)
Example run_python_traceback :
  fst (executeAction heardEnv (RunPythonAction "print(1/0)" None) None
         emptyWorld)
  = inr (dataResponse false "Error ejecutando código Python."
           (DataExecution
              (mkExecutionResult false "inicio" (Some "ZeroDivisionError"))))
  /\ fst (executeAction unheardEnv (RunPythonAction "print(1/0)" None) None
            emptyWorld)
     = inl (Crashed (UnhandledError "ZeroDivisionError")).
Proof. split; reflexivity. Qed.

(** X13. [generate_code_snippet] only asks the oracle: projects, files,
    pending confirmations and collaborator calls are unchanged. The outcome
    carries the generated code and the language of the action; when the
    oracle throws, the outcome is a failure with the message of the
    exception. *)
Theorem generate_code_snippet_only_asks (E : Env)
    (language description : string) (context userId : option string)
    (w : World) :
  let out := executeAction E
               (GenerateCodeSnippetAction language description context)
               userId w in
  snd out = next w
  /\ fst out
     = inr match generateCode_at E (tick w) description language context with
           | inr code =>
               dataResponse true
                 ("Código " +:+ language +:+ " generado exitosamente.")
                 (DataCode code language)
           | inl e =>
               plainResponse false ("Error generando código: " +:+ errMessage e)
           end.
Proof.
  unfold executeAction, generateCodeSnippet, generateCode, try_catch, bind.
  cbv zeta beta.
  destruct (generateCode_at E (tick w) description language context) as [e|c];
    simpl; repeat split.
Qed.

Lemma executeAction_delete_file_eq E fileId userId w :
  executeAction E (DeleteFileAction fileId) userId w
  = match files w !! fileId with
    | None => (inr (plainResponse false "Archivo no encontrado."), w)
    | Some f =>
        (inr match toString E (file_name f) with
             | inr name =>
                 plainResponse true
                   ("Archivo " +:+ dquote +:+ name +:+ dquote
                      +:+ " eliminado exitosamente.")
             | inl e =>
                 plainResponse false
                   ("Error eliminando el archivo: " +:+ errMessage e)
             end,
         set_files (delete fileId) w)
    end.
Proof.
  unfold executeAction, deleteFile, storage_getFile, storage_deleteFile,
    try_catch, bind, get_world, lift. cbv beta.
  destruct (files w !! fileId) as [f|] eqn:Hf; [|reflexivity].
  simpl. rewrite Hf. rewrite bool_decide_eq_true_2 by eauto. simpl.
  destruct (toString E (file_name f)); reflexivity.
Qed.

(** X14. [delete_file] on a missing record returns the file-not-found
    outcome and changes nothing. On a record that exists, that record alone
    leaves the store, and no mirror call is made, so what the mirror holds
    of the file stays; the outcome is a success that names the file, the
    name of the record being a string, and in general the conversion of
    that name to a string decides: when it throws, the outcome is a failure
    though the record is gone. Afterwards the record is unknown: deleting
    it again, or updating it, returns the file-not-found outcome. The
    outcome "could not delete" never occurs. *)
Theorem delete_file_record_only (E : Env) (fileId : string)
    (userId : option string) (w : World) :
  let out := executeAction E (DeleteFileAction fileId) userId w in
  (files w !! fileId = None ->
   out = (inr (plainResponse false "Archivo no encontrado."), w))
  /\ (forall f, files w !! fileId = Some f ->
        (forall name, file_name f = str name ->
           fst out
           = inr (plainResponse true
                    ("Archivo " +:+ dquote +:+ name +:+ dquote
                       +:+ " eliminado exitosamente.")))
        /\ fst out
           = inr match toString E (file_name f) with
                 | inr name =>
                     plainResponse true
                       ("Archivo " +:+ dquote +:+ name +:+ dquote
                          +:+ " eliminado exitosamente.")
                 | inl e =>
                     plainResponse false
                       ("Error eliminando el archivo: " +:+ errMessage e)
                 end
        /\ files (snd out) = delete fileId (files w)
        /\ projects (snd out) = projects w
        /\ effects (snd out) = effects w
        /\ pendingConfirmations (snd out) = pendingConfirmations w
        /\ fst (executeAction E (DeleteFileAction fileId) userId (snd out))
           = inr (plainResponse false "Archivo no encontrado.")
        /\ (forall content path name,
              fst (executeAction E (UpdateFileAction fileId content path name)
                     userId (snd out))
              = inr (plainResponse false "Archivo no encontrado.")))
  /\ (forall resp, fst out = inr resp ->
        message resp <> "No se pudo eliminar el archivo.").
Proof.
  intros out. subst out. rewrite executeAction_delete_file_eq.
  split; [intros ->; reflexivity|]. split.
  - intros f ->. simpl.
    split; [intros name ->; reflexivity|]. split; [reflexivity|].
    repeat split.
    + rewrite executeAction_delete_file_eq. simpl.
      rewrite lookup_delete_eq. reflexivity.
    + intros content path name.
      rewrite executeAction_update_file_missing;
        [reflexivity | simpl; apply lookup_delete_eq].
  - intros resp. destruct (files w !! fileId) as [f|]; intros [= <-]; simpl.
    + destruct (toString E (file_name f)); simpl; intros H;
        apply (f_equal (fun s => String.get 0 s)) in H; discriminate H.
    + discriminate.
Qed.

Lemma delete_file_record_only_witness :
  files (snd (executeAction demoEnv (DeleteFileAction "uuid-0") None oneFile))
    = delete "uuid-0" (files oneFile)
  /\ effects (snd (executeAction demoEnv (DeleteFileAction "uuid-0") None
                     oneFile))
     = effects oneFile
  /\ fst (executeAction demoEnv (DeleteFileAction "uuid-0") None oneFile)
     = inr (plainResponse true
              ("Archivo " +:+ dquote +:+ "main.py" +:+ dquote
                 +:+ " eliminado exitosamente.")).
Proof.
  destruct (delete_file_record_only demoEnv "uuid-0" None oneFile)
    as (_ & Hsome & _).
  destruct (Hsome mainPy oneFile_lookup)
    as (Hname & _ & Hfiles & _ & Heff & _).
  split; [exact Hfiles|]. split; [exact Heff | exact (Hname "main.py" eq_refl)].
Defined.

Lemma executeAction_add_file_eq E (projectId name content path : string)
    fileType userId w :
  let ins := mkInsertFile projectId name path content
               (FileType_to_string fileType) false in
  let file := createdFile E ins (tick w) in
  let call := FsCreateFile projectId path content in
  executeAction E (AddFileAction projectId name content path fileType) userId w
  = (inr match mirror_at E (3 + tick w) call with
         | None =>
             dataResponse true
               ("Archivo " +:+ dquote +:+ name +:+ dquote
                  +:+ " agregado exitosamente.") (DataFile file)
         | Some e =>
             plainResponse false
               ("Error agregando el archivo: " +:+ errMessage e)
         end,
     record call
       (next (set_files (insert (file_id file) file) (next (next (next w)))))).
Proof.
  cbv zeta. unfold executeAction, addFile, try_catch, bind.
  rewrite storage_createFile_eq.
  unfold fileSystemService_createFile, mirror, stored. simpl.
  destruct (mirror_at E _ _); reflexivity.
Qed.

(** X15. [add_file] stores a record under a token drawn from [randomUUID],
    with the project, name, path, content and type of the action and the
    modified flag off, and calls the mirror once with the project, the
    path and the content; no other record and no project changes. When the
    mirror throws the outcome is a failure, and the record is in the store
    all the same. *)
Theorem add_file_record_then_mirror (E : Env)
    (projectId name content path : string) (fileType : FileType)
    (userId : option string) (w : World) :
  let out := executeAction E
               (AddFileAction projectId name content path fileType) userId w in
  let id := randomUUID_at E (tick w) in
  exists file,
    files (snd out) = <[id := file]> (files w)
    /\ file_id file = id
    /\ record_of (mkInsertFile projectId name path content
                    (FileType_to_string fileType) false) file
    /\ projects (snd out) = projects w
    /\ pendingConfirmations (snd out) = pendingConfirmations w
    /\ effects (snd out) = FsCreateFile projectId path content :: effects w
    /\ (forall e,
          mirror_at E (3 + tick w) (FsCreateFile projectId path content)
          = Some e ->
          fst out
          = inr (plainResponse false
                   ("Error agregando el archivo: " +:+ errMessage e)))
    /\ (mirror_at E (3 + tick w) (FsCreateFile projectId path content) = None ->
        exists msg, fst out = inr (dataResponse true msg (DataFile file))).
Proof.
  intros out id. subst out id. rewrite executeAction_add_file_eq. cbv zeta.
  eexists. split; [reflexivity|]. simpl.
  repeat split.
  - intros e ->. reflexivity.
  - intros ->. eexists. reflexivity.
Qed.

(** X16. Adding a file and then deleting the record [add_file] created
    restores the files of the store, when the token drawn was not the key
    of a record. Two mirror calls of the addition apart, nothing remains
    of the two actions in the store. *)
Theorem add_then_delete_restores (E : Env)
    (projectId name content path : string) (fileType : FileType)
    (userId : option string) (w : World) :
  files w !! randomUUID_at E (tick w) = None ->
  let w1 := snd (executeAction E
                   (AddFileAction projectId name content path fileType)
                   userId w) in
  let out := executeAction E (DeleteFileAction (randomUUID_at E (tick w)))
               userId w1 in
  files (snd out) = files w /\ projects (snd out) = projects w
  /\ exists msg, fst out = inr (plainResponse true msg).
Proof.
  intros Hfresh w1 out. subst out w1.
  rewrite executeAction_add_file_eq. cbv zeta.
  rewrite executeAction_delete_file_eq. simpl.
  rewrite lookup_insert_eq. simpl.
  split; [apply delete_insert_id; exact Hfresh|].
  split; [reflexivity | eexists; reflexivity].
Qed.

Lemma add_then_delete_restores_witness :
  files (snd (executeAction demoEnv (DeleteFileAction "uuid-4") None
                (snd (executeAction demoEnv
                        (AddFileAction "sample-web-project" "util.py" "x = 1"
                           "/util.py" py) None oneFile))))
  = files oneFile.
Proof.
  destruct (add_then_delete_restores demoEnv "sample-web-project" "util.py"
              "x = 1" "/util.py" py None oneFile) as [H _];
    [vm_compute; reflexivity | exact H].
Defined.

Lemma record_of_createdFile E ins t : record_of ins (createdFile E ins t).
Proof. repeat split. Qed.

Section Loops.
Variable E : Env.




(** One turn of the loop of [createWebPage]: when the insert can be made,
    its record is stored; when it cannot, the loop stops before it stores
    anything. *)
Lemma createWebPage_files_step projectId pageName fileData rest acc w :
  createWebPage_files E projectId pageName (fileData :: rest) acc w
  = match pageFile E projectId pageName fileData with
    | inl e => (inl (Thrown e), w)
    | inr ins =>
        createWebPage_files E projectId pageName rest
          (acc ++ [createdFile E ins (tick w)]) (stored E ins w)
    end.
Proof.
  cbn [createWebPage_files]. unfold bind at 1, lift.
  destruct (pageFile E projectId pageName fileData) as [e|ins];
    reflexivity.
Qed.

(** The loop adds file records and nothing else, however it ends. *)
Lemma createWebPage_files_frame projectId pageName fileDatas :
  forall acc w,
    let w' := snd (createWebPage_files E projectId pageName fileDatas acc w) in
    effects w' = effects w /\ projects w' = projects w
    /\ pendingConfirmations w' = pendingConfirmations w
    /\ dom (files w) ⊆ dom (files w').
Proof.
  induction fileDatas as [|fileData rest IH]; intros acc w.
  - simpl. repeat split; reflexivity.
  - cbv zeta. rewrite createWebPage_files_step.
    destruct (pageFile E projectId pageName fileData) as [e|ins].
    + simpl. repeat split; reflexivity.
    + destruct (IH (acc ++ [createdFile E ins (tick w)]) (stored E ins w))
        as (H1 & H2 & H3 & H4).
      split; [exact H1|]. split; [exact H2|]. split; [exact H3|].
      etrans; [|exact H4]. simpl. rewrite dom_insert_L.
      apply union_subseteq_r.
Qed.

Lemma createWebPage_files_through projectId pageName pre :
  forall rest acc w,
    Forall (pageMade E projectId pageName) pre ->
    createWebPage_files E projectId pageName (pre ++ rest) acc w
    = createWebPage_files E projectId pageName rest
        (acc ++ pagesFrom E projectId pageName pre w)
        (afterPages E projectId pageName pre w).
Proof.
  induction pre as [|fileData pre IH]; intros rest acc w Hpre.
  - simpl. rewrite app_nil_r. reflexivity.
  - apply Forall_cons in Hpre as [[ins Hins] Hpre].
    rewrite <- app_comm_cons, createWebPage_files_step.
    cbn [pagesFrom afterPages foldl]. unfold afterPage at 2.
    rewrite Hins, (IH _ _ _ Hpre), <- app_assoc. reflexivity.
Qed.

(** The turns add file records and nothing else; no key leaves the
    files, and each record is the one of the insert of its entry. *)
Lemma afterPages_store projectId pageName fileDatas :
  forall w,
    let w' := afterPages E projectId pageName fileDatas w in
    projects w' = projects w
    /\ pendingConfirmations w' = pendingConfirmations w
    /\ effects w' = effects w
    /\ dom (files w) ⊆ dom (files w')
    /\ Forall (fun f => file_id f ∈ dom (files w'))
         (pagesFrom E projectId pageName fileDatas w).
Proof.
  induction fileDatas as [|fileData rest IH]; intros w.
  - simpl. split; [reflexivity|]. split; [reflexivity|].
    split; [reflexivity|]. split; [reflexivity | by apply Forall_nil].
  - cbn [afterPages foldl pagesFrom]. unfold afterPage at 2 4 6 8 10.
    destruct (pageFile E projectId pageName fileData) as [e|ins].
    + destruct (IH w) as (Hp & Hq & He & Hd & _).
      split; [exact Hp|]. split; [exact Hq|]. split; [exact He|].
      split; [exact Hd | by apply Forall_nil].
    + destruct (IH (stored E ins w)) as (Hp & Hq & He & Hd & Hin).
      fold (afterPages E projectId pageName rest (stored E ins w)) in *.
      assert (dom (files (stored E ins w))
              = {[randomUUID_at E (tick w)]} ∪ dom (files w)) as Hw1
        by (simpl; apply dom_insert_L).
      split; [rewrite Hp; reflexivity|]. split; [rewrite Hq; reflexivity|].
      split; [rewrite He; reflexivity|].
      split; [etrans; [|exact Hd]; rewrite Hw1; apply union_subseteq_r|].
      constructor; [|exact Hin].
      apply Hd. rewrite Hw1. apply elem_of_union_l, elem_of_singleton.
      reflexivity.
Qed.

Lemma pagesFrom_spec projectId pageName fileDatas :
  Forall (pageMade E projectId pageName) fileDatas ->
  forall w,
    Forall2 (fun fileData f =>
               exists ins, pageFile E projectId pageName fileData = inr ins
                           /\ record_of ins f)
      fileDatas (pagesFrom E projectId pageName fileDatas w).
Proof.
  induction 1 as [|fileData rest [ins Hins] _ IH]; intros w;
    cbn [pagesFrom]; [constructor|].
  rewrite Hins. constructor; [|apply IH].
  exists ins. split; [exact Hins | apply record_of_createdFile].
Qed.

(** [create_web_page], by what the oracle and the header of the loop
    give. *)
Lemma executeAction_create_web_page
    projectId pageName pageType style features userId w :
  let failed e :=
    plainResponse false ("Error creando la página: " +:+ errMessage e) in
  executeAction E
    (CreateWebPageAction projectId pageName pageType style features) userId w
  = match generateProjectStructure_at E (tick w) "web"
            (createWebPage_prompt pageName pageType style features) with
    | inl e => (inr (failed e), next w)
    | inr ps =>
        match skeletonFiles "pageStructure" ps with
        | inl e => (inr (failed e), next w)
        | inr fileDatas =>
            match createWebPage_files E projectId pageName fileDatas []
                    (next w) with
            | (inl (Thrown e), w2) => (inr (failed e), w2)
            | (inl a, w2) => (inl a, w2)
            | (inr createdFiles, w2) =>
                (inr (dataResponse true
                        ("Página " +:+ dquote +:+ pageName +:+ dquote
                           +:+ " creada exitosamente con "
                           +:+ pretty (length createdFiles) +:+ " archivos.")
                        (DataFiles createdFiles)), w2)
            end
        end
    end.
Proof.
  cbv zeta. unfold executeAction, createWebPage, generateProjectStructure,
    try_catch, bind, lift. cbv beta.
  destruct (generateProjectStructure_at E (tick w) "web" _) as [e|ps];
    [reflexivity|]. cbn [thrown fst snd].
  destruct (skeletonFiles "pageStructure" ps) as [e|fileDatas];
    [reflexivity|]. cbn [thrown fst snd].
  destruct (createWebPage_files E projectId pageName fileDatas [] (next w))
    as [[[e|u|]|created] w2]; reflexivity.
Qed.

End Loops.

(** X17. [create_web_page] asks the oracle for a web skeleton and stores
    records of files under the project of the action; it never calls the
    mirror, changes neither projects nor pending confirmations, and
    removes no record. When the oracle throws, or when what it returns has
    no files to run over, the outcome is a failure and nothing is stored.
    When every entry can be made a page, the action succeeds with one
    record per entry, in order; an entry with a string for name gives a
    record named after the page and placed under [/pages/<pageName>/].
    When an entry cannot, being [null] or having a name that cannot be
    converted to a string, the outcome is a failure, and the records of the
    entries before it are in the store. *)
Theorem create_web_page_records_only (E : Env) (projectId pageName : string)
    (pageType : PageType) (style : option Style)
    (features : option (list string)) (userId : option string) (w : World) :
  let out := executeAction E
               (CreateWebPageAction projectId pageName pageType style features)
               userId w in
  let skeleton := generateProjectStructure_at E (tick w) "web"
                    (createWebPage_prompt pageName pageType style features) in
  let failed e :=
    plainResponse false ("Error creando la página: " +:+ errMessage e) in
  effects (snd out) = effects w
  /\ projects (snd out) = projects w
  /\ pendingConfirmations (snd out) = pendingConfirmations w
  /\ dom (files w) ⊆ dom (files (snd out))
  /\ (forall e, skeleton = inl e -> out = (inr (failed e), next w))
  /\ (forall ps, skeleton = inr ps ->
        (forall e, skeletonFiles "pageStructure" ps = inl e ->
           out = (inr (failed e), next w))
        /\ (forall fileDatas,
              skeletonFiles "pageStructure" ps = inr fileDatas ->
              Forall (pageMade E projectId pageName) fileDatas ->
              let created := pagesFrom E projectId pageName fileDatas (next w) in
              out
              = (inr (dataResponse true
                        ("Página " +:+ dquote +:+ pageName +:+ dquote
                           +:+ " creada exitosamente con "
                           +:+ pretty (length fileDatas) +:+ " archivos.")
                        (DataFiles created)),
                 afterPages E projectId pageName fileDatas (next w))
              /\ Forall2 (fun fileData f =>
                            exists ins,
                              pageFile E projectId pageName fileData = inr ins
                              /\ record_of ins f)
                   fileDatas created
              /\ Forall (fun f => file_id f ∈ dom (files (snd out))) created)
        /\ (forall pre fileData post e,
              skeletonFiles "pageStructure" ps
              = inr (pre ++ fileData :: post) ->
              Forall (pageMade E projectId pageName) pre ->
              pageFile E projectId pageName fileData = inl e ->
              out = (inr (failed e),
                     afterPages E projectId pageName pre (next w))
              /\ Forall (fun f => file_id f ∈ dom (files (snd out)))
                   (pagesFrom E projectId pageName pre (next w))))
  /\ (forall fileData name,
        getProp fileData "name" = Some (JStr name) ->
        pageFile E projectId pageName fileData
        = inr (mkInsertFile projectId (pageName +:+ "-" +:+ name)
                 ("/pages/" +:+ pageName +:+ "/" +:+ name)
                 (getProp fileData "content") (getProp fileData "type") false))
  /\ pageFile E projectId pageName JNull
     = inl (Error "Cannot read properties of null (reading 'name')").
Proof.
  intros out skeleton failed. subst out skeleton.
  rewrite executeAction_create_web_page. cbv zeta. fold failed.
  pose proof (fun fileDatas =>
                createWebPage_files_frame E projectId pageName fileDatas []
                  (next w)) as Hframe.
  assert (forall fileData name,
             getProp fileData "name" = Some (JStr name) ->
             pageFile E projectId pageName fileData
             = inr (mkInsertFile projectId (pageName +:+ "-" +:+ name)
                      ("/pages/" +:+ pageName +:+ "/" +:+ name)
                      (getProp fileData "content") (getProp fileData "type")
                      false)) as Hnamed.
  { intros fileData name Hname. unfold pageFile, readProp.
    destruct fileData; try discriminate Hname; rewrite Hname; reflexivity. }
  destruct (generateProjectStructure_at E (tick w) "web" _) as [e|ps].
  { simpl. split; [reflexivity|]. split; [reflexivity|].
    split; [reflexivity|]. split; [reflexivity|].
    split; [intros e0 [= <-]; reflexivity|].
    split; [discriminate|]. split; [exact Hnamed | reflexivity]. }
  destruct (skeletonFiles "pageStructure" ps) as [e|fileDatas] eqn:Hsk.
  { simpl. split; [reflexivity|]. split; [reflexivity|].
    split; [reflexivity|]. split; [reflexivity|]. split; [discriminate|].
    split; [|split; [exact Hnamed | reflexivity]].
    intros ps0 [= <-]. rewrite Hsk.
    split; [intros e0 [= <-]; reflexivity|].
    split; [discriminate|]. intros pre fileData post e0. discriminate. }
  specialize (Hframe fileDatas). cbv zeta in Hframe.
  pose proof (catchable_createWebPage_files E projectId pageName fileDatas []
                (next w)) as Hc.
  assert (forall fds,
             fileDatas = fds ->
             Forall (pageMade E projectId pageName) fds ->
             createWebPage_files E projectId pageName fileDatas [] (next w)
             = (inr (pagesFrom E projectId pageName fds (next w)),
                afterPages E projectId pageName fds (next w))) as Hall.
  { intros fds -> Hmade.
    pose proof (createWebPage_files_through E projectId pageName fds [] []
                  (next w) Hmade) as H.
    rewrite app_nil_r in H. exact H. }
  assert (forall pre fileData post e,
             fileDatas = pre ++ fileData :: post ->
             Forall (pageMade E projectId pageName) pre ->
             pageFile E projectId pageName fileData = inl e ->
             createWebPage_files E projectId pageName fileDatas [] (next w)
             = (inl (Thrown e), afterPages E projectId pageName pre (next w)))
    as Hstop.
  { intros pre fileData post e -> Hmade He.
    rewrite (createWebPage_files_through E projectId pageName pre _ []
               (next w) Hmade), createWebPage_files_step, He.
    reflexivity. }
  destruct (createWebPage_files E projectId pageName fileDatas [] (next w))
    as [[[e|u|]|created] w2]; simpl in Hframe, Hc; try contradiction;
    destruct Hframe as (He & Hp & Hq & Hd).
  - split; [exact He|]. split; [exact Hp|]. split; [exact Hq|].
    split; [exact Hd|]. split; [discriminate|].
    split; [|split; [exact Hnamed | reflexivity]].
    intros ps0 [= <-]. rewrite Hsk. split; [discriminate|]. split.
    + intros fds [= <-] Hmade. specialize (Hall _ eq_refl Hmade).
      discriminate Hall.
    + intros pre fileData post e0 [= ->] Hmade He0.
      specialize (Hstop _ _ _ _ eq_refl Hmade He0).
      injection Hstop as -> ->.
      split; [reflexivity | apply afterPages_store].
  - split; [exact He|]. split; [exact Hp|]. split; [exact Hq|].
    split; [exact Hd|]. split; [discriminate|].
    split; [|split; [exact Hnamed | reflexivity]].
    intros ps0 [= <-]. rewrite Hsk. split; [discriminate|]. split.
    + intros fds [= <-] Hmade. specialize (Hall _ eq_refl Hmade).
      injection Hall as -> ->.
      pose proof (pagesFrom_spec E projectId pageName fileDatas Hmade (next w))
        as Hrec.
      rewrite <- (Forall2_length _ _ _ Hrec).
      split; [reflexivity|]. split; [exact Hrec | apply afterPages_store].
    + intros pre fileData post e0 [= ->] Hmade He0.
      specialize (Hstop _ _ _ _ eq_refl Hmade He0). discriminate Hstop.
Qed.

Lemma create_web_page_records_only_witness :
  let act := CreateWebPageAction "proj-1" "contacto" contact None None in
  (fst (executeAction nullEntryEnv act None emptyWorld)
   = inr (plainResponse false
            "Error creando la página: Cannot read properties of null (reading 'name')")
   /\ file_path <$> files (snd (executeAction nullEntryEnv act None emptyWorld))
                     !! "uuid-1"
      = Some (str "/pages/contacto/index.html"))
  /\ fst (executeAction demoEnv act None emptyWorld)
     = inr (dataResponse true
              ("Página " +:+ dquote +:+ "contacto" +:+ dquote
                 +:+ " creada exitosamente con 2 archivos.")
              (DataFiles
                 (pagesFrom demoEnv "proj-1" "contacto" [indexHtml; stylesCss]
                    (next emptyWorld)))).
Proof.
  intros act.
  destruct (create_web_page_records_only nullEntryEnv "proj-1" "contacto"
              contact None None None emptyWorld)
    as (_ & _ & _ & _ & _ & Hnull & _).
  destruct (create_web_page_records_only demoEnv "proj-1" "contacto"
              contact None None None emptyWorld)
    as (_ & _ & _ & _ & _ & Hdemo & _).
  destruct (Hnull _ eq_refl) as (_ & _ & Hstop).
  destruct (Hstop [indexHtml] JNull [stylesCss]
              (Error "Cannot read properties of null (reading 'name')")
              eq_refl) as [Hout _];
    [repeat constructor; eexists; reflexivity | reflexivity|].
  destruct (Hdemo _ eq_refl) as (_ & Hall & _).
  destruct (Hall [indexHtml; stylesCss] eq_refl) as [Hdone _];
    [repeat constructor; eexists; reflexivity|].
  subst act. split; [rewrite Hout; split; vm_compute; reflexivity|].
  rewrite Hdone. reflexivity.
Defined.



(** ** [MemStorage], further *)

Lemma preserves_ret {A} I (a : A) : preserves I (ret a).
Proof. intros w H. exact H. Qed.

Lemma preserves_bind {A B} I (m : M A) (f : A -> M B) :
  preserves I m -> (forall a, preserves I (f a)) -> preserves I (bind m f).
Proof.
  intros Hm Hf w H. unfold bind. specialize (Hm w H).
  destruct (m w) as [[e|a] w1]; simpl in *; [assumption | apply Hf, Hm].
Qed.

Lemma preserves_lift {A} I (r : Exn + A) : preserves I (lift r).
Proof. intros w H. exact H. Qed.

Lemma preserves_try_catch {A} I (m : M A) (h : Exn -> M A) :
  preserves I m -> (forall e, preserves I (h e)) -> preserves I (try_catch m h).
Proof.
  intros Hm Hh w H. unfold try_catch. specialize (Hm w H).
  destruct (m w) as [[[e|u|]|a] w1]; simpl in *; try assumption.
  apply Hh, Hm.
Qed.

Section StoreKeys.
Variable E : Env.

(** The invariant looks at the two maps of the store only. *)
Lemma store_keys_ok_same w w' :
  projects w' = projects w -> files w' = files w ->
  store_keys_ok w -> store_keys_ok w'.
Proof. intros Hp Hf [H1 H2]. split; intros k x; rewrite ?Hp, ?Hf; auto. Qed.

Lemma preserves_outside {A} (m : M A) :
  (forall w, projects (snd (m w)) = projects w /\ files (snd (m w)) = files w) ->
  preserves store_keys_ok m.
Proof.
  intros H w Hw. destruct (H w) as [Hp Hf].
  exact (store_keys_ok_same w _ Hp Hf Hw).
Qed.

Lemma preserves_storage_createFile ins :
  preserves store_keys_ok (storage_createFile E ins).
Proof.
  intros w [H1 H2]. rewrite storage_createFile_eq.
  split; [exact H1|]. intros k f.
  cbn [snd files set_files next stored]. rewrite lookup_insert.
  case_decide as Hk; [intros [= <-]; exact Hk | apply H2].
Qed.

Lemma preserves_storage_createProject ins :
  preserves store_keys_ok (storage_createProject E ins).
Proof.
  intros w [H1 H2]. unfold storage_createProject, bind, randomUUID, newDate,
    modify_world, ret. cbv beta iota.
  split; [|exact H2]. intros k p.
  cbn [snd projects set_projects next]. rewrite lookup_insert.
  case_decide as Hk; [intros [= <-]; exact Hk | apply H1].
Qed.

Lemma preserves_storage_updateFile id upd :
  upd_id upd = None \/ upd_id upd = Some id ->
  preserves store_keys_ok (storage_updateFile E id upd).
Proof.
  intros Hid w [H1 H2]. unfold storage_updateFile, bind, get_world. cbv beta.
  destruct (files w !! id) as [f|] eqn:Hf; [|split; assumption].
  unfold newDate, modify_world, ret. cbv beta iota.
  split; [exact H1|]. intros k f'.
  cbn [snd files set_files next]. rewrite lookup_insert.
  case_decide as Hk; [|apply H2].
  intros [= <-]. simpl. subst k.
  destruct Hid as [-> | ->]; simpl; [apply H2, Hf | reflexivity].
Qed.

Lemma preserves_storage_deleteFile id :
  preserves store_keys_ok (storage_deleteFile id).
Proof.
  intros w [H1 H2]. unfold storage_deleteFile, bind, get_world, modify_world,
    ret. cbv beta iota. split; [exact H1|].
  intros k f. cbn [snd files set_files]. rewrite lookup_delete.
  case_decide; [discriminate | apply H2].
Qed.

Lemma preserves_createProject_files project fds :
  forall acc, preserves store_keys_ok (createProject_files E project fds acc).
Proof.
  induction fds as [|fd rest IH]; intros acc; simpl; [apply preserves_ret|].
  apply preserves_bind; [apply preserves_lift|]. intros ins.
  apply preserves_bind; [apply preserves_storage_createFile|]. intros file.
  apply preserves_bind; [|intros _; apply IH].
  apply preserves_outside. intros w. split; reflexivity.
Qed.

Lemma preserves_createWebPage_files pid page fds :
  forall acc, preserves store_keys_ok (createWebPage_files E pid page fds acc).
Proof.
  induction fds as [|fd rest IH]; intros acc; simpl; [apply preserves_ret|].
  apply preserves_bind; [apply preserves_lift|]. intros ins.
  apply preserves_bind; [apply preserves_storage_createFile|]. intros file.
  apply IH.
Qed.

(** Splits a handler down to the operations of the store and to the calls
    that do not touch it. *)
Ltac keys :=
  repeat first
    [ apply preserves_storage_createFile
    | apply preserves_storage_createProject
    | apply preserves_storage_deleteFile
    | apply preserves_createProject_files
    | apply preserves_createWebPage_files
    | (apply preserves_storage_updateFile; left; reflexivity)
    | apply preserves_try_catch; [|intros ?]
    | apply preserves_bind; [|intros ?]
    | apply preserves_ret
    | apply preserves_lift
    | (apply preserves_outside; intros ?; split; reflexivity)
    | match goal with
      | |- preserves _ (match ?x with _ => _ end) => destruct x
      | |- preserves _ (if ?x then _ else _) => destruct x
      end ].

Lemma preserves_executeAction action userId :
  preserves store_keys_ok (executeAction E action userId).
Proof.
  unfold executeAction.
  destruct action;
    unfold createProject, addFile, updateFile, deleteFile, createWebPage,
      modifyApk, runPython, generateCodeSnippet; keys.
Qed.

Lemma preserves_confirmAction actionId confirmed :
  preserves store_keys_ok (confirmAction E actionId confirmed).
Proof.
  unfold confirmAction.
  apply preserves_bind; [apply preserves_outside; intros ?; split; reflexivity|].
  intros w0. destruct (pendingConfirmations w0 !! actionId);
    [|apply preserves_ret].
  apply preserves_bind; [apply preserves_outside; intros ?; split; reflexivity|].
  intros _. destruct (negb confirmed);
    [apply preserves_ret | apply preserves_executeAction].
Qed.

Lemma preserves_parseUserRequest message context :
  preserves store_keys_ok (parseUserRequest E message context).
Proof. unfold parseUserRequest. keys. Qed.

End StoreKeys.

(** X19. Every record is kept under its own [id]: if this holds of the
    projects and the files of the store, it holds after any sequence of
    parse, execute and confirm requests, whatever they return. *)
Theorem requests_keep_records_under_their_id (E : Env) (rs : list Request)
    (w : World) :
  store_keys_ok w -> store_keys_ok (run E rs w).
Proof.
  revert w. induction rs as [|r rest IH]; intros w Hw; simpl; [exact Hw|].
  assert (store_keys_ok (snd (serve E r w))) as Hserved.
  { destruct r as [message context|action userId|actionId confirmed]; simpl.
    - pose proof (preserves_parseUserRequest E message context w Hw) as H.
      destruct (parseUserRequest E message context w). exact H.
    - pose proof (preserves_executeAction E action userId w Hw) as H.
      destruct (executeAction E action userId w). exact H.
    - pose proof (preserves_confirmAction E actionId confirmed w Hw) as H.
      destruct (confirmAction E actionId confirmed w). exact H. }
  destruct (crashed _); [exact Hserved | apply IH, Hserved].
Qed.

Lemma requests_keep_records_under_their_id_witness :
  store_keys_ok
    (run demoEnv
       [ExecuteAction demoProject None;
        ExecuteAction (UpdateFileAction "uuid-5" None (Some "/home.html") None)
          None;
        ExecuteAction (DeleteFileAction "uuid-9") None]
       emptyWorld).
Proof.
  apply requests_keep_records_under_their_id.
  split; intros k x; simpl; rewrite lookup_empty; discriminate.
Defined.

(** X20. [storage.updateFile] never creates a record: on a missing key it
    returns nothing and changes nothing. On a record it writes the merged
    record back under the same key, even when the update carries another
    [id]: then the record it returns and stores has an [id] that is not its
    key, and what is stored under that other [id] is as before. An update
    without [id], or with the [id] of the key, keeps every record under its
    own [id]. *)
Theorem storage_updateFile_same_key (E : Env) (id : string)
    (upd : PartialFile) (w : World) :
  let out := storage_updateFile E id upd w in
  (files w !! id = None -> out = (inr None, w))
  /\ (forall f, files w !! id = Some f ->
        let f' := spreadFile f upd (Date_at E (tick w)) in
        fst out = inr (Some f')
        /\ files (snd out) = <[id := f']> (files w)
        /\ projects (snd out) = projects w
        /\ (store_keys_ok w -> upd_id upd = None \/ upd_id upd = Some id ->
            store_keys_ok (snd out))
        /\ (forall other, upd_id upd = Some other -> other <> id ->
              file_id f' = other
              /\ files (snd out) !! other = files w !! other
              /\ ~ store_keys_ok (snd out))).
Proof.
  intros out. subst out. split.
  - intros Hf. unfold storage_updateFile, bind, get_world. cbv beta.
    rewrite Hf. reflexivity.
  - intros f Hf f'. subst f'.
    pose proof (preserves_storage_updateFile E id upd) as Hkeep.
    unfold preserves in Hkeep. specialize (fun H => Hkeep H w).
    unfold storage_updateFile, bind, get_world in *. cbv beta in *.
    rewrite Hf in *. unfold newDate, modify_world, ret in *. cbv beta iota in *.
    cbn [fst snd files projects set_files next] in *.
    split; [reflexivity|]. split; [reflexivity|]. split; [reflexivity|].
    split; [intros Hw Hid; exact (Hkeep Hid Hw)|].
    intros other Hother Hne.
    split; [unfold spreadFile; rewrite Hother; reflexivity|].
    split; [apply lookup_insert_ne; congruence|].
    intros [_ Hfiles].
    specialize (Hfiles id _ (lookup_insert_eq _ _ _)).
    unfold spreadFile in Hfiles. rewrite Hother in Hfiles. simpl in Hfiles.
    congruence.
Qed.

Lemma storage_updateFile_same_key_witness :
  files (snd (storage_updateFile demoEnv "uuid-0"
                (mkPartialFile (Some "otro") None None None None None None
                   None None) oneFile))
    !! "uuid-0"
  = Some (mkFile "otro" "sample-web-project" "/main.py" "main.py" "print(1)"
            "py" false 1 4)
  /\ storage_updateFile demoEnv "uuid-7"
       (mkPartialFile None None None None (Some (str "x")) None None None
          None)
       oneFile
     = (inr None, oneFile).
Proof.
  destruct (storage_updateFile_same_key demoEnv "uuid-0"
              (mkPartialFile (Some "otro") None None None None None None
                 None None) oneFile) as [_ Hsome].
  destruct (storage_updateFile_same_key demoEnv "uuid-7"
              (mkPartialFile None None None None (Some (str "x")) None None None
          None)
              oneFile) as [Hnone _].
  destruct (Hsome mainPy oneFile_lookup) as (_ & Hfiles & _).
  split; [rewrite Hfiles; apply lookup_insert_eq
         | apply Hnone; vm_compute; reflexivity].
Defined.

(** X21. [storage.deleteProject] removes the project and every file whose
    [projectId] is the given one, and only those; it returns whether the
    project was there. The files go even when the project is unknown and
    the result is [false]. Nothing else changes. *)
Theorem storage_deleteProject_cascade (id : string) (w : World) :
  let out := storage_deleteProject id w in
  fst out = inr (bool_decide (is_Some (projects w !! id)))
  /\ projects (snd out) = delete id (projects w)
  /\ (forall k f,
        files (snd out) !! k = Some f
        <-> files w !! k = Some f /\ file_projectId f <> id)
  /\ (forall k f, files w !! k = Some f -> file_projectId f = id ->
        files (snd out) !! k = None)
  /\ pendingConfirmations (snd out) = pendingConfirmations w
  /\ effects (snd out) = effects w /\ tick (snd out) = tick w.
Proof.
  intros out. subst out.
  unfold storage_deleteProject, bind, get_world, modify_world, ret.
  cbv beta iota. cbn [fst snd projects files pendingConfirmations effects tick
                        set_projects set_files].
  split; [reflexivity|]. split; [reflexivity|]. split.
  - intros k f. rewrite map_lookup_filter_Some. reflexivity.
  - split; [|repeat split].
    intros k f Hk Hid. apply map_lookup_filter_None. right.
    intros f' Hf' Hne. rewrite Hk in Hf'. injection Hf' as <-.
    apply Hne. exact Hid.
Qed.

(** A project that is not in the store, with a file that names it: the
    deletion answers [false] and the file is gone. *)
Example storage_deleteProject_unknown_project :
  projects oneFile !! "sample-web-project" = None
  /\ fst (storage_deleteProject "sample-web-project" oneFile) = inr false
  /\ files (snd (storage_deleteProject "sample-web-project" oneFile))
       !! "uuid-0" = None.
Proof. repeat split; vm_compute; reflexivity. Qed.

(** ** [PythonExecutor] *)

Lemma append_assoc (a b c : string) : (a +:+ b) +:+ c = a +:+ b +:+ c.
Proof.
  induction a as [|x a IH]; [reflexivity|].
  change (String x ((a +:+ b) +:+ c) = String x (a +:+ b +:+ c)).
  f_equal. exact IH.
Qed.

Lemma append_empty_r (a : string) : a +:+ EmptyString = a.
Proof.
  induction a as [|x a IH]; [reflexivity|].
  change (String x (a +:+ EmptyString) = String x a). f_equal. exact IH.
Qed.

Lemma executeCode_listen_spec events :
  forall output error r,
    executeCode_listen true output error events = inr (Some r) ->
    (exec_success r = true <-> exec_error r = None)
    /\ (exec_success r = true ->
        exec_output r = output +:+ stdoutBeforeEnd events).
Proof.
  induction events as [|ev rest IH]; intros output error r; simpl;
    [discriminate|].
  destruct ev as [chunk|chunk|code|msg].
  - intros H. destruct (IH _ _ _ H) as [H1 H2]. split; [exact H1|].
    intros Hs. rewrite (H2 Hs). apply append_assoc.
  - apply IH.
  - intros [= <-]. simpl. destruct (bool_decide (code = Some 0%Z)); simpl.
    + split; [split; reflexivity|]. intros _.
      symmetry. apply append_empty_r.
    + split; [split; discriminate | discriminate].
  - intros [= <-]. simpl. split; [split; discriminate | discriminate].
Qed.

Lemma executeCode_listen_pending events :
  forall output error,
    executeCode_listen true output error events = inr None
    <-> Forall isChunk events.
Proof.
  induction events as [|ev rest IH]; intros output error; simpl.
  - split; [constructor | reflexivity].
  - destruct ev as [chunk|chunk|code|msg]; simpl.
    + rewrite IH. split; [intros H; constructor; [exact I | exact H]|].
      intros H. inversion H. assumption.
    + rewrite IH. split; [intros H; constructor; [exact I | exact H]|].
      intros H. inversion H. assumption.
    + split; [discriminate|]. intros H. inversion H. contradiction.
    + split; [discriminate|]. intros H. inversion H. contradiction.
Qed.

(** X22. [executeCode], while something listens to ['error'], raises
    nothing; it is resolved exactly when the child has ended or failed to
    run. The result is a success exactly when it carries no [error], and a
    success has for [output] the chunks of standard output written before
    the end, in order. *)
Theorem executeCode_result_listened (events : list ChildEvent) :
  exists o,
    executeCode_result true events = inr o
    /\ (o = None <-> Forall isChunk events)
    /\ (forall r, o = Some r ->
          (exec_success r = true <-> exec_error r = None)
          /\ (exec_success r = true ->
              exec_output r = stdoutBeforeEnd events)).
Proof.
  unfold executeCode_result.
  assert (forall output error,
             exists o, executeCode_listen true output error events = inr o)
    as Hret.
  { induction events as [|[chunk|chunk|code|msg] rest IH];
      intros output error; simpl; eauto. }
  destruct (Hret EmptyString EmptyString) as [o Ho]. exists o.
  split; [exact Ho|]. split.
  - rewrite <- (executeCode_listen_pending events EmptyString EmptyString), Ho.
    split; congruence.
  - intros r ->. apply (executeCode_listen_spec events _ _ _ Ho).
Qed.

Lemma executeCode_listen_unheard events :
  forall output error,
    executeCode_listen false output error events
    = match stderrBeforeEnd events with
      | chunk :: _ => inl (UnhandledError chunk)
      | [] => executeCode_listen true output error events
      end.
Proof.
  induction events as [|[chunk|chunk|code|msg] rest IH];
    intros output error; simpl; try reflexivity. apply IH.
Qed.

(** X23. [executeCode], while nothing listens to ['error'] on the
    executor: the first chunk the child writes on its standard error before
    it ends is emitted as an unhandled ['error'], and the exception leaves
    the listener with that chunk; the promise is not resolved. A child that
    writes nothing there gives what it gives with a listener. *)
Theorem executeCode_result_unheard (events : list ChildEvent) :
  executeCode_result false events
  = match stderrBeforeEnd events with
    | chunk :: _ => inl (UnhandledError chunk)
    | [] => executeCode_result true events
    end.
Proof. apply executeCode_listen_unheard. Qed.

(** A division by zero: the traceback comes on standard error, then the
    child ends with code 1. With a listener the run is a failure carrying
    the traceback; without, the exception is raised. *)
Example executeCode_traceback :
  let events := [Stdout "inicio"; Stderr "ZeroDivisionError"; Close (Some 1%Z)] in
  executeCode_result true events
  = inr (Some (mkExecutionResult false "inicio" (Some "ZeroDivisionError")))
  /\ executeCode_result false events
     = inl (UnhandledError "ZeroDivisionError").
Proof. split; reflexivity. Qed.

Lemma session_ok_new : session_ok newExecutor.
Proof.
  split; [|split].
  - simpl. split; [discriminate | intros [c Hc]; discriminate].
  - simpl. discriminate.
  - simpl. intros a Ha. inversion Ha.
Qed.

Lemma session_ok_logged a x :
  session_ok x ->
  match a with
  | Spawned c | Killed c | Written c _ => c < children x
  | _ => True
  end ->
  session_ok (logged a x).
Proof.
  intros (H1 & H2 & H3) Ha. split; [exact H1|]. split; [exact H2|].
  simpl. intros b Hb. apply elem_of_cons in Hb as [-> | Hb];
    [exact Ha | apply H3, Hb].
Qed.

Lemma session_ok_reset x : session_ok x -> session_ok (reset x).
Proof.
  intros (H1 & H2 & H3). split; [|split]; simpl.
  - split; [discriminate | intros [c Hc]; discriminate].
  - discriminate.
  - exact H3.
Qed.

Lemma session_ok_stop x : session_ok x -> session_ok (stopInteractiveSession x).
Proof.
  intros Hx. unfold stopInteractiveSession.
  destruct (process x) as [child|] eqn:Hp; [|exact Hx].
  destruct (isRunning x); [|exact Hx].
  apply session_ok_reset, session_ok_logged; [exact Hx|].
  destruct Hx as (_ & H2 & _). specialize (H2 child Hp). lia.
Qed.

Lemma session_ok_start x : session_ok x -> session_ok (startInteractiveSession x).
Proof.
  intros Hx. unfold startInteractiveSession.
  assert (session_ok (if isRunning x then stopInteractiveSession x else x))
    as (H1 & H2 & H3)
    by (destruct (isRunning x); [apply session_ok_stop|]; exact Hx).
  set (x1 := if isRunning x then stopInteractiveSession x else x) in *.
  split; [|split]; simpl.
  - split; [eauto | reflexivity].
  - intros child [= <-]. reflexivity.
  - intros a Ha. apply elem_of_cons in Ha as [-> | Ha]; [simpl; lia|].
    specialize (H3 a Ha). destruct a; simpl in *; try exact I; lia.
Qed.

Lemma session_ok_step ev x x' :
  session_ok x -> session_step ev x = inr x' -> session_ok x'.
Proof.
  intros Hx. destruct ev as [|cmd| | |c d|c d|c|c m]; simpl.
  - intros [= <-]. apply session_ok_start, Hx.
  - intros [= <-]. unfold sendCommand.
    destruct (process x) as [child|] eqn:Hp; [|exact Hx].
    destruct (isRunning x); [|exact Hx].
    apply session_ok_logged; [exact Hx|].
    destruct Hx as (_ & H2 & _). specialize (H2 child Hp). lia.
  - intros [= <-]. apply session_ok_stop, Hx.
  - intros [= <-]. exact Hx.
  - destruct (Nat.ltb c (children x)); intros [= <-];
      [apply session_ok_logged; [exact Hx | exact I] | exact Hx].
  - unfold emitError.
    destruct (Nat.ltb c (children x)); [|intros [= <-]; exact Hx].
    destruct (errorListeners x); [discriminate|]. intros [= <-].
    apply session_ok_logged; [exact Hx | exact I].
  - destruct (Nat.ltb c (children x)); intros [= <-];
      [apply session_ok_reset, Hx | exact Hx].
  - unfold emitError.
    destruct (Nat.ltb c (children x)); [|intros [= <-]; exact Hx].
    destruct (errorListeners x); [discriminate|]. intros [= <-].
    apply session_ok_reset, session_ok_logged; [exact Hx | exact I].
Qed.

Lemma session_run_ok evs :
  forall x0 x, session_ok x0 -> session_run evs x0 = inr x -> session_ok x.
Proof.
  induction evs as [|ev rest IH]; intros x0 x H0; simpl.
  - intros [= <-]. exact H0.
  - destruct (session_step ev x0) as [u|x1] eqn:Hstep; [discriminate|].
    apply IH. eapply session_ok_step; eassumption.
Qed.

(** X24. Whatever calls and child events reach a new executor, as long as
    no unhandled ['error'] is raised: the executor says it is running
    exactly when it holds a child; the child it holds is the last one
    spawned; and it has killed and written to spawned children only. *)
Theorem session_invariant (evs : list SessionEvent) (x : PythonExecutor) :
  session_run evs newExecutor = inr x -> session_ok x.
Proof. apply session_run_ok, session_ok_new. Qed.

Lemma session_invariant_witness :
  session_ok
    (mkPythonExecutor None false 2 1
       [Killed 1; EmittedError "NameError"; Written 1 ("x" +:+ nl); Spawned 1;
        Killed 0; Spawned 0]).
Proof.
  apply (session_invariant
           [OnError; StartSession; StartSession; SendCommand "x";
            ChildStderr 1 "NameError"; StopSession; SendCommand "y"]).
  reflexivity.
Defined.

(** X25. A session is started and then started again, which kills the
    first child and holds a second. When the end of the first child reaches
    the executor, its listener resets the executor all the same: the
    executor says it is not running and holds no child, though the second
    child was never killed. From there commands are dropped, and stopping
    kills nothing. *)
Theorem restart_then_close_strands_the_session (evs : list SessionEvent)
    (x : PythonExecutor) :
  session_run evs newExecutor = inr x ->
  let x1 := startInteractiveSession x in
  let x2 := startInteractiveSession x1 in
  exists first second x3,
    process x1 = Some first /\ process x2 = Some second /\ first <> second
    /\ Killed first ∈ sessionLog x2
    /\ session_step (ChildClose first) x2 = inr x3
    /\ isSessionRunning x3 = false /\ process x3 = None
    /\ (Killed second ∉ sessionLog x3)
    /\ (forall command, sendCommand command x3 = x3)
    /\ stopInteractiveSession x3 = x3.
Proof.
  intros Hrun x1 x2.
  pose proof (session_run_ok evs _ x session_ok_new Hrun) as Hx.
  pose proof (session_ok_start x Hx) as Hx1. fold x1 in Hx1.
  assert (exists first, process x1 = Some first /\ isRunning x1 = true
                        /\ S first = children x1) as (first & Hp1 & Hr1 & Hc1).
  { eexists. repeat split. }
  clearbody x1.
  exists first, (children x1), (reset x2).
  assert (x2 = mkPythonExecutor (Some (children x1)) true (S (children x1))
                 (errorListeners x1)
                 (Spawned (children x1) :: Killed first :: sessionLog x1)) as Hx2.
  { subst x2. unfold startInteractiveSession at 1. rewrite Hr1.
    unfold stopInteractiveSession. rewrite Hp1, Hr1. reflexivity. }
  split; [exact Hp1|]. rewrite Hx2. simpl.
  split; [reflexivity|]. split; [lia|].
  split; [apply elem_of_cons; right; apply elem_of_cons; left; reflexivity|].
  split.
  { destruct (Nat.ltb_spec first (S (children x1))); [reflexivity | lia]. }
  split; [reflexivity|]. split; [reflexivity|].
  split; [|split; [intros command|]; reflexivity].
  intros Hin. apply elem_of_cons in Hin as [Heq | Hin]; [discriminate|].
  apply elem_of_cons in Hin as [Heq | Hin]; [injection Heq; lia|].
  destruct Hx1 as (_ & _ & H3). specialize (H3 _ Hin). simpl in H3. lia.
Qed.

Lemma restart_then_close_strands_the_session_witness :
  let x := mkPythonExecutor None false 0 1 [] in
  let x2 := startInteractiveSession (startInteractiveSession x) in
  exists x3,
    session_step (ChildClose 0) x2 = inr x3
    /\ isSessionRunning x3 = false
    /\ sessionLog x3 = [Spawned 1; Killed 0; Spawned 0].
Proof.
  destruct (restart_then_close_strands_the_session [OnError] _ eq_refl)
    as (first & second & x3 & Hp1 & _ & _ & _ & Hstep & Hrun & _).
  injection Hp1 as <-. exists x3.
  split; [exact Hstep|]. split; [exact Hrun|].
  simpl in Hstep. injection Hstep as <-. reflexivity.
Defined.

(** X26. An empty optional value counts as an absent one. A
    [create_project] whose description is the empty string runs exactly as
    one without description; a [create_web_page] without style runs exactly
    as one with the style [modern], and one with an empty list of features
    as one without features. *)
Theorem empty_options_count_as_absent (E : Env) (userId : option string)
    (w : World) :
  (forall name projectType template,
      executeAction E
        (CreateProjectAction name projectType (Some EmptyString) template)
        userId w
      = executeAction E (CreateProjectAction name projectType None template)
          userId w)
  /\ (forall projectId pageName pageType features,
        executeAction E
          (CreateWebPageAction projectId pageName pageType None features)
          userId w
        = executeAction E
            (CreateWebPageAction projectId pageName pageType (Some modern)
               features) userId w)
  /\ (forall projectId pageName pageType style,
        executeAction E
          (CreateWebPageAction projectId pageName pageType style (Some []))
          userId w
        = executeAction E
            (CreateWebPageAction projectId pageName pageType style None)
            userId w).
Proof. repeat split. Qed.

(** X27. [update_file] with a content, on a record that exists, when the
    mirror throws: the outcome is a failure with the message of the
    exception, and the record in the store is the updated one all the same.
    The update is not undone. *)
Theorem update_file_mirror_failure_keeps_update (E : Env) (w : World)
    (fileId content : string) (path name userId : option string)
    (f : File) (e : Exn) :
  files w !! fileId = Some f ->
  let f' := spreadFile f (updateFile_updates (Some content) path name)
              (Date_at E (tick w)) in
  mirror_at E (S (tick w))
    (FsUpdateFile (file_projectId f') (file_path f') content) = Some e ->
  let out := executeAction E
               (UpdateFileAction fileId (Some content) path name) userId w in
  fst out
  = inr (plainResponse false
           ("Error actualizando el archivo: " +:+ errMessage e))
  /\ files (snd out) !! fileId = Some f'
  /\ file_content f' = content /\ file_isModified f' = true.
Proof.
  intros Hf f' Hm out. subst out.
  rewrite (executeAction_update_file E fileId (Some content) path name userId
             w f Hf).
  cbv zeta. fold f'. rewrite Hm.
  cbn [fst snd files record next set_files].
  split; [reflexivity|]. split; [apply lookup_insert_eq|]. split; reflexivity.
Qed.

Lemma update_file_mirror_failure_keeps_update_witness :
  file_content
    <$> files (snd (executeAction
                      (with_mirror
                         (fun _ _ => Some (Error "EACCES: permission denied"))
                         demoEnv)
                      (UpdateFileAction "uuid-0" (Some "print(2)") None None)
                      None oneFile))
          !! "uuid-0"
  = Some (str "print(2)").
Proof.
  destruct (update_file_mirror_failure_keeps_update
              (with_mirror
                 (fun _ _ => Some (Error "EACCES: permission denied"))
                 demoEnv)
              oneFile "uuid-0" "print(2)" None None None mainPy
              (Error "EACCES: permission denied") oneFile_lookup eq_refl)
    as (_ & Hfile & _).
  rewrite Hfile. reflexivity.
Defined.
